(* ===== verification/_CoqProject ===== *)
-Q . S2P
Prelude.v
Types.v
Json.v
Schema.v
ResultRender.v
Gemini.v
Wizard.v
WizardSpec.v
ExerciseCard.v
ProgressBar.v
Selection.v
System.v
Settlement.v
Render.v
Crash.v
