(* ===== verification/Prelude.v ===== *)
(** * Bruno's Fit: a verification development of the workout wizard

    The program (a React + TypeScript single-page app under [src/]) has
    four parts, leaf first:

    - the data model, [src/types.ts]: three string-valued enums
      ([ExperienceLevel], [FitnessGoal], [MuscleGroup]), the records
      [UserPreferences], [Exercise], [WorkoutPlan], and the numeric enum
      [AppStep] (Intro = 0 ... Error = 6);
    - the generation gateway, [src/services/geminiService.ts]: the response
      schema [workoutSchema], [generateWorkoutPlan] (builds a prompt from the
      preferences, calls the text model, rejects an empty reply, and returns
      [JSON.parse(text) as WorkoutPlan]), and [generateExerciseImage] (calls
      the image model and returns the first inline image of the first
      candidate as a [data:] URI, [null] on any failure);
    - the wizard, [src/App.tsx]: the React state [step], [prefs],
      [workout], [error], the handlers [handleNext], [handleBack],
      [generate] (an [async] function: a synchronous part up to the [await]
      and a continuation run when the gateway settles), the selection
      closures and the retry button of the error screen, and the render
      function, which decides which controls the user can reach;
    - the presentation components [src/components/]: [ExerciseCard] (loads
      the image of one exercise in an effect guarded by an [isMounted]
      flag), [ProgressBar] (a clamped percentage), [SelectionCard] (a
      clickable label).

    The wizard calls the gateway when the last selection is confirmed; the
    gateway calls the external generative service; the result screen mounts
    one [ExerciseCard] per exercise, each of which calls the image gateway.

    ** Files (in dependency order, as [_CoqProject] lists them)

    - [Prelude.v] (this file): the libraries loaded (stdpp), the scope
      [fit_scope], JavaScript truthiness as the class [Truthy], the class
      [StringEnum] of string-valued enums with the generic round-trip
      lemmas of [Object.values], the [result] type of settled promises with
      its bind notation [x ←? c; k], prefix stripping, the hint databases
      [fit] and [fit_rw], and [rtc_invariant] (an invariant of every step is
      an invariant of every run).
    - [Types.v]: [src/types.ts].  The enums as inductive types with the
      source's constructors and strings, [AppStep] with its numbers, the
      records.  Theorem: [Object.values] lists each member once and its
      strings read back as the members ([object_values_roundtrip]).
    - [Json.v]: runtime support, not repository code: the values of
      [JSON.parse], property access, truthiness, and the interface
      [JsonParse] the gateway is written against.
    - [Schema.v]: [workoutSchema] (geminiService.ts 6-51) as a value of the
      SDK's [Schema] type; [conforms], the structured-output contract; the
      reading [plan_of_json] of a value at the TypeScript [WorkoutPlan]
      interface and the printing [plan_to_json].  Theorems: decode after
      encode is the identity; conformance implies the typed reading; a
      typed plan conforms exactly when it has no [imageUrl] (so an empty
      exercise list conforms: a gap against the spec).
    - [ResultRender.v]: the result screen (App.tsx 126-176, with each
      [ExerciseCard]'s render, ExerciseCard.tsx 18-67) on every value
      [JSON.parse] returns, with the JavaScript semantics of what the code
      does to it: property reads, [map] on a non-array, a [null] exercise,
      [String()] of the name passed to the image call, and React's drawing
      of strings, numbers, arrays and (throwing) objects as children; the
      outcome is the drawn text or the first error.  Theorems: a value that
      reads as a plan draws the plan's text; the render throws exactly on
      the truthy values that lack the shape the code assumes, which
      [generateWorkoutPlan] never checks ([renderResult_js_throws]).
    - [Gemini.v]: [src/services/geminiService.ts].  Each [async] function
      is its request record and a function from the service's answer (a
      [result] of the SDK call) to its outcome.  Theorems: every branch of
      [generateWorkoutPlan]'s settlement, its lack of validation, the
      characterisation of [generateExerciseImage] (first inline image of
      the first candidate, [null] otherwise, never a throw), the [data:]
      URI payload, and that the prompt carries the preferences without loss
      ([prompt_profile_roundtrip], checked on all 264 preference values),
      and that the image prompt names its exercise without loss, for every
      name ([image_prompt_roundtrip], by [strip_prefix]/[strip_suffix]).
    - [Wizard.v]: [src/App.tsx].  [AppState] is the React state with the
      numeric [step]; [handleNext], [handleBack], the selection closures,
      [retry] and [generate] split at its [await] ([generate_start],
      [generate_settle]) are functions; [dispatch] wires events to them;
      [ui_enabled] is what the render functions expose; [sys_step] runs the
      component with its outstanding [generateWorkoutPlan] calls, any
      interleaving of actions and settlements, against any service answer.
      Theorems: the numeric handlers equal named-step versions; the
      invariant [wizard_inv] holds on every run (one call at a time, only
      in Loading, with complete preferences; choices kept; no plan outside
      Result); only "next" on the muscle step starts a call; the outcome of
      a settlement; progress everywhere except on a result step whose
      screen is not drawn ([result_drawn]: a falsy value, which the user
      reaches when the service answers [null], or a throwing render);
      "back" then "next" on a selection step gives back the same state.
    - [WizardSpec.v]: the spec's transition table (§4.1) as an inductive
      relation on named states, [abs] from code states, and the refinement
      theorems: each possible action of the code is a row of the table,
      and each reachable state is reachable in the table.
    - [ExerciseCard.v]: [src/components/ExerciseCard.tsx].  The card's
      state hooks and the [isMounted] variable of every effect run, kept
      as a store [gmap nat bool] indexed by run (the variable a
      continuation and its clean-up share); mount, rename, unmount and the
      continuation of each image call as a step relation; [card_view] is
      what the image section shows (spinner, image, placeholder).
      Theorems: a stale or post-unmount continuation is dropped; the
      current one applies; a rename keeps the old image when the new call
      fails.
    - [ProgressBar.v]: [src/components/ProgressBar.tsx] on JavaScript
      numbers (rationals, the infinities, NaN).  Theorems: NaN exactly for
      a one-step bar at step 1, otherwise within [0, 100]; as the wizard
      renders it, 0, 50 and 100 percent.

    - [Selection.v]: the selection screens ([renderSelection], App.tsx
      77-104, called at 199-218) and [SelectionCard]'s click.  Theorems:
      exactly the chosen option is highlighted, exactly when the next
      button is enabled (which is [handleNext]'s guard); a click on any card
      stores the member it names and highlights that card alone; the
      [SelectionCard]s drawn (SelectionCard.tsx 10-26, with their class
      names) show each option once, no icon, and the highlighted class on
      exactly the chosen card.
    - [System.v]: the application composed: the wizard with its
      outstanding plan call, the exercise cards [renderResult] mounts (one
      per element of [exercises] of whatever value it renders, keyed by
      index), the cards already unmounted, and
      [world_step]: a wizard step followed by React's re-render
      ([rerender]), or the settlement of any card's image call.  Theorems:
      cards (hence image requests) exist only on the result screen and are
      those of the plan shown, in order; continuations of unmounted cards
      change nothing; the main scenario (start, three choices, generate, a
      plan answered) reaches the result screen with one mounted card per
      exercise; the failure scenario reaches the error screen and, by
      retry and generate, a new call with the same preferences; every card
      on screen shows the spinner exactly while its one request is
      outstanding and then the image or the placeholder for good; the
      settlement of one card's call touches neither the wizard nor the
      other cards (the spec's image-failure scenario).  [rerender] mounts
      cards only for a value that reads as a plan: the world stops where
      React's render would throw (ResultRender.v says when).

    - [Settlement.v]: the settlements of [System.v] with no user action.
      Theorems: every sequence of settlements is finite (stdpp's [sn],
      by a lexicographic measure: outstanding plan calls, then outstanding
      image requests); a world admits no settlement exactly when no call is
      outstanding, and some sequence of settlements reaches such a world.
    - [Render.v]: [App]'s render (App.tsx 58-226): the header, the progress
      bar's width string (ProgressBar.tsx 17), one section per step, the
      result screen with the exercise details of [ExerciseCard]
      (ExerciseCard.tsx 36-70), and the controls each section offers.
      Theorems: the drawn, enabled controls are exactly [ui_enabled], the
      action set the runs of [Wizard.v] and [System.v] use; in every
      reached state exactly one section is drawn, with the header and the
      progress widths "0%", "50%", "100%" where the spec puts them; the
      result screen shows the stored JSON value in its order (title,
      items, one details card per element of [exercises], badges 1..n),
      each card's details naming the exercise whose image it requests; a plan with no
      exercise, which the spec forbids, is accepted and shown as an empty
      workout ([empty_plan_accepted]); the typed result screen refines
      ResultRender.v's render wherever it is defined.
    - [Crash.v]: [App] has no error boundary: a throwing render unmounts
      the application.  [screen_step] extends [world_step] with that
      unmount and the settlements that follow it.  Theorems: the unmount
      happens exactly on a step into the result screen whose render throws;
      nothing brings the application back; from the start screen, any
      answer [generateWorkoutPlan] accepts and the screen cannot render
      (the text "{}", for one) unmounts it ([throwing_answer_unmounts]).

    ** Bounds, fuel, evaluation

    Every function is structurally recursive; no fuel is needed.  Numbers
    stay where the code keeps them: [step] is a [nat] and the invariant
    bounds it by 7; the progress bar's doubles are exact rationals (the
    clamp bounds the result whatever the rounding).  Finite spaces are
    checked by evaluation: the enums' strings ([vm_compute] on [NoDup]) and
    the prompt round trip (all 4 x 6 x 11 preference values).

    ** Status

    All four parts are modelled, each operation that changes state by a
    definition; the 36 claims of the manifest are the development's main
    theorems, and the remaining lemmas are the library they rest on.

    ** What is not modelled

    The CSS that class names select, the SVG icons and the layout (no
    behaviour; [SelectionCard]'s class strings are modelled, since they
    show which card is selected); the [Button] component, imported by
    [App.tsx] but absent from [src/] (a disabled button is taken not to
    fire); the network
    transport of the SDK (the service's answer is an argument, so the
    theorems hold for every answer); the JSON text syntax: [JSON.parse] is
    the platform's, not the repository's, so it stays the [JsonParse]
    interface and the theorems hold for every parser; the number to string
    conversion of fractional percentages (the wizard only shows 0, 50 and
    100).  JavaScript strings are Rocq strings holding the UTF-8 bytes of
    the literals; JSON numbers are integers (their truthiness, and
    their decimal text where the result screen draws one). *)

From stdpp Require Export base list strings option finite decidable sets relations.
From Stdlib Require Export Lia.

Declare Scope fit_scope.
Delimit Scope fit_scope with fit.
Open Scope string_scope.

(** ** JavaScript truthiness

    [if (x)] in the source tests the truthiness of [x]; the class gives one
    [truthy] per modelled type. *)
Class Truthy (A : Type) := truthy : A -> bool.
#[export] Hint Mode Truthy ! : typeclass_instances.

#[export] Instance string_truthy : Truthy string :=
  fun s => negb (String.eqb s "").
#[export] Instance option_truthy {A} `{Truthy A} : Truthy (option A) :=
  fun o => match o with Some x => truthy x | None => false end.
#[export] Instance bool_truthy : Truthy bool := fun b => b.

Lemma truthy_Some {A} `{Truthy A} (x : A) : truthy (Some x) = truthy x.
Proof. reflexivity. Qed.
Lemma truthy_None {A} `{Truthy A} : truthy (@None A) = false.
Proof. reflexivity. Qed.

Create HintDb fit discriminated.
Create Rewrite HintDb fit_rw.
#[export] Hint Rewrite @truthy_Some @truthy_None : fit_rw.

(** ** Tactics shared by the components *)
(** Unfold a record-updating handler and split on every [if] and [match] of
    its body. *)
Ltac split_handler :=
  repeat match goal with
  | |- context [match ?x with _ => _ end] => destruct x eqn:?
  | H : context [match ?x with _ => _ end] |- _ => destruct x eqn:?
  end; simplify_eq/=.

(** ** Generic lemmas *)

Section Invariants.
Context {S : Type} (R : relation S) (I : S -> Prop).

(** An invariant of each step is an invariant of every run. *)
Lemma rtc_invariant (Hstep : forall s s', I s -> R s s' -> I s') :
  forall s s', I s -> rtc R s s' -> I s'.
Proof. intros s s' Hs Hrtc. induction Hrtc; eauto. Qed.
End Invariants.

Lemma string_truthy_false s : truthy s = false <-> s = "".
Proof.
  unfold truthy, string_truthy. destruct (String.eqb_spec s ""); naive_solver.
Qed.

Lemma string_truthy_true s : truthy s = true <-> s <> "".
Proof.
  unfold truthy, string_truthy. destruct (String.eqb_spec s ""); naive_solver.
Qed.

Lemma append_nonempty_l (s t : string) : s <> "" -> (s ++ t)%string <> "".
Proof. destruct s; simpl; [done | discriminate]. Qed.

#[export] Hint Resolve append_nonempty_l : fit.

(** ** String-valued enumerations

    A TypeScript [enum] whose members are initialised with strings: the
    members in declaration order and the string each one holds.
    [Object.values(E)] is [enum_values], and reading a string back as a
    member is [enum_of_value]. *)
Class StringEnum (A : Type) := {
  enum_members : list A;
  enum_value : A -> string
}.
Arguments enum_members : clear implicits.
Arguments enum_members A {_}.

Definition enum_values (A : Type) `{StringEnum A} : list string :=
  map enum_value (enum_members A).

Definition enum_of_value {A} `{StringEnum A} (s : string) : option A :=
  find (fun x => String.eqb (enum_value x) s) (enum_members A).

(** A function is injective on the elements of a list whose image has no
    duplicates. *)
Lemma NoDup_map_inj_on {A B} (f : A -> B) (l : list A) x y :
  NoDup (map f l) -> x ∈ l -> y ∈ l -> f x = f y -> x = y.
Proof.
  induction l as [|z l IH]; intros Hnd Hx Hy Hxy; [set_solver|].
  inversion Hnd as [|? ? Hnot Hnd']; subst.
  apply elem_of_cons in Hx, Hy.
  destruct Hx as [->|Hx], Hy as [->|Hy]; [done| | |by apply IH].
  - exfalso. apply Hnot. rewrite Hxy. apply list_elem_of_fmap; eauto.
  - exfalso. apply Hnot. rewrite <-Hxy. apply list_elem_of_fmap; eauto.
Qed.

Section StringEnumLaws.
Context `{StringEnum A}.
(** The values are pairwise distinct and every member is listed. *)
Hypothesis values_NoDup : NoDup (enum_values A).
Hypothesis members_complete : forall x : A, x ∈ enum_members A.

Lemma enum_value_inj x y : enum_value x = enum_value y -> x = y.
Proof. apply (NoDup_map_inj_on _ (enum_members A)); auto. Qed.

Lemma enum_of_value_Some s x : enum_of_value s = Some x -> enum_value x = s.
Proof. unfold enum_of_value. intros Hf. apply find_some in Hf as [_ Heq]. by apply String.eqb_eq. Qed.

Lemma enum_of_value_value x : enum_of_value (enum_value x) = Some x.
Proof.
  unfold enum_of_value. destruct (find _ _) as [y|] eqn:Hf.
  - apply find_some in Hf as [_ Heq]. apply String.eqb_eq, enum_value_inj in Heq. by subst.
  - exfalso. eapply find_none in Hf; [|apply list_elem_of_In, members_complete].
    by rewrite String.eqb_refl in Hf.
Qed.

Lemma enum_of_value_None s : enum_of_value s = None <-> s ∉ enum_values A.
Proof.
  unfold enum_of_value, enum_values. split.
  - intros Hf Hin. apply list_elem_of_fmap in Hin as (x & -> & Hx).
    eapply find_none in Hf; [|apply list_elem_of_In; exact Hx].
    by rewrite String.eqb_refl in Hf.
  - intros Hnin. destruct (find _ _) as [y|] eqn:Hf; [|done].
    apply find_some in Hf as [Hy Heq]. apply String.eqb_eq in Heq. subst s.
    exfalso. apply Hnin, list_elem_of_fmap. exists y. split; [done|].
    by apply list_elem_of_In.
Qed.
End StringEnumLaws.

(** ** Results of code that throws

    A value of [result A E] is what an [async] function's promise settles
    with: [Ok] a value or [Err] the thrown error.  [x ←? c; k] runs [k] on
    the value and propagates the error, as [await] does in a [try] block
    without a handler. *)
Inductive result (A E : Type) := Ok (a : A) | Err (e : E).
Arguments Ok {A E} a.
Arguments Err {A E} e.

Definition result_bind {A B E} (c : result A E) (k : A -> result B E) : result B E :=
  match c with Ok a => k a | Err e => Err e end.

Notation "x ←? c ; k" := (result_bind c (fun x => k))
  (at level 20, c at level 100, right associativity) : fit_scope.

Lemma result_bind_Ok {A B E} (c : result A E) (k : A -> result B E) b :
  result_bind c k = Ok b <-> exists a, c = Ok a /\ k a = Ok b.
Proof. destruct c; simpl; naive_solver. Qed.

(** [String.prefix]-guarded removal of a prefix. *)
Fixpoint strip_prefix (pre s : string) : option string :=
  match pre, s with
  | EmptyString, _ => Some s
  | String a pre', String b s' => if Ascii.eqb a b then strip_prefix pre' s' else None
  | String _ _, EmptyString => None
  end.

Lemma strip_prefix_app pre s : strip_prefix pre (pre ++ s) = Some s.
Proof. induction pre; simpl; [done|]. by rewrite Ascii.eqb_refl. Qed.

Lemma string_length_app (s t : string) :
  String.length (s ++ t) = String.length s + String.length t.
Proof. induction s as [|c s IH]; [done|]. exact (f_equal S IH). Qed.

(** The string before a final [suf], found from the left: [Some ""] when
    the string is [suf] itself. *)
Fixpoint strip_suffix (suf s : string) : option string :=
  if String.eqb s suf then Some ""
  else match s with
       | EmptyString => None
       | String c s' => String c <$> strip_suffix suf s'
       end.

Lemma strip_suffix_app suf s : strip_suffix suf (s ++ suf) = Some s.
Proof.
  induction s as [|c s IH].
  - change ("" ++ suf) with suf. destruct suf as [|a t]; [done|].
    cbn -[String.eqb]. by rewrite String.eqb_refl.
  - change (String c s ++ suf) with (String c (s ++ suf)). cbn -[String.eqb].
    destruct (String.eqb_spec (String c (s ++ suf)) suf) as [Heq|_].
    + apply (f_equal String.length) in Heq. simpl in Heq.
      rewrite string_length_app in Heq. lia.
    + by rewrite IH.
Qed.

(** [list.filter(o => x === o)] on a list of strings: empty when [x] is
    absent, [[x]] when it occurs once. *)
Lemma filter_eqb_absent (x : string) l : x ∉ l -> List.filter (String.eqb x) l = [].
Proof.
  induction l as [|a l IH]; simpl; [done|]. intros [Hne Hn]%not_elem_of_cons.
  destruct (String.eqb_spec x a); [done|]. by apply IH.
Qed.

Lemma filter_eqb_NoDup (x : string) l : NoDup l -> x ∈ l -> List.filter (String.eqb x) l = [x].
Proof.
  induction 1 as [|a l Ha Hl IH]; [by intros ?%elem_of_nil|]. intros Hx. simpl.
  destruct (String.eqb_spec x a) as [->|Hne].
  - by rewrite filter_eqb_absent.
  - apply IH. apply elem_of_cons in Hx. naive_solver.
Qed.
