(* ===== verification/Types.v ===== *)
(** * The data model of [src/types.ts]

    The three string-valued enums with the strings the source gives their
    members (the UTF-8 bytes of the Portuguese labels), their
    [Object.values] lists, decidable equality and [Finite] instances; the
    numeric enum [AppStep] with its encoding as the number React stores;
    the records [UserPreferences], [Exercise] and [WorkoutPlan]. *)

From S2P Require Import Prelude.

(** ** [ExperienceLevel] (types.ts, lines 1-5) *)
Inductive ExperienceLevel := Iniciante | Intermediario | Avancado.

Definition ExperienceLevel_value (l : ExperienceLevel) : string :=
  match l with
  | Iniciante => "Iniciante"
  | Intermediario => "Intermediário"
  | Avancado => "Avançado"
  end.

#[export] Instance ExperienceLevel_enum : StringEnum ExperienceLevel := {|
  enum_members := [Iniciante; Intermediario; Avancado];
  enum_value := ExperienceLevel_value
|}.

(** ** [FitnessGoal] (types.ts, lines 7-13) *)
Inductive FitnessGoal :=
  Hipertrofia | PerdaGordura | Forca | Resistencia | Condicionamento.

Definition FitnessGoal_value (g : FitnessGoal) : string :=
  match g with
  | Hipertrofia => "Hipertrofia Muscular"
  | PerdaGordura => "Perda de Gordura"
  | Forca => "Ganho de Força"
  | Resistencia => "Resistência Muscular"
  | Condicionamento => "Condicionamento Físico"
  end.

#[export] Instance FitnessGoal_enum : StringEnum FitnessGoal := {|
  enum_members := [Hipertrofia; PerdaGordura; Forca; Resistencia; Condicionamento];
  enum_value := FitnessGoal_value
|}.

(** ** [MuscleGroup] (types.ts, lines 15-26) *)
Inductive MuscleGroup :=
  Peito | Costas | Pernas | Ombros | Biceps | Triceps | Abdomen
| FullBody | UpperBody | LowerBody.

Definition MuscleGroup_value (m : MuscleGroup) : string :=
  match m with
  | Peito => "Peito"
  | Costas => "Costas"
  | Pernas => "Pernas"
  | Ombros => "Ombros"
  | Biceps => "Bíceps"
  | Triceps => "Tríceps"
  | Abdomen => "Abdômen"
  | FullBody => "Corpo Completo (Full Body)"
  | UpperBody => "Membros Superiores"
  | LowerBody => "Membros Inferiores"
  end.

#[export] Instance MuscleGroup_enum : StringEnum MuscleGroup := {|
  enum_members := [Peito; Costas; Pernas; Ombros; Biceps; Triceps; Abdomen;
                   FullBody; UpperBody; LowerBody];
  enum_value := MuscleGroup_value
|}.

#[export] Instance ExperienceLevel_eq_dec : EqDecision ExperienceLevel.
Proof. solve_decision. Defined.
#[export] Instance FitnessGoal_eq_dec : EqDecision FitnessGoal.
Proof. solve_decision. Defined.
#[export] Instance MuscleGroup_eq_dec : EqDecision MuscleGroup.
Proof. solve_decision. Defined.

(** ** [UserPreferences] (types.ts, lines 28-32): [null] is [None]. *)
Record UserPreferences := {
  level : option ExperienceLevel;
  goal : option FitnessGoal;
  muscleGroup : option MuscleGroup
}.

(** ** [Exercise] (types.ts, lines 34-41) *)
Record Exercise := {
  name : string;
  sets : string;
  reps : string;
  rest : string;
  notes : string;
  imageUrl : option string
}.

(** ** [WorkoutPlan] (types.ts, lines 43-51) *)
Record WorkoutPlan := {
  title : string;
  description : string;
  estimatedDuration : string;
  frequencyRecommendation : string;
  warmup : list string;
  exercises : list Exercise;
  cooldown : list string
}.

(** ** [AppStep] (types.ts, lines 53-61): a numeric enum.  The wizard
    stores and compares the numbers, so the encoding is part of the model. *)
Inductive AppStep :=
  Intro | SelectLevel | SelectGoal | SelectMuscle | Loading | Result | Error.

Definition AppStep_to_nat (s : AppStep) : nat :=
  match s with
  | Intro => 0 | SelectLevel => 1 | SelectGoal => 2 | SelectMuscle => 3
  | Loading => 4 | Result => 5 | Error => 6
  end.

Definition AppStep_of_nat (n : nat) : option AppStep :=
  match n with
  | 0 => Some Intro | 1 => Some SelectLevel | 2 => Some SelectGoal
  | 3 => Some SelectMuscle | 4 => Some Loading | 5 => Some Result
  | 6 => Some Error | _ => None
  end.

#[export] Instance AppStep_eq_dec : EqDecision AppStep.
Proof. solve_decision. Defined.

Coercion AppStep_to_nat : AppStep >-> nat.

(** ** Theorems *)

(** Each member is listed by its enumeration, and [Object.values] has no
    repeated string, for the three enums; [decide] evaluates the check on
    the literal strings. *)
Lemma ExperienceLevel_listed (l : ExperienceLevel) : l ∈ enum_members ExperienceLevel.
Proof. destruct l; simpl; set_solver. Qed.
Lemma FitnessGoal_listed (g : FitnessGoal) : g ∈ enum_members FitnessGoal.
Proof. destruct g; simpl; set_solver. Qed.
Lemma MuscleGroup_listed (m : MuscleGroup) : m ∈ enum_members MuscleGroup.
Proof. destruct m; simpl; set_solver. Qed.

Lemma ExperienceLevel_values_NoDup : NoDup (enum_values ExperienceLevel).
Proof. apply (bool_decide_unpack _). vm_compute. reflexivity. Qed.
Lemma FitnessGoal_values_NoDup : NoDup (enum_values FitnessGoal).
Proof. apply (bool_decide_unpack _). vm_compute. reflexivity. Qed.
Lemma MuscleGroup_values_NoDup : NoDup (enum_values MuscleGroup).
Proof. apply (bool_decide_unpack _). vm_compute. reflexivity. Qed.

(** The selection screens list [Object.values] of each enum: every
    member's string appears exactly once, and the string a card carries
    reads back as the member it stands for, so a click on a card selects
    exactly one member and every member can be selected. *)
Theorem object_values_roundtrip :
  (NoDup (enum_values ExperienceLevel) /\
   forall l : ExperienceLevel, enum_of_value (ExperienceLevel_value l) = Some l) /\
  (NoDup (enum_values FitnessGoal) /\
   forall g : FitnessGoal, enum_of_value (FitnessGoal_value g) = Some g) /\
  (NoDup (enum_values MuscleGroup) /\
   forall m : MuscleGroup, enum_of_value (MuscleGroup_value m) = Some m).
Proof.
  split_and!.
  - apply ExperienceLevel_values_NoDup.
  - exact (enum_of_value_value ExperienceLevel_values_NoDup ExperienceLevel_listed).
  - apply FitnessGoal_values_NoDup.
  - exact (enum_of_value_value FitnessGoal_values_NoDup FitnessGoal_listed).
  - apply MuscleGroup_values_NoDup.
  - exact (enum_of_value_value MuscleGroup_values_NoDup MuscleGroup_listed).
Qed.

(** [AppStep]'s numbers name each step once, and the numbers 0-6 are
    exactly the steps. *)
Lemma AppStep_of_to_nat (s : AppStep) : AppStep_of_nat (AppStep_to_nat s) = Some s.
Proof. by destruct s. Qed.

Lemma AppStep_to_of_nat n s : AppStep_of_nat n = Some s -> AppStep_to_nat s = n.
Proof. destruct n as [|[|[|[|[|[|[|n]]]]]]]; simpl; intros; simplify_eq; done. Qed.
