(* ===== verification/Json.v ===== *)
(** * JavaScript values produced by [JSON.parse]

    Runtime support, not repository code: the values [JSON.parse] returns,
    property access on them ([undefined] is [None]), their truthiness, and
    the [JsonParse] interface, the one operation of the runtime the gateway
    relies on ([JSON.parse(text)], which throws a [SyntaxError] on text that
    is not JSON: [None]).  The gateway's theorems are proved against this
    interface, so they hold for every parser. *)

From S2P Require Import Prelude.
From Stdlib Require Import ZArith.

#[warnings="-register-all"]
Inductive json :=
| JNull
| JBool (b : bool)
| JNum (n : Z)
| JStr (s : string)
| JArr (xs : list json)
| JObj (kvs : list (string * json)).

(** [o[k]]: an object answers with the last binding of [k] (the one
    [JSON.parse] keeps when a key is repeated); other values have no
    own properties that the program reads. *)
Definition js_get (v : json) (k : string) : option json :=
  match v with
  | JObj kvs => snd <$> find (fun kv => String.eqb (fst kv) k) (rev kvs)
  | _ => None
  end.

#[export] Instance json_truthy : Truthy json :=
  fun v => match v with
  | JNull => false
  | JBool b => b
  | JNum n => negb (Z.eqb n 0)
  | JStr s => truthy s
  | JArr _ | JObj _ => true
  end.

(** [JSON.parse]: [None] when it throws. *)
Class JsonParse := json_parse : string -> option json.

(** Reading a value at a TypeScript type: a string, an array whose
    elements all read at a type. *)
Definition as_string (v : json) : option string :=
  match v with JStr s => Some s | _ => None end.

Definition as_array {A} (f : json -> option A) (v : json) : option (list A) :=
  match v with JArr xs => mapM f xs | _ => None end.

Lemma js_get_last kvs k v :
  js_get (JObj (kvs ++ [(k, v)])) k = Some v.
Proof. simpl. rewrite rev_app_distr. simpl. by rewrite String.eqb_refl. Qed.

Lemma as_array_map {A} (f : json -> option A) (g : A -> json) (xs : list A) :
  (forall x, f (g x) = Some x) -> as_array f (JArr (map g xs)) = Some xs.
Proof. intros Hfg. simpl. induction xs as [|x xs IH]; simpl; [done|]. by rewrite Hfg, IH. Qed.

(** The binding [o[k]] answers with is a binding of the object. *)
Lemma js_get_obj_Some kvs k w : js_get (JObj kvs) k = Some w -> In (k, w) kvs.
Proof.
  simpl. destruct (find _ (rev kvs)) as [[k1 w1]|] eqn:Hf; [|done]. intros [= <-].
  apply find_some in Hf as [Hin Hk]. apply String.eqb_eq in Hk. simpl in Hk. subst k1.
  by apply in_rev.
Qed.

(** A key bound in the object has a binding. *)
Lemma js_get_obj_is_Some kvs k w : In (k, w) kvs -> is_Some (js_get (JObj kvs) k).
Proof.
  intros Hin. simpl. destruct (find _ (rev kvs)) eqn:Hf; [done|].
  eapply find_none in Hf; [|apply (in_rev kvs) in Hin; exact Hin].
  by rewrite String.eqb_refl in Hf.
Qed.
