(* ===== verification/Schema.v ===== *)
(** * The response contract: [workoutSchema] and the typed reading of a plan

    [workoutSchema] (geminiService.ts, lines 6-51) as a value of the SDK's
    [Schema] type (the fields the source uses: [type], [description],
    [properties], [items], [required]); [conforms], what it means for a
    JSON value to satisfy a schema in the service's structured-output mode
    (every required key present, every key a declared property, every value
    conforming to its property's schema); [plan_of_json], the reading of a
    value at the TypeScript interface [WorkoutPlan] (types.ts, lines 34-51),
    and [plan_to_json], the JSON form of a typed plan.

    Theorems: the reading inverts the printing; a value that conforms to
    [workoutSchema] can be read as a [WorkoutPlan]; every typed plan without
    images conforms, the empty exercise list included. *)

From S2P Require Import Prelude Types Json.

(** ** The SDK's [Schema] *)
Inductive SType := STRING | NUMBER | INTEGER | BOOLEAN | ARRAY | OBJECT.

#[warnings="-register-all"]
Inductive Schema := mkSchema {
  stype : SType;
  sdescription : option string;
  sproperties : list (string * Schema);
  sitems : option Schema;
  srequired : list string
}.

Definition leaf (t : SType) (d : option string) : Schema := mkSchema t d [] None [].

(** The item schema of [exercises] (geminiService.ts, lines 32-42). *)
Definition exerciseSchema : Schema :=
  mkSchema OBJECT None [
    ("name", leaf STRING None);
    ("sets", leaf STRING (Some "Number of sets (e.g., '3-4')."));
    ("reps", leaf STRING (Some "Repetition range (e.g., '8-12' or 'Até a falha')."));
    ("rest", leaf STRING (Some "Rest time between sets (e.g., '60-90s')."));
    ("notes", leaf STRING (Some
       "Technique tip or intensity instruction (e.g., 'Focus on the eccentric phase')."))]
    None ["name"; "sets"; "reps"; "rest"; "notes"].

(** geminiService.ts, lines 6-51. *)
Definition workoutSchema : Schema :=
  mkSchema OBJECT None [
    ("title", leaf STRING (Some "A catchy title for the workout session."));
    ("description", leaf STRING (Some "A brief overview of the workout focus and intensity."));
    ("estimatedDuration", leaf STRING
       (Some "Estimated time to complete the workout (e.g., '45-60 min')."));
    ("frequencyRecommendation", leaf STRING
       (Some "How many times per week this specific workout should be done."));
    ("warmup", mkSchema ARRAY (Some "List of warm-up activities.") []
                 (Some (leaf STRING None)) []);
    ("exercises", mkSchema ARRAY None [] (Some exerciseSchema) []);
    ("cooldown", mkSchema ARRAY (Some "List of cool-down or stretching activities.") []
                   (Some (leaf STRING None)) [])]
  None
  ["title"; "description"; "estimatedDuration"; "frequencyRecommendation";
   "warmup"; "exercises"; "cooldown"].

(** ** Conformance of a value to a schema *)
Definition prop_schema (props : list (string * Schema)) (k : string) : option Schema :=
  snd <$> find (fun p => String.eqb (fst p) k) props.

Definition has_key (kvs : list (string * json)) (k : string) : bool :=
  existsb (fun kv => String.eqb (fst kv) k) kvs.

Fixpoint conforms (s : Schema) (v : json) {struct v} : bool :=
  match stype s, v with
  | STRING, JStr _ => true
  | NUMBER, JNum _ | INTEGER, JNum _ => true
  | BOOLEAN, JBool _ => true
  | ARRAY, JArr xs =>
      match sitems s with
      | Some it => forallb (conforms it) xs
      | None => true
      end
  | OBJECT, JObj kvs =>
      forallb (has_key kvs) (srequired s) &&
      forallb (fun kv => match prop_schema (sproperties s) (fst kv) with
                         | Some ps => conforms ps (snd kv)
                         | None => false
                         end) kvs
  | _, _ => false
  end.

(** ** The TypeScript interfaces read on JSON values *)

(** [Exercise] (types.ts, lines 34-41): five strings and an optional one. *)
Definition exercise_of_json (v : json) : option Exercise :=
  n ← js_get v "name" ≫= as_string;
  s ← js_get v "sets" ≫= as_string;
  r ← js_get v "reps" ≫= as_string;
  t ← js_get v "rest" ≫= as_string;
  o ← js_get v "notes" ≫= as_string;
  u ← match js_get v "imageUrl" with
      | None => Some None
      | Some w => Some <$> as_string w
      end;
  Some {| name := n; sets := s; reps := r; rest := t; notes := o; imageUrl := u |}.

(** [WorkoutPlan] (types.ts, lines 43-51). *)
Definition plan_of_json (v : json) : option WorkoutPlan :=
  t ← js_get v "title" ≫= as_string;
  d ← js_get v "description" ≫= as_string;
  e ← js_get v "estimatedDuration" ≫= as_string;
  f ← js_get v "frequencyRecommendation" ≫= as_string;
  w ← js_get v "warmup" ≫= as_array as_string;
  x ← js_get v "exercises" ≫= as_array exercise_of_json;
  c ← js_get v "cooldown" ≫= as_array as_string;
  Some {| title := t; description := d; estimatedDuration := e;
          frequencyRecommendation := f; warmup := w; exercises := x; cooldown := c |}.

Definition exercise_to_json (x : Exercise) : json :=
  JObj ([("name", JStr (name x)); ("sets", JStr (sets x)); ("reps", JStr (reps x));
         ("rest", JStr (rest x)); ("notes", JStr (notes x))] ++
        match imageUrl x with Some u => [("imageUrl", JStr u)] | None => [] end).

Definition plan_to_json (p : WorkoutPlan) : json :=
  JObj [("title", JStr (title p)); ("description", JStr (description p));
        ("estimatedDuration", JStr (estimatedDuration p));
        ("frequencyRecommendation", JStr (frequencyRecommendation p));
        ("warmup", JArr (map JStr (warmup p)));
        ("exercises", JArr (map exercise_to_json (exercises p)));
        ("cooldown", JArr (map JStr (cooldown p)))].

(** ** Lemmas on conformance *)

(** A value that reads as a plan is an object, hence truthy. *)
Lemma plan_of_json_truthy v p : plan_of_json v = Some p -> truthy v = true.
Proof. by destruct v. Qed.

Lemma exercise_of_to_json x : exercise_of_json (exercise_to_json x) = Some x.
Proof. destruct x as [n s r t o [u|]]; reflexivity. Qed.

(** Every binding of a conforming object conforms to its declared schema. *)
Lemma conforms_binding d props it req kvs k w :
  conforms (mkSchema OBJECT d props it req) (JObj kvs) = true -> In (k, w) kvs ->
  exists ps, prop_schema props k = Some ps /\ conforms ps w = true.
Proof.
  simpl. intros [_ Hkvs]%andb_prop Hin. rewrite forallb_forall in Hkvs.
  specialize (Hkvs _ Hin). simpl in Hkvs. destruct (prop_schema props k); [eauto|done].
Qed.

(** A required key of a conforming object is present, declared, and its
    value conforms to the declared schema. *)
Lemma conforms_required d props it req kvs k :
  conforms (mkSchema OBJECT d props it req) (JObj kvs) = true -> In k req ->
  exists w ps, js_get (JObj kvs) k = Some w /\ prop_schema props k = Some ps /\
               conforms ps w = true.
Proof.
  intros Hc Hk. pose proof Hc as Hc'. simpl in Hc'. apply andb_prop in Hc' as [Hreq _].
  rewrite forallb_forall in Hreq. specialize (Hreq k Hk).
  apply existsb_exists in Hreq as [[k0 w0] [Hin Hkey]].
  simpl in Hkey. apply String.eqb_eq in Hkey. subst k0.
  destruct (js_get_obj_is_Some _ _ _ Hin) as [w Hw].
  destruct (conforms_binding _ _ _ _ _ _ _ Hc (js_get_obj_Some _ _ _ Hw)) as (ps & ? & ?).
  eauto.
Qed.

(** A key that the schema does not declare is absent from a conforming
    object. *)
Lemma conforms_undeclared d props it req kvs k :
  conforms (mkSchema OBJECT d props it req) (JObj kvs) = true ->
  prop_schema props k = None -> js_get (JObj kvs) k = None.
Proof.
  intros Hc Hnone. destruct (js_get (JObj kvs) k) as [w|] eqn:Hw; [|done].
  destruct (conforms_binding _ _ _ _ _ _ _ Hc (js_get_obj_Some _ _ _ Hw)) as (ps & ? & _).
  congruence.
Qed.

Lemma conforms_string d w : conforms (leaf STRING d) w = true -> exists s, as_string w = Some s.
Proof. destruct w; simpl; try done. eauto. Qed.

(** Every element of an array conforms: the elements all read. *)
Lemma conforms_array_read {A} d it (f : json -> option A) (Q : A -> Prop) w :
  conforms (mkSchema ARRAY d [] (Some it) []) w = true ->
  (forall x, conforms it x = true -> exists y, f x = Some y /\ Q y) ->
  exists ys, as_array f w = Some ys /\ Forall Q ys.
Proof.
  destruct w as [| | | |xs|]; simpl; try done.
  induction xs as [|x xs IH]; simpl.
  - by exists [].
  - intros [Hx Hall]%andb_prop Hf. destruct (Hf x Hx) as (y & -> & Hy).
    destruct (IH Hall Hf) as (ys & -> & Hys). exists (y :: ys). split; [done|]. by constructor.
Qed.

(** Read the required string field [k] of a conforming object [Hc]. *)
Ltac read_string_field Hc k :=
  let w := fresh "w" in let ps := fresh "ps" in let Hw := fresh "Hw" in
  let Hps := fresh "Hps" in let Hcw := fresh "Hcw" in let s := fresh "s" in
  let Hs := fresh "Hs" in
  destruct (conforms_required _ _ _ _ _ k Hc ltac:(simpl; tauto))
    as (w & ps & Hw & Hps & Hcw);
  simpl in Hps; injection Hps as <-;
  destruct (conforms_string _ _ Hcw) as [s Hs]; rewrite Hw; cbn -[js_get]; rewrite Hs; cbn -[js_get].

Lemma conforms_exercise v :
  conforms exerciseSchema v = true ->
  exists x, exercise_of_json v = Some x /\ imageUrl x = None.
Proof.
  destruct v as [| | | | |kvs]; try done. intros Hc. unfold exercise_of_json.
  read_string_field Hc "name". read_string_field Hc "sets".
  read_string_field Hc "reps". read_string_field Hc "rest".
  read_string_field Hc "notes".
  rewrite (conforms_undeclared _ _ _ _ _ "imageUrl" Hc eq_refl). cbn. eauto.
Qed.

(** Read the required array field [k] of a conforming object [Hc] with
    the element reader [f]. *)
Ltac read_array_field Hc k f Q Hel :=
  let w := fresh "w" in let ps := fresh "ps" in let Hw := fresh "Hw" in
  let Hps := fresh "Hps" in let Hcw := fresh "Hcw" in let ys := fresh "ys" in
  let Hys := fresh "Hys" in let HQ := fresh "HQ" in
  destruct (conforms_required _ _ _ _ _ k Hc ltac:(simpl; tauto))
    as (w & ps & Hw & Hps & Hcw);
  simpl in Hps; injection Hps as <-;
  destruct (conforms_array_read _ _ f Q _ Hcw Hel) as (ys & Hys & HQ);
  rewrite Hw; cbn -[js_get as_array]; rewrite Hys; cbn -[js_get as_array].

Lemma conforms_string_any x : conforms (leaf STRING None) x = true ->
  exists y, as_string x = Some y /\ True.
Proof. intros [y Hy]%conforms_string. eauto. Qed.

(** ** Theorems *)

(** Reading the JSON form of a typed plan gives the plan back:
    [plan_of_json] inverts [plan_to_json] (decode after encode). *)
Theorem plan_of_json_to_json (p : WorkoutPlan) : plan_of_json (plan_to_json p) = Some p.
Proof.
  destruct p as [t d e f w x c]. unfold plan_of_json, plan_to_json. cbn -[as_array].
  rewrite (as_array_map _ _ w), (as_array_map _ _ c), (as_array_map _ _ x)
    by (done || apply exercise_of_to_json).
  reflexivity.
Qed.

(** C13: every value that conforms to [workoutSchema] reads as a
    [WorkoutPlan], and none of its exercises carries an [imageUrl] (the
    schema does not declare it). *)
Theorem conforms_workoutSchema_plan (v : json) :
  conforms workoutSchema v = true ->
  exists p, plan_of_json v = Some p /\ Forall (fun x => imageUrl x = None) (exercises p).
Proof.
  destruct v as [| | | | |kvs]; try done. intros Hc. unfold plan_of_json.
  read_string_field Hc "title". read_string_field Hc "description".
  read_string_field Hc "estimatedDuration". read_string_field Hc "frequencyRecommendation".
  read_array_field Hc "warmup" as_string (fun _ : string => True) conforms_string_any.
  read_array_field Hc "exercises" exercise_of_json (fun x => imageUrl x = None) conforms_exercise.
  read_array_field Hc "cooldown" as_string (fun _ : string => True) conforms_string_any.
  eauto.
Qed.

Lemma conforms_exercise_to_json x :
  conforms exerciseSchema (exercise_to_json x) = true <-> imageUrl x = None.
Proof. destruct x as [n s r t o [u|]]; simpl; split; congruence. Qed.

Lemma conforms_strings (xs : list string) :
  forallb (conforms (leaf STRING None)) (map JStr xs) = true.
Proof. induction xs; simpl; auto. Qed.

(** C14: the JSON form of a typed plan conforms to [workoutSchema] exactly
    when no exercise carries an [imageUrl]; in particular a plan with an
    empty exercise list, or with empty strings, conforms. *)
Theorem plan_to_json_conforms (p : WorkoutPlan) :
  conforms workoutSchema (plan_to_json p) = true <->
  Forall (fun x => imageUrl x = None) (exercises p).
Proof.
  destruct p as [t d e f w x c]. cbn -[conforms exercise_to_json exerciseSchema].
  simpl conforms. rewrite !conforms_strings, andb_true_r. simpl.
  rewrite forallb_forall, Forall_forall.
  setoid_rewrite in_map_iff. setoid_rewrite <-list_elem_of_In.
  split.
  - intros H y Hy. apply conforms_exercise_to_json, H. eauto.
  - intros H _ (y & <- & Hy). apply conforms_exercise_to_json, H, Hy.
Qed.

(** ** A plan for the beginner / hypertrophy / chest profile *)
Definition sample_exercise : Exercise := {|
  name := "Supino reto com halteres"; sets := "3-4"; reps := "8-12"; rest := "60-90s";
  notes := "Controle a fase excêntrica."; imageUrl := None |}.

Definition sample_plan : WorkoutPlan := {|
  title := "Peito para iniciantes"; description := "Volume moderado, técnica primeiro.";
  estimatedDuration := "45-60 min"; frequencyRecommendation := "2x por semana";
  warmup := ["5 min de esteira"]; exercises := [sample_exercise];
  cooldown := ["Alongamento de peitoral"] |}.

Lemma conforms_workoutSchema_plan_witness :
  conforms workoutSchema (plan_to_json sample_plan) = true /\
  exists p, plan_of_json (plan_to_json sample_plan) = Some p /\
            Forall (fun x => imageUrl x = None) (exercises p).
Proof. split; [reflexivity|]. apply conforms_workoutSchema_plan. reflexivity. Defined.
