(* ===== verification/ResultRender.v ===== *)
(** * The result screen on any value [JSON.parse] returns

    [generateWorkoutPlan] returns whatever [JSON.parse] accepts, unchecked
    (Gemini.v), and [renderResult] (App.tsx, lines 126-176) reads it as a
    [WorkoutPlan].  Render.v follows that render on the values that read as
    a plan; this file follows it on every value, with the JavaScript and
    React semantics of what the code does to it:

    - a property read [workout.title] on an object answers its binding or
      [undefined] ([js_get]); on a string, number, boolean or array it
      answers [undefined] (none of them has the properties the code reads);
      on [null] it throws a [TypeError];
    - [workout.warmup.map(...)] (lines 149, 155, 164) throws unless the
      property is an array: [undefined] and [null] cannot be read, any
      other value has no [map] function;
    - a value placed as a React child ([{workout.title}], [{w}],
      [{exercise.sets}]) draws its text when it is a string or a number,
      nothing when it is [null], [undefined] or a boolean, its elements when
      it is an array, and makes React throw when it is an object;
    - each [ExerciseCard] (ExerciseCard.tsx) reads [exercise.name] during
      its render (the effect's dependency list, line 34), so a [null]
      exercise throws, and draws the badge, name, sets, reps, rest and
      notes (lines 42-64) as children.

    A throw during render, with no error boundary in the tree, unmounts the
    whole application.  The outcome is a [result]: the text the screen
    draws, or the first error in render order (App's render, then its
    children in document order).

    The card list also gives the name each card's effect passes to
    [generateExerciseImage] ([String(exercise.name)], line 18), from which
    System.v mounts the cards.

    Theorems: on a value that reads as a plan the render draws the plan's
    text ([renderResult_js_plan]; Render.v proves the refinement of its
    typed render from it), and it throws exactly on the values that are
    truthy and do not have the shape the code assumes: three arrays, no
    object where a child is drawn, no [null] exercise. *)

From stdpp Require Import pretty.
From S2P Require Import Prelude Types Json Schema.
Open Scope fit_scope.

(** The errors a render of the result screen can throw. *)
Inductive RenderError :=
| ReadOfNull (property : string)       (** [TypeError: Cannot read properties of null] *)
| ReadOfUndefined (property : string)  (** [TypeError: Cannot read properties of undefined] *)
| NotAFunction (property : string)     (** [TypeError: workout.x.map is not a function] *)
| ObjectAsChild.                       (** [Objects are not valid as a React child] *)

(** The text a value draws as a React child. *)
Fixpoint child_text (v : json) : result (list string) RenderError :=
  match v with
  | JNull | JBool _ => Ok []
  | JNum n => Ok [pretty n]
  | JStr s => Ok [s]
  | JArr xs =>
      (fix go (xs : list json) : result (list string) RenderError :=
         match xs with
         | [] => Ok []
         | x :: xs => t ←? child_text x; ts ←? go xs; Ok (t ++ ts)%list
         end) xs
  | JObj _ => Err ObjectAsChild
  end.

(** [{o.k}] as a child: [undefined] draws nothing. *)
Definition prop_text (o : option json) : result (list string) RenderError :=
  match o with None => Ok [] | Some v => child_text v end.

(** [{xs.map((w, i) => <li key={i}>{w}</li>)}]: one item per element. *)
Fixpoint items_text (xs : list json) : result (list (list string)) RenderError :=
  match xs with
  | [] => Ok []
  | x :: xs => t ←? child_text x; ts ←? items_text xs; Ok (t :: ts)
  end.

(** [workout.field.map]: the elements of an array, or the [TypeError]. *)
Definition map_field (field : string) (o : option json) : result (list json) RenderError :=
  match o with
  | Some (JArr xs) => Ok xs
  | None => Err (ReadOfUndefined "map")
  | Some JNull => Err (ReadOfNull "map")
  | Some _ => Err (NotAFunction field)
  end.

(** [String(x)], as a template literal interpolates it: an array joins
    its elements with commas, [null] (and [undefined]) elements giving the
    empty string. *)
Fixpoint js_string (v : json) : string :=
  match v with
  | JNull => "null"
  | JBool b => if b then "true" else "false"
  | JNum n => pretty n
  | JStr s => s
  | JArr xs =>
      (fix join (xs : list json) : string :=
         match xs with
         | [] => ""
         | x :: xs =>
             (match x with JNull => "" | _ => js_string x end) ++
             (match xs with [] => "" | _ => "," ++ join xs end)
         end) xs
  | JObj _ => "[object Object]"
  end.

(** [String(o.k)]: [undefined] prints as such. *)
Definition prop_string (o : option json) : string :=
  match o with None => "undefined" | Some v => js_string v end.

(** What one [ExerciseCard] draws of its exercise (lines 42-64), and the
    name its effect passes to [generateExerciseImage] (line 18). *)
Record CardText := {
  ct_request : string;
  ct_badge : nat;
  ct_name : list string;
  ct_sets : list string;
  ct_reps : list string;
  ct_rest : list string;
  ct_notes : list string
}.

(** ExerciseCard.tsx, lines 10-70, on any value: [exercise.name] is read
    first (line 34), then the children are drawn. *)
Definition card_text (x : json) (index : nat) : result CardText RenderError :=
  match x with
  | JNull => Err (ReadOfNull "name")
  | _ =>
      n ←? prop_text (js_get x "name");
      s ←? prop_text (js_get x "sets");
      r ←? prop_text (js_get x "reps");
      t ←? prop_text (js_get x "rest");
      o ←? prop_text (js_get x "notes");
      Ok {| ct_request := prop_string (js_get x "name"); ct_badge := index + 1;
            ct_name := n; ct_sets := s; ct_reps := r; ct_rest := t; ct_notes := o |}
  end.

(** Lines 164-166: one card per element, [index={idx}]. *)
Fixpoint cards_text (idx : nat) (xs : list json) : result (list CardText) RenderError :=
  match xs with
  | [] => Ok []
  | x :: xs => c ←? card_text x idx; cs ←? cards_text (S idx) xs; Ok (c :: cs)
  end.

(** What the result screen draws. *)
Record ResultText := {
  rt_title : list string;
  rt_duration : list string;
  rt_frequency : list string;
  rt_description : list string;
  rt_warmup : list (list string);
  rt_cooldown : list (list string);
  rt_cards : list CardText
}.

(** App.tsx, lines 126-176: the [map] calls run while App renders, the
    children are drawn after it, in document order (the button of lines
    169-173 draws no value of [workout]). *)
Definition renderResult_js (v : json) : result (option ResultText) RenderError :=
  if negb (truthy v) then Ok None else
  w ←? map_field "warmup" (js_get v "warmup");
  c ←? map_field "cooldown" (js_get v "cooldown");
  e ←? map_field "exercises" (js_get v "exercises");
  t ←? prop_text (js_get v "title");
  d ←? prop_text (js_get v "estimatedDuration");
  f ←? prop_text (js_get v "frequencyRecommendation");
  ds ←? prop_text (js_get v "description");
  ws ←? items_text w;
  cs ←? items_text c;
  es ←? cards_text 0 e;
  Ok (Some {| rt_title := t; rt_duration := d; rt_frequency := f; rt_description := ds;
              rt_warmup := ws; rt_cooldown := cs; rt_cards := es |}).

(** Whether the result screen's tree is drawn, and with it the
    "Criar Novo Treino" button of lines 169-173: not for a falsy value
    (line 127 returns [null]), not when the render throws. *)
Definition result_drawn (v : json) : bool :=
  match renderResult_js v with Ok (Some _) => true | _ => false end.

(** ** What a typed plan draws

    A string child draws itself: the text of a [WorkoutPlan] and of its
    exercises, card [i] with the badge [i + 1]. *)
Definition exercise_text (x : Exercise) (index : nat) : CardText := {|
  ct_request := name x; ct_badge := index + 1; ct_name := [name x]; ct_sets := [sets x];
  ct_reps := [reps x]; ct_rest := [rest x]; ct_notes := [notes x] |}.

Definition plan_text (p : WorkoutPlan) : ResultText := {|
  rt_title := [title p]; rt_duration := [estimatedDuration p];
  rt_frequency := [frequencyRecommendation p]; rt_description := [description p];
  rt_warmup := (fun s => [s]) <$> warmup p; rt_cooldown := (fun s => [s]) <$> cooldown p;
  rt_cards := imap (fun i x => exercise_text x i) (exercises p) |}.

(** ** Lemmas: values read at a TypeScript type render as that type *)

Lemma prop_text_string o s : o ≫= as_string = Some s -> prop_text o = Ok [s].
Proof. destruct o as [[]|]; simpl; congruence. Qed.

Lemma prop_string_string o s : o ≫= as_string = Some s -> prop_string o = s.
Proof. destruct o as [[]|]; simpl; congruence. Qed.

Lemma items_text_strings xs ws :
  mapM as_string xs = Some ws -> items_text xs = Ok ((fun s => [s]) <$> ws).
Proof.
  intros H. apply mapM_Some_1 in H. induction H as [|x s xs ws Hx _ IH]; [done|].
  destruct x; try discriminate. injection Hx as ->. simpl. by rewrite IH.
Qed.

Lemma map_field_array {A} (f : json -> option A) o ys :
  o ≫= as_array f = Some ys ->
  exists xs, (forall field, map_field field o = Ok xs) /\ mapM f xs = Some ys.
Proof. destruct o as [[]|]; simpl; try discriminate. eauto. Qed.

Lemma card_text_exercise x e i :
  exercise_of_json x = Some e -> card_text x i = Ok (exercise_text e i).
Proof.
  destruct x; try discriminate. unfold exercise_of_json. intros H.
  repeat (apply bind_Some in H as (? & ? & H)).
  repeat match goal with Hs : _ ≫= as_string = Some _ |- _ =>
    let E := fresh "E" in pose proof (prop_string_string _ _ Hs) as E;
    apply prop_text_string in Hs end.
  injection H as <-. unfold card_text.
  repeat match goal with
  | Hs : prop_text _ = Ok _ |- _ => rewrite Hs; clear Hs
  | E : prop_string _ = _ |- _ => try rewrite E; clear E
  end.
  reflexivity.
Qed.

Lemma cards_text_exercises xs es i :
  mapM exercise_of_json xs = Some es ->
  cards_text i xs = Ok (imap (fun k e => exercise_text e (i + k)) es).
Proof.
  intros H. apply mapM_Some_1 in H. revert i.
  induction H as [|x e xs es Hx _ IH]; intros i; [done|]. simpl.
  rewrite (card_text_exercise x e i Hx), IH. simpl. rewrite Nat.add_0_r.
  do 2 f_equal. apply imap_ext. intros k y _. simpl. by rewrite Nat.add_succ_r.
Qed.

(** On a value that reads as a plan, the render draws the plan's text. *)
Lemma renderResult_js_plan v p :
  plan_of_json v = Some p -> renderResult_js v = Ok (Some (plan_text p)).
Proof.
  intros Hp. pose proof (plan_of_json_truthy v p Hp) as Ht.
  unfold plan_of_json in Hp. repeat (apply bind_Some in Hp as (? & ? & Hp)).
  injection Hp as <-. unfold renderResult_js. rewrite Ht. simpl.
  repeat match goal with
  | Hs : _ ≫= as_string = Some _ |- _ => apply prop_text_string in Hs; rewrite Hs; clear Hs
  | Ha : _ ≫= as_array _ = Some _ |- _ =>
      let Hm := fresh "Hm" in apply map_field_array in Ha as (? & Ha & Hm); rewrite Ha; clear Ha
  end.
  simpl. repeat match goal with
  | Hm : mapM as_string _ = Some _ |- _ => rewrite (items_text_strings _ _ Hm); clear Hm
  | Hm : mapM exercise_of_json _ = Some _ |- _ => rewrite (cards_text_exercises _ _ 0 Hm)
  end.
  reflexivity.
Qed.

Lemma result_drawn_plan v p : plan_of_json v = Some p -> result_drawn v = true.
Proof. intros Hp. unfold result_drawn. by rewrite (renderResult_js_plan v p Hp). Qed.

Lemma result_drawn_falsy v : truthy v = false -> result_drawn v = false.
Proof. intros Ht. unfold result_drawn, renderResult_js. by rewrite Ht. Qed.

(** ** The shape the code assumes *)

(** Values React can draw as a child: no object, also inside arrays. *)
#[warnings="-register-all"]
Inductive drawable : json -> Prop :=
| DNull : drawable JNull
| DBool b : drawable (JBool b)
| DNum n : drawable (JNum n)
| DStr s : drawable (JStr s)
| DArr xs : Forall drawable xs -> drawable (JArr xs).

Definition opt_drawable (o : option json) : Prop :=
  match o with None => True | Some v => drawable v end.

(** An element of [workout.exercises] an [ExerciseCard] can render. *)
Definition exercise_drawable (x : json) : Prop :=
  x <> JNull /\ Forall (fun k => opt_drawable (js_get x k)) ["name"; "sets"; "reps"; "rest"; "notes"].

(** A value the result screen renders without throwing. *)
Definition renderable (v : json) : Prop :=
  truthy v = true ->
  exists w c e, js_get v "warmup" = Some (JArr w) /\ js_get v "cooldown" = Some (JArr c) /\
    js_get v "exercises" = Some (JArr e) /\
    Forall (fun k => opt_drawable (js_get v k))
      ["title"; "estimatedDuration"; "frequencyRecommendation"; "description"] /\
    Forall drawable (w ++ c)%list /\ Forall exercise_drawable e.

Definition is_ok {A E} (r : result A E) : Prop := exists a, r = Ok a.

(** Induction on JSON values through the elements of arrays. *)
Lemma json_array_ind (P : json -> Prop) :
  P JNull -> (forall b, P (JBool b)) -> (forall n, P (JNum n)) -> (forall s, P (JStr s)) ->
  (forall xs, Forall P xs -> P (JArr xs)) -> (forall kvs, P (JObj kvs)) -> forall v, P v.
Proof.
  intros Hn Hb Hz Hs Ha Ho. fix IH 1.
  intros [| | | |xs|kvs]; [exact Hn|apply Hb|apply Hz|apply Hs| |apply Ho].
  apply Ha. revert xs. fix IHl 1. intros [|x xs]; constructor; [apply IH|apply IHl].
Qed.

Lemma is_ok_bind {A B E} (c : result A E) (k : A -> result B E) :
  is_ok (result_bind c k) <-> exists a, c = Ok a /\ is_ok (k a).
Proof. unfold is_ok. destruct c; simpl; naive_solver. Qed.

Lemma child_text_arr_cons x xs :
  child_text (JArr (x :: xs)) = (t ←? child_text x; ts ←? child_text (JArr xs); Ok (t ++ ts)%list).
Proof. reflexivity. Qed.

Lemma child_text_ok v : is_ok (child_text v) <-> drawable v.
Proof.
  induction v as [| | | |xs Hxs|kvs] using json_array_ind.
  1-4: split; [constructor|unfold is_ok; simpl; eauto].
  - induction Hxs as [|x xs Hx _ IH].
    + split; [constructor; constructor|unfold is_ok; simpl; eauto].
    + rewrite child_text_arr_cons, is_ok_bind. setoid_rewrite is_ok_bind.
      split.
      * intros (t & Ht & ts & Hts & _). constructor. constructor; [apply Hx; by exists t|].
        assert (drawable (JArr xs)) as Hd by (apply IH; by exists ts). by inversion Hd.
      * intros Hd. inversion Hd as [| | | |? Hf]; subst. inversion Hf; subst.
        destruct (proj2 Hx) as [t Ht]; [done|].
        destruct (proj2 IH) as [ts Hts]; [by constructor|].
        exists t. split; [done|]. exists ts. split; [done|]. by eexists.
  - split; [by intros [? ?]|inversion 1].
Qed.

Lemma prop_text_ok o : is_ok (prop_text o) <-> opt_drawable o.
Proof. destruct o; simpl; [apply child_text_ok|unfold is_ok; naive_solver]. Qed.

Lemma items_text_ok xs : is_ok (items_text xs) <-> Forall drawable xs.
Proof.
  induction xs as [|x xs IH]; simpl; [unfold is_ok; naive_solver|].
  rewrite is_ok_bind, Forall_cons, <- child_text_ok, <- IH. setoid_rewrite is_ok_bind.
  unfold is_ok. naive_solver.
Qed.

Lemma map_field_ok field o xs : map_field field o = Ok xs <-> o = Some (JArr xs).
Proof. destruct o as [[]|]; simpl; naive_solver. Qed.

Lemma card_text_ok x i : is_ok (card_text x i) <-> exercise_drawable x.
Proof.
  unfold exercise_drawable. rewrite !Forall_cons, <- !prop_text_ok.
  assert (x = JNull \/ x <> JNull) as [->|Hx] by (destruct x; [left|right..]; congruence).
  { unfold is_ok; simpl; naive_solver. }
  assert (card_text x i =
    (n ←? prop_text (js_get x "name"); s ←? prop_text (js_get x "sets");
     r ←? prop_text (js_get x "reps"); t ←? prop_text (js_get x "rest");
     o ←? prop_text (js_get x "notes");
     Ok {| ct_request := prop_string (js_get x "name"); ct_badge := i + 1;
           ct_name := n; ct_sets := s; ct_reps := r; ct_rest := t; ct_notes := o |}))
    as -> by (by destruct x).
  repeat setoid_rewrite is_ok_bind. unfold is_ok. naive_solver.
Qed.

Lemma cards_text_ok i xs : is_ok (cards_text i xs) <-> Forall exercise_drawable xs.
Proof.
  revert i. induction xs as [|x xs IH]; intros i; simpl; [unfold is_ok; naive_solver|].
  rewrite is_ok_bind, Forall_cons, <- (card_text_ok x i), <- (IH (S i)).
  setoid_rewrite is_ok_bind. unfold is_ok. naive_solver.
Qed.

Lemma renderResult_js_ok v : is_ok (renderResult_js v) <-> renderable v.
Proof.
  unfold renderResult_js, renderable. destruct (truthy v); simpl; [|unfold is_ok; naive_solver].
  repeat setoid_rewrite Forall_cons. setoid_rewrite Forall_nil. setoid_rewrite Forall_app.
  setoid_rewrite <- prop_text_ok. setoid_rewrite <- items_text_ok.
  setoid_rewrite <- (cards_text_ok 0).
  repeat setoid_rewrite is_ok_bind. setoid_rewrite map_field_ok.
  unfold is_ok. split; [naive_solver|].
  intros (w & c & e & Hw & Hc & He & ([? ?] & [? ?] & [? ?] & [? ?] & _) & ([? ?] & [? ?]) & [? ?]); [done|].
  naive_solver.
Qed.

(** ** Theorems *)

(** C20: the result screen throws during render (unmounting the whole
    application) exactly on the values that are truthy and lack the shape
    the code assumes: [warmup], [cooldown] and [exercises] arrays, no
    object drawn as a child (title, duration, frequency, description, the
    items, the exercises' name, sets, reps, rest and notes), no [null]
    exercise.  [generateWorkoutPlan] does not check that shape. *)
Theorem renderResult_js_throws v :
  (exists err, renderResult_js v = Err err) <-> ~ renderable v.
Proof.
  rewrite <- renderResult_js_ok. unfold is_ok.
  destruct (renderResult_js v); split; intros H; naive_solver.
Qed.

(** ** Concrete runs *)

(** An object without [warmup] throws at line 149. *)
Example missing_warmup_throws :
  renderResult_js (JObj [("title", JStr "Treino")]) = Err (ReadOfUndefined "map").
Proof. reflexivity. Qed.

(** An exercise whose [sets] is the number 3 does not read as a plan
    (Render.v leaves it), yet the screen renders, drawing "3". *)
Example numeric_sets_renders :
  let v := JObj [("warmup", JArr []); ("cooldown", JArr []);
                 ("exercises", JArr [JObj [("name", JStr "Remada"); ("sets", JNum 3)]])] in
  plan_of_json v = None /\
  exists t, renderResult_js v = Ok (Some t) /\ ct_sets <$> rt_cards t = [["3"]].
Proof. split; [reflexivity|]. eexists. split; [reflexivity|]. reflexivity. Qed.

(** A [null] exercise throws when its card renders. *)
Example null_exercise_throws :
  renderResult_js (JObj [("warmup", JArr []); ("cooldown", JArr []); ("exercises", JArr [JNull])])
  = Err (ReadOfNull "name").
Proof. reflexivity. Qed.

(** An exercise without a name renders an empty heading, and its card asks
    [generateExerciseImage] for the exercise "undefined". *)
Example nameless_exercise_requests_undefined :
  exists t, renderResult_js (JObj [("warmup", JArr []); ("cooldown", JArr []);
                                   ("exercises", JArr [JObj []])]) = Ok (Some t) /\
    ct_request <$> rt_cards t = ["undefined"] /\ ct_name <$> rt_cards t = [[]].
Proof. eexists. split; [reflexivity|]. split; reflexivity. Qed.
