(* ===== verification/Gemini.v ===== *)
(** * The generation gateway, [src/services/geminiService.ts]

    The two exported functions are [async]: each sends one request and then
    settles on what the service answered.  Each is modelled as the request
    it sends ([generateWorkoutPlan_request], [generateExerciseImage_request])
    and the function from the service's answer to the promise's outcome
    ([generateWorkoutPlan_settle], [generateExerciseImage_settle]).  The
    service's answer is itself a [result]: [Ok] a [GenerateContentResponse]
    or [Err] the message of the exception [generateContent] rejects with.

    Section [Gateway] assumes a [JsonParse] instance ([JSON.parse]); the
    theorems hold for every parser. *)

From S2P Require Import Prelude Types Json Schema.
Open Scope fit_scope.

(** ** The SDK's request and response shapes (the fields the code uses) *)
Record Blob := { data : option string; mimeType : option string }.
Record Part := { text : option string; thought : option bool; inlineData : option Blob }.
Record Content := { parts : option (list Part) }.
Record Candidate := { content : option Content }.
Record GenerateContentResponse := { candidates : option (list Candidate) }.

Record GenerateContentConfig := {
  responseMimeType : option string;
  responseSchema : option Schema;
  systemInstruction : option string;
  aspectRatio : option string
}.

Record GenerateContentParameters := {
  model : string;
  contents : string;
  config : GenerateContentConfig
}.

(** [response.candidates?.[0]?.content?.parts || []]
    (geminiService.ts, line 116). *)
Definition first_candidate_parts (r : GenerateContentResponse) : list Part :=
  match candidates r with
  | Some (c :: _) =>
      match content c with
      | Some ct => default [] (parts ct)
      | None => []
      end
  | _ => []
  end.

(** The SDK's [response.text] accessor: the text of the first candidate's
    parts that carry text and are not thoughts, concatenated; [undefined]
    when no part carries text. *)
Definition response_text (r : GenerateContentResponse) : option string :=
  let ts := omap (fun p => match thought p with
                           | Some true => None
                           | _ => text p
                           end) (first_candidate_parts r) in
  match ts with
  | [] => None
  | _ => Some (foldr String.append "" ts)
  end.

(** ** Strings of the requests *)
Definition nl : string := String (Ascii.ascii_of_nat 10) "".
Definition dq : string := String (Ascii.ascii_of_nat 34) "".

(** [${x}] in a template literal on a value that may be [null]. *)
Definition template {A} (show : A -> string) (o : option A) : string :=
  match o with Some x => show x | None => "null" end.

(** The prompt of geminiService.ts, lines 54-70. *)
Definition workout_prompt (prefs : UserPreferences) : string :=
  nl ++
  "    Crie um plano de treino de musculação completo e detalhado." ++ nl ++
  "    " ++ nl ++
  "    Perfil do Usuário:" ++ nl ++
  "    - Nível de Experiência: " ++ template ExperienceLevel_value (level prefs) ++ nl ++
  "    - Objetivo Principal: " ++ template FitnessGoal_value (goal prefs) ++ nl ++
  "    - Grupo Muscular do Dia: " ++ template MuscleGroup_value (muscleGroup prefs) ++ nl ++
  "    " ++ nl ++
  "    Diretrizes:" ++ nl ++
  "    1. O treino deve seguir princípios profissionais de educação física." ++ nl ++
  "    2. Priorize segurança e biomecânica correta, especialmente se for iniciante." ++ nl ++
  "    3. Para " ++ dq ++ "Hipertrofia" ++ dq ++ ", foque em volume e tensão mecânica." ++ nl ++
  "    4. Para " ++ dq ++ "Força" ++ dq ++ ", foque em cargas altas e repetições baixas." ++ nl ++
  "    5. Para " ++ dq ++ "Perda de Gordura" ++ dq ++
    ", sugira intensidade alta ou bi-sets se apropriado." ++ nl ++
  "    6. A linguagem deve ser motivadora, clara e em PORTUGUÊS (PT-BR)." ++ nl ++
  "    7. As " ++ dq ++ "notes" ++ dq ++
    " (observações) de cada exercício devem ser dicas práticas de execução." ++ nl ++
  "  ".

(** geminiService.ts, line 79. *)
Definition workout_system_instruction : string :=
  "Você é um personal trainer de elite mundial. Você cria treinos altamente eficazes, seguros e baseados em ciência. Responda sempre em JSON válido.".

(** The request of geminiService.ts, lines 73-81. *)
Definition generateWorkoutPlan_request (prefs : UserPreferences) : GenerateContentParameters := {|
  model := "gemini-3-flash-preview";
  contents := workout_prompt prefs;
  config := {| responseMimeType := Some "application/json";
               responseSchema := Some workoutSchema;
               systemInstruction := Some workout_system_instruction;
               aspectRatio := None |}
|}.

(** The prompt of geminiService.ts, lines 102-105. *)
Definition image_prompt (exerciseName : string) : string :=
  "Create a clean, professional, fitness illustration (technical drawing style or realistic 3D render) of a person performing the exercise: " ++
  dq ++ exerciseName ++ dq ++ ". " ++ nl ++
  "            The background must be plain white or very light gray. " ++ nl ++
  "            Focus on correct form and posture. " ++ nl ++
  "            Full body view.".

(** The request of geminiService.ts, lines 97-114. *)
Definition generateExerciseImage_request (exerciseName : string) : GenerateContentParameters := {|
  model := "gemini-2.5-flash-image";
  contents := image_prompt exerciseName;
  config := {| responseMimeType := None; responseSchema := None;
               systemInstruction := None; aspectRatio := Some "1:1" |}
|}.

(** ** Settlement *)

(** What [generateWorkoutPlan] throws: the service's rejection (rethrown by
    the [catch] after logging), the [Error] of line 85, or the
    [SyntaxError] of [JSON.parse]. *)
Inductive PlanError :=
| ServiceError (msg : string)
| NoResponseText
| JsonSyntaxError.

(** [`data:image/png;base64,${base64EncodeString}`] (line 119); an
    absent [data] field prints as [undefined]. *)
Definition data_uri (b : Blob) : string :=
  "data:image/png;base64," ++ match data b with Some s => s | None => "undefined" end.

(** The loop of lines 116-121: the first part with [inlineData]. *)
Fixpoint first_inline_image (ps : list Part) : option string :=
  match ps with
  | [] => None
  | p :: ps' =>
      match inlineData p with
      | Some b => Some (data_uri b)
      | None => first_inline_image ps'
      end
  end.

(** [generateExerciseImage] after its request (lines 115-126): a
    rejection is caught and gives [null]. *)
Definition generateExerciseImage_settle
    (answer : result GenerateContentResponse string) : option string :=
  match answer with
  | Err _ => None
  | Ok response => first_inline_image (first_candidate_parts response)
  end.

Section Gateway.
Context `{JsonParse}.

(** [generateWorkoutPlan] after its request (lines 83-92). *)
Definition generateWorkoutPlan_settle
    (answer : result GenerateContentResponse string) : result json PlanError :=
  response ←? (match answer with Ok r => Ok r | Err m => Err (ServiceError m) end);
  let txt := response_text response in
  if negb (truthy txt) then Err NoResponseText
  else match json_parse (default "" txt) with
       | Some v => Ok v
       | None => Err JsonSyntaxError
       end.
End Gateway.

(** ** Lemmas *)

(** The loop of lines 116-121 returns the URI of the first part that has
    [inlineData], and [null] when none has. *)
Lemma first_inline_image_Some ps u :
  first_inline_image ps = Some u <->
  exists ps1 p ps2 b, ps = (ps1 ++ p :: ps2)%list /\ Forall (fun q => inlineData q = None) ps1 /\
                      inlineData p = Some b /\ u = data_uri b.
Proof.
  induction ps as [|q ps IH]; simpl.
  - split; [done|]. intros ([|] & ? & ? & ? & ? & _); discriminate.
  - split.
    + destruct (inlineData q) as [b|] eqn:Hq.
      * intros [= <-]. exists [], q, ps, b. auto.
      * intros (ps1 & p & ps2 & b & Heq & Hnone & Hp & ->)%IH.
        exists (q :: ps1), p, ps2, b. rewrite Heq. auto.
    + intros ([|q' ps1] & p & ps2 & b & Heq & Hnone & Hp & ->);
        simpl in Heq; injection Heq as Hhd Htl; subst.
      * by rewrite Hp.
      * inversion Hnone as [|? ? Hq' Hnone']; subst. rewrite Hq'. apply IH. eauto 10.
Qed.

Lemma first_inline_image_None ps :
  first_inline_image ps = None <-> Forall (fun q => inlineData q = None) ps.
Proof.
  induction ps as [|q ps IH]; simpl; [split; auto|].
  rewrite Forall_cons, <-IH. destruct (inlineData q); naive_solver.
Qed.

(** ** Theorems *)

Section GatewayTheorems.
Context `{JsonParse}.

(** C10: [generateWorkoutPlan] settles with a value exactly when the
    service answered, the answer's text is a non-empty string, and
    [JSON.parse] accepts it (the value is the parsed one); otherwise it
    throws the service's error, the "no response text" error, or the
    parser's [SyntaxError], each in exactly the case the code checks. *)
Theorem generateWorkoutPlan_settle_cases answer :
  match generateWorkoutPlan_settle answer with
  | Ok v => exists r t, answer = Ok r /\ response_text r = Some t /\ t <> "" /\
                        json_parse t = Some v
  | Err (ServiceError m) => answer = Err m
  | Err NoResponseText =>
      exists r, answer = Ok r /\ (response_text r = None \/ response_text r = Some "")
  | Err JsonSyntaxError => exists r t, answer = Ok r /\ response_text r = Some t /\
                                       t <> "" /\ json_parse t = None
  end.
Proof.
  destruct answer as [r|m]; unfold generateWorkoutPlan_settle; simpl; [|done].
  destruct (response_text r) as [t|] eqn:Ht; autorewrite with fit_rw; simpl; [|eauto].
  destruct (truthy t) eqn:Htr; simpl.
  - apply string_truthy_true in Htr.
    destruct (json_parse t) eqn:Hp; eauto 10.
  - apply string_truthy_false in Htr. subst. eauto.
Qed.

(** C11: the gateway does not check the parsed value against the
    schema or the [WorkoutPlan] type: whatever non-empty text the service
    returns and [JSON.parse] accepts is the plan the caller receives,
    including values that are not plans at all ([null], a number). *)
Theorem generateWorkoutPlan_unvalidated r t v :
  response_text r = Some t -> t <> "" -> json_parse t = Some v ->
  generateWorkoutPlan_settle (Ok r) = Ok v.
Proof.
  intros Ht Hne Hp. unfold generateWorkoutPlan_settle. simpl. rewrite Ht, truthy_Some.
  assert (truthy t = true) as -> by by apply string_truthy_true.
  simpl. by rewrite Hp.
Qed.
End GatewayTheorems.

(** C12: [generateExerciseImage] never throws: it returns an image exactly
    when the service answered and some part of the first candidate has
    [inlineData], and the image is the [data:] URI of the first such part;
    in every other case, a rejected call included, it returns [null]. *)
Theorem generateExerciseImage_settle_spec answer u :
  generateExerciseImage_settle answer = Some u <->
  exists r ps1 p ps2 b, answer = Ok r /\ first_candidate_parts r = (ps1 ++ p :: ps2)%list /\
    Forall (fun q => inlineData q = None) ps1 /\ inlineData p = Some b /\ u = data_uri b.
Proof.
  destruct answer as [r|m]; simpl.
  - rewrite first_inline_image_Some. split.
    + intros (ps1 & p & ps2 & b & ?). eauto 10.
    + intros (r' & ps1 & p & ps2 & b & [= <-] & ?). eauto 10.
  - split; [done|]. intros (r' & _ & _ & _ & _ & ? & _). discriminate.
Qed.

(** The image URI carries the service's base64 payload unchanged
    after the fixed [data:image/png;base64,] prefix. *)
Theorem data_uri_payload b d :
  data b = Some d -> strip_prefix "data:image/png;base64," (data_uri b) = Some d.
Proof. intros Hd. unfold data_uri. rewrite Hd. apply strip_prefix_app. Qed.

(** A response whose first candidate has one text part (used to run the
    gateway on concrete answers). *)
Definition text_response (t : string) : GenerateContentResponse :=
  {| candidates := Some [{| content := Some {| parts := Some
       [{| text := Some t; thought := None; inlineData := None |}] |} |}] |}.

Lemma response_text_text_response t : response_text (text_response t) = Some t.
Proof.
  unfold response_text. simpl. f_equal.
  induction t as [|a t IH]; [done|]. change (String a (t +:+ "") = String a t). by rewrite IH.
Qed.

(** A parser that accepts the text [null] and nothing else (a stand-in
    for [JSON.parse] on that input). *)
Definition null_only_parser : JsonParse :=
  fun t => if String.eqb t "null" then Some JNull else None.

(** ** Witnesses *)

Lemma generateWorkoutPlan_unvalidated_witness :
  @generateWorkoutPlan_settle null_only_parser (Ok (text_response "null")) = Ok JNull /\
  plan_of_json JNull = None.
Proof.
  split; [|reflexivity].
  apply (@generateWorkoutPlan_unvalidated null_only_parser (text_response "null") "null").
  - apply response_text_text_response.
  - discriminate.
  - reflexivity.
Defined.

Lemma data_uri_payload_witness :
  strip_prefix "data:image/png;base64," (data_uri {| data := Some "iVBORw0KGgo="; mimeType := Some "image/png" |})
  = Some "iVBORw0KGgo=".
Proof. apply data_uri_payload. reflexivity. Defined.

(** A response whose first candidate has one inline image. *)
Definition image_response (d : string) : GenerateContentResponse :=
  {| candidates := Some [{| content := Some {| parts := Some
       [{| text := None; thought := None;
           inlineData := Some {| data := Some d; mimeType := Some "image/png" |} |}] |} |}] |}.

(** ** Reading the preferences back from the prompt *)

(** The text of a string up to its first newline, and the rest after it. *)
Fixpoint split_line (s : string) : string * option string :=
  match s with
  | EmptyString => ("", None)
  | String c s' =>
      if Ascii.eqb c (Ascii.ascii_of_nat 10) then ("", Some s')
      else let '(a, r) := split_line s' in (String c a, r)
  end.

(** A profile line's value: [null] or the string of a member. *)
Definition read_field {A} `{StringEnum A} (s : string) : option (option A) :=
  if String.eqb s "null" then Some None else Some <$> enum_of_value s.

(** The preferences a prompt states on its three profile lines. *)
Definition read_profile (s : string) : option UserPreferences :=
  r0 ← strip_prefix (nl ++ "    Crie um plano de treino de musculação completo e detalhado." ++
                     nl ++ "    " ++ nl ++ "    Perfil do Usuário:" ++ nl ++
                     "    - Nível de Experiência: ") s;
  let '(lv, r1) := split_line r0 in
  r1 ← r1;
  r2 ← strip_prefix "    - Objetivo Principal: " r1;
  let '(gv, r3) := split_line r2 in
  r3 ← r3;
  r4 ← strip_prefix "    - Grupo Muscular do Dia: " r3;
  let '(mv, _) := split_line r4 in
  l ← read_field lv; g ← read_field gv; m ← read_field mv;
  Some {| level := l; goal := g; muscleGroup := m |}.

(** C21: the request of [generateWorkoutPlan] carries the preferences
    without loss: for every preferences value, chosen or [null] field by
    field, the three profile lines of [workout_prompt] read back as exactly
    those preferences (no two options print alike, and a missing choice
    prints as [null], which no option prints as). *)
Theorem prompt_profile_roundtrip (p : UserPreferences) :
  read_profile (contents (generateWorkoutPlan_request p)) = Some p.
Proof. destruct p as [[[]|] [[]|] [[]|]]; vm_compute; reflexivity. Qed.

(** ** Reading the exercise back from the image prompt *)

(** The fixed text before and after the interpolated name of
    [image_prompt] (lines 102-105). *)
Definition image_prompt_prefix : string :=
  "Create a clean, professional, fitness illustration (technical drawing style or realistic 3D render) of a person performing the exercise: " ++ dq.

Definition image_prompt_suffix : string :=
  dq ++ ". " ++ nl ++
  "            The background must be plain white or very light gray. " ++ nl ++
  "            Focus on correct form and posture. " ++ nl ++
  "            Full body view.".

Lemma image_prompt_split name :
  image_prompt name = image_prompt_prefix ++ (name ++ image_prompt_suffix).
Proof. reflexivity. Qed.

(** The name an image prompt asks to draw. *)
Definition read_image_name (prompt : string) : option string :=
  strip_prefix image_prompt_prefix prompt ≫= strip_suffix image_prompt_suffix.

(** C36: the request of [generateExerciseImage] names its exercise without
    loss, for every name (quotes, newlines and the empty name included):
    the name is read back from the prompt, so two different exercises never
    send the same image request. *)
Theorem image_prompt_roundtrip name :
  read_image_name (contents (generateExerciseImage_request name)) = Some name /\
  forall name', contents (generateExerciseImage_request name') =
                contents (generateExerciseImage_request name) -> name' = name.
Proof.
  assert (forall n, read_image_name (contents (generateExerciseImage_request n)) = Some n)
    as Hread.
  { intros n. unfold read_image_name. simpl contents. rewrite image_prompt_split.
    rewrite strip_prefix_app. simpl. apply strip_suffix_app. }
  split; [apply Hread|]. intros name' Heq.
  pose proof (Hread name') as H'. rewrite Heq, Hread in H'. congruence.
Qed.
