(* ===== verification/Wizard.v ===== *)
(** * The wizard, [src/App.tsx]

    The component's React state ([useState] hooks of lines 15-22) is the
    record [AppState]; [step] is the number the code stores (an [AppStep]
    is a number, and [handleBack] computes [step - 1]).  Each handler is a
    function from the state to the new state (React applies the [setX]
    calls of one handler together) and, for [handleNext], the call of
    [generateWorkoutPlan] it starts: [generate] is [async], so its part up
    to the [await] runs in the click ([generate_start]) and the rest runs
    when the gateway's promise settles ([generate_settle]).

    [ui_enabled] is what the render function (lines 178-226) lets the user
    reach in a state.  [sys_step] runs the component against the gateway:
    a state plus the outstanding [generateWorkoutPlan] calls. *)

From S2P Require Import Prelude Types Json Schema ResultRender Gemini.
Open Scope fit_scope.

(** ** State *)

Record AppState := {
  step : nat;
  prefs : UserPreferences;
  workout : json;
  error : option string
}.

Definition emptyPreferences : UserPreferences :=
  {| level := None; goal := None; muscleGroup := None |}.

(** Lines 15-22. *)
Definition initial_state : AppState :=
  {| step := Intro; prefs := emptyPreferences; workout := JNull; error := None |}.

Definition set_step (n : nat) (st : AppState) : AppState :=
  {| step := n; prefs := prefs st; workout := workout st; error := error st |}.
Definition set_prefs (p : UserPreferences) (st : AppState) : AppState :=
  {| step := step st; prefs := p; workout := workout st; error := error st |}.
Definition set_workout (w : json) (st : AppState) : AppState :=
  {| step := step st; prefs := prefs st; workout := w; error := error st |}.
Definition set_error (e : option string) (st : AppState) : AppState :=
  {| step := step st; prefs := prefs st; workout := workout st; error := e |}.

(** An enum member is truthy when its string is: the members are all
    non-empty strings. *)
#[export] Instance ExperienceLevel_truthy : Truthy ExperienceLevel :=
  fun l => truthy (ExperienceLevel_value l).
#[export] Instance FitnessGoal_truthy : Truthy FitnessGoal :=
  fun g => truthy (FitnessGoal_value g).
#[export] Instance MuscleGroup_truthy : Truthy MuscleGroup :=
  fun m => truthy (MuscleGroup_value m).

(** ** Handlers *)

(** The message of line 51. *)
Definition generation_error_message : string :=
  "Falha ao gerar o treino. Por favor, tente novamente.".

(** [generate], lines 44-47 up to the [await]: the new state and the
    preferences [generateWorkoutPlan] is called with. *)
Definition generate_start (st : AppState) : AppState * option UserPreferences :=
  (set_error None (set_step Loading st), Some (prefs st)).

(** [generate], lines 48-53: the continuation once the promise settles. *)
Definition generate_settle (outcome : result json PlanError) (st : AppState) : AppState :=
  match outcome with
  | Ok result => set_step Result (set_workout result st)
  | Err _ => set_step Error (set_error (Some generation_error_message) st)
  end.

(** [handleNext], lines 24-31. *)
Definition handleNext (st : AppState) : AppState * option UserPreferences :=
  if Nat.eqb (step st) Intro then (set_step SelectLevel st, None)
  else if Nat.eqb (step st) SelectLevel && truthy (level (prefs st)) then
    (set_step SelectGoal st, None)
  else if Nat.eqb (step st) SelectGoal && truthy (goal (prefs st)) then
    (set_step SelectMuscle st, None)
  else if Nat.eqb (step st) SelectMuscle && truthy (muscleGroup (prefs st)) then
    generate_start st
  else (st, None).

(** [handleBack], lines 33-41. *)
Definition handleBack (st : AppState) : AppState :=
  if Nat.ltb Intro (step st) && Nat.leb (step st) SelectMuscle then
    set_step (step st - 1) st
  else if Nat.eqb (step st) Result then
    set_workout JNull (set_prefs emptyPreferences (set_step Intro st))
  else st.

(** The [onSelect] closures of lines 203, 210 and 217:
    [setPrefs(prev => ({ ...prev, field: val }))]. *)
Definition selectLevel (v : ExperienceLevel) (st : AppState) : AppState :=
  set_prefs {| level := Some v; goal := goal (prefs st);
               muscleGroup := muscleGroup (prefs st) |} st.
Definition selectGoal (v : FitnessGoal) (st : AppState) : AppState :=
  set_prefs {| level := level (prefs st); goal := Some v;
               muscleGroup := muscleGroup (prefs st) |} st.
Definition selectMuscleGroup (v : MuscleGroup) (st : AppState) : AppState :=
  set_prefs {| level := level (prefs st); goal := goal (prefs st);
               muscleGroup := Some v |} st.

(** The "Tentar Novamente" button of the error screen, line 122. *)
Definition retry (st : AppState) : AppState := set_step SelectMuscle st.

(** ** Events *)

(** What can happen to the component: a user action on one of its
    controls, or the settlement of the pending [generateWorkoutPlan]. *)
Inductive Event :=
| EvNext
| EvBack
| EvSelectLevel (v : ExperienceLevel)
| EvSelectGoal (v : FitnessGoal)
| EvSelectMuscle (v : MuscleGroup)
| EvRetry
| EvSettled (outcome : result json PlanError).

Definition dispatch (ev : Event) (st : AppState) : AppState * option UserPreferences :=
  match ev with
  | EvNext => handleNext st
  | EvBack => (handleBack st, None)
  | EvSelectLevel v => (selectLevel v st, None)
  | EvSelectGoal v => (selectGoal v st, None)
  | EvSelectMuscle v => (selectMuscleGroup v st, None)
  | EvRetry => (retry st, None)
  | EvSettled o => (generate_settle o st, None)
  end.

(** ** What the render function exposes *)

(** The controls the render function (lines 178-226) shows in a state:
    the start button of the intro screen (line 71); on a selection screen
    its cards (lines 87-94), the back button and the next button, disabled
    while nothing is selected (lines 98-101); nothing on the loading screen;
    the retry button of the error screen (line 122); on the result screen
    the "new plan" button (line 170), rendered only when the screen's tree
    is: not for a falsy [workout] (line 127), not when the render throws
    ([result_drawn], ResultRender.v).  A disabled button does not fire. *)
Definition ui_enabled (st : AppState) (ev : Event) : bool :=
  match ev with
  | EvNext =>
      Nat.eqb (step st) Intro ||
      (Nat.eqb (step st) SelectLevel && truthy (level (prefs st))) ||
      (Nat.eqb (step st) SelectGoal && truthy (goal (prefs st))) ||
      (Nat.eqb (step st) SelectMuscle && truthy (muscleGroup (prefs st)))
  | EvBack =>
      (Nat.ltb Intro (step st) && Nat.leb (step st) SelectMuscle) ||
      (Nat.eqb (step st) Result && result_drawn (workout st))
  | EvSelectLevel _ => Nat.eqb (step st) SelectLevel
  | EvSelectGoal _ => Nat.eqb (step st) SelectGoal
  | EvSelectMuscle _ => Nat.eqb (step st) SelectMuscle
  | EvRetry => Nat.eqb (step st) Error
  | EvSettled _ => false
  end.

(** What other code could call: the named handlers and the selection
    closures at any time, the retry closure only where it exists (the error
    screen); settlements are not calls. *)
Definition callable (st : AppState) (ev : Event) : bool :=
  match ev with
  | EvRetry => Nat.eqb (step st) Error
  | EvSettled _ => false
  | _ => true
  end.

(** ** The component against the gateway *)

Record Sys := {
  app : AppState;
  pending : list UserPreferences
}.

Definition sys_init : Sys := {| app := initial_state; pending := [] |}.

Section Runtime.
Context `{JsonParse}.
(** The actions that may occur in a state. *)
Variable allowed : AppState -> Event -> bool.

(** One step: an allowed action, whose [generateWorkoutPlan] call (if it
    starts one) joins the outstanding calls; or the settlement of any
    outstanding call, on any answer of the service. *)
Inductive sys_step : Sys -> Sys -> Prop :=
  | SysAct s ev st' req :
    allowed (app s) ev = true -> dispatch ev (app s) = (st', req) ->
    sys_step s {| app := st'; pending := pending s ++ option_list req |}
  | SysSettle s ps1 p ps2 answer :
    pending s = (ps1 ++ p :: ps2)%list ->
    sys_step s {| app := generate_settle (generateWorkoutPlan_settle answer) (app s);
                  pending := (ps1 ++ ps2)%list |}.

Definition reachable (s : Sys) : Prop := rtc sys_step sys_init s.
End Runtime.

(** ** The invariant of the wizard *)

Definition prefs_complete (p : UserPreferences) : Prop :=
  is_Some (level p) /\ is_Some (goal p) /\ is_Some (muscleGroup p).

(** What holds in every state the component reaches: [step] is one of
    the seven [AppStep] numbers; a [generateWorkoutPlan] call is
    outstanding exactly in the loading step, and only one, with complete
    preferences; each selection made before the current step is still
    there; no plan is kept outside the result step; the error step shows
    the error message. *)
Record wizard_inv (s : Sys) : Prop := {
  inv_range : step (app s) < 7;
  inv_loading : step (app s) = Loading -> exists p, pending s = [p] /\ prefs_complete p;
  inv_idle : step (app s) <> Loading -> pending s = [];
  inv_level : SelectGoal <= step (app s) -> is_Some (level (prefs (app s)));
  inv_goal : SelectMuscle <= step (app s) -> is_Some (goal (prefs (app s)));
  inv_muscle : Loading <= step (app s) -> is_Some (muscleGroup (prefs (app s)));
  inv_workout : step (app s) <> Result -> workout (app s) = JNull;
  inv_error : step (app s) = Error -> error (app s) = Some generation_error_message
}.

Lemma enum_truthy_ExperienceLevel (l : ExperienceLevel) : truthy l = true.
Proof. by destruct l. Qed.
Lemma enum_truthy_FitnessGoal (g : FitnessGoal) : truthy g = true.
Proof. by destruct g. Qed.
Lemma enum_truthy_MuscleGroup (m : MuscleGroup) : truthy m = true.
Proof. by destruct m. Qed.
#[export] Hint Rewrite enum_truthy_ExperienceLevel enum_truthy_FitnessGoal
  enum_truthy_MuscleGroup : fit_rw.

Lemma wizard_inv_init : wizard_inv sys_init.
Proof. split; simpl; try lia; auto. Qed.

(** Case analysis on the seven values of [step], the preferences and the
    events, closing the cases with the invariant's fields. *)
Ltac wizard_cases :=
  repeat match goal with
  | n : nat, H : ?n < 7 |- _ =>
      destruct n as [|[|[|[|[|[|[|n]]]]]]]; [..|lia]; simpl in *
  end.

(** ** The handlers on named steps

    The code compares and decrements numbers; these are the same handlers
    written on the named steps of [AppStep] (the transition table of the
    spec), proved equal below. *)

Definition step_name (st : AppState) : option AppStep := AppStep_of_nat (step st).

Definition handleNext_named (st : AppState) : AppState * option UserPreferences :=
  match step_name st with
  | Some Intro => (set_step SelectLevel st, None)
  | Some SelectLevel =>
      if is_Some_dec (level (prefs st)) then (set_step SelectGoal st, None) else (st, None)
  | Some SelectGoal =>
      if is_Some_dec (goal (prefs st)) then (set_step SelectMuscle st, None) else (st, None)
  | Some SelectMuscle =>
      if is_Some_dec (muscleGroup (prefs st)) then generate_start st else (st, None)
  | _ => (st, None)
  end.

Definition handleBack_named (st : AppState) : AppState :=
  match step_name st with
  | Some SelectLevel => set_step Intro st
  | Some SelectGoal => set_step SelectLevel st
  | Some SelectMuscle => set_step SelectGoal st
  | Some Result => set_workout JNull (set_prefs emptyPreferences (set_step Intro st))
  | _ => st
  end.

(** Split a state into its step number (seven values and the rest) and
    its preferences. *)
Ltac destruct_state st :=
  let n := fresh "n" in let l := fresh "l" in let g := fresh "g" in
  let m := fresh "m" in
  destruct st as [n [l g m] ? ?];
  destruct n as [|[|[|[|[|[|[|n]]]]]]]; destruct l, g, m.

(** C1: [handleNext], which compares step numbers, is the advance row of
    the transition table on named steps: Intro advances unconditionally,
    each selection step advances only when its choice is made, the
    muscle step starts the generation, and every other step (loading,
    result, error, or a number outside the enum) is left unchanged. *)
Theorem handleNext_named_eq (st : AppState) : handleNext st = handleNext_named st.
Proof.
  destruct_state st; unfold handleNext, handleNext_named, step_name; simpl;
    by autorewrite with fit_rw.
Qed.

(** C2: [handleBack], which tests [Intro < step <= SelectMuscle] and
    stores [step - 1], retreats exactly from the three selection steps to
    the previous one, resets preferences and plan from the result step to
    Intro, and leaves every other step unchanged. *)
Theorem handleBack_named_eq (st : AppState) : handleBack st = handleBack_named st.
Proof. destruct_state st; reflexivity. Qed.

(** The two equations as rewriting lemmas for the proofs below. *)
Lemma handleNext_by_name (st : AppState) : handleNext st = handleNext_named st.
Proof.
  destruct_state st; unfold handleNext, handleNext_named, step_name; simpl;
    by autorewrite with fit_rw.
Qed.

Lemma handleBack_by_name (st : AppState) : handleBack st = handleBack_named st.
Proof. destruct_state st; reflexivity. Qed.

Lemma step_name_Some (st : AppState) :
  step st < 7 -> exists s, step_name st = Some s /\ step st = AppStep_to_nat s.
Proof.
  unfold step_name. destruct (step st) as [|[|[|[|[|[|[|n]]]]]]]; intros; try lia; eauto.
Qed.

(** Close the fields of [wizard_inv] for a state computed by a handler,
    from the fields of the state before (hypotheses with a numeric
    premise on [step]). *)
Ltac close_inv :=
  split; simpl; intros; rewrite ?app_nil_r; try lia;
  first [ done | solve [eauto]
        | match goal with H : _ -> _ |- _ => apply H; lia end
        | match goal with H : step _ <> _ -> _ = [] |- _ => rewrite H by lia end;
          eexists; split; [done|]; repeat split; try solve [eauto];
          match goal with H : _ -> _ |- _ => apply H; lia end ].

Section Preservation.
Context `{JsonParse}.

Lemma wizard_inv_act s ev st' req :
  wizard_inv s -> callable (app s) ev = true -> dispatch ev (app s) = (st', req) ->
  wizard_inv {| app := st'; pending := pending s ++ option_list req |}.
Proof.
  destruct s as [st pend]. intros [Hr HL HI Hl Hg Hm Hw He] Hc Hd; simpl in *.
  destruct (step_name_Some st Hr) as (sn & Hsn & Hstep).
  destruct ev; simpl in Hc, Hd.
  - rewrite handleNext_by_name in Hd. unfold handleNext_named, generate_start in Hd.
    rewrite Hsn in Hd.
    destruct sn; repeat destruct is_Some_dec; injection Hd as <- <-; simpl in Hstep.
    all: close_inv.
  - rewrite handleBack_by_name in Hd. unfold handleBack_named in Hd. rewrite Hsn in Hd.
    destruct sn; injection Hd as <- <-; simpl in Hstep.
    all: close_inv.
  - injection Hd as <- <-. close_inv.
  - injection Hd as <- <-. close_inv.
  - injection Hd as <- <-. close_inv.
  - apply Nat.eqb_eq in Hc. injection Hd as <- <-. close_inv.
  - discriminate.
Qed.

Lemma wizard_inv_settle s ps1 p ps2 answer :
  wizard_inv s -> pending s = (ps1 ++ p :: ps2)%list ->
  wizard_inv {| app := generate_settle (generateWorkoutPlan_settle answer) (app s);
                pending := (ps1 ++ ps2)%list |}.
Proof.
  destruct s as [st pend]. intros [Hr HL HI Hl Hg Hm Hw He] Hpe; simpl in *.
  destruct (decide (step st = Loading)) as [HLd|HLd].
  - destruct (HL HLd) as (p' & -> & Hc).
    destruct ps1 as [|x [|y ps1]]; simpl in Hpe; simplify_eq. simpl in HLd.
    destruct (generateWorkoutPlan_settle answer); close_inv.
  - rewrite HI in Hpe by done. destruct ps1; discriminate.
Qed.

(** Every step an allowed action or a settlement can make preserves
    the invariant. *)
Lemma wizard_inv_step (allowed : AppState -> Event -> bool) s s' :
  (forall st ev, allowed st ev = true -> callable st ev = true) ->
  wizard_inv s -> sys_step allowed s s' -> wizard_inv s'.
Proof.
  intros Hal Hinv Hstep.
  inversion Hstep as [? ev ? ? Ha Hd | ? ? ? ? ? Hpe]; subst.
  - eapply wizard_inv_act; eauto.
  - eapply wizard_inv_settle; eauto.
Qed.
End Preservation.

Lemma ui_enabled_callable st ev : ui_enabled st ev = true -> callable st ev = true.
Proof. destruct ev; simpl; auto; discriminate. Qed.

(** ** Theorems on the runs of the component *)

Section Runs.
Context `{JsonParse}.

Lemma wizard_inv_reachable (allowed : AppState -> Event -> bool) s :
  (forall st ev, allowed st ev = true -> callable st ev = true) ->
  reachable allowed s -> wizard_inv s.
Proof.
  intros Hal Hr. eapply (rtc_invariant _ wizard_inv); [|apply wizard_inv_init|exact Hr].
  intros ???. by apply wizard_inv_step.
Qed.

(** C4: in every state reached from the initial one, by the user's
    actions or by any calls of the named handlers and the selection
    closures, the wizard invariant holds. *)
Theorem reachable_wizard_inv (allowed : AppState -> Event -> bool) s :
  (forall st ev, allowed st ev = true -> callable st ev = true) ->
  reachable allowed s -> wizard_inv s.
Proof. apply wizard_inv_reachable. Qed.

(** C3: only one action starts a [generateWorkoutPlan] call: "next" on
    the muscle step with a muscle group chosen; the call receives the
    preferences of the state.  No action in the loading step (nor in
    any other step) can start a second call. *)
Theorem dispatch_request ev st p :
  snd (dispatch ev st) = Some p <->
  ev = EvNext /\ step st = SelectMuscle /\ is_Some (muscleGroup (prefs st)) /\ p = prefs st.
Proof.
  destruct ev; simpl; try (split; [done|]; intros (? & _); discriminate).
  rewrite handleNext_by_name. unfold handleNext_named, step_name.
  destruct st as [n pr w e]; simpl.
  destruct n as [|[|[|[|[|[|[|n]]]]]]]; simpl; repeat destruct is_Some_dec; naive_solver.
Qed.
(** C7: when the pending call settles in the loading step, a value
    moves the wizard to the result step with that value as the plan; an
    error moves it to the error step with the fixed message and no plan
    kept (the code does not clear [workout] there: the invariant shows it
    is already [null]). *)
Theorem generate_settle_from_loading s answer :
  wizard_inv s -> step (app s) = Loading ->
  let st' := generate_settle (generateWorkoutPlan_settle answer) (app s) in
  match generateWorkoutPlan_settle answer with
  | Ok v => step st' = Result /\ workout st' = v /\ prefs st' = prefs (app s)
  | Err _ => step st' = Error /\ error st' = Some generation_error_message /\
             workout st' = JNull /\ prefs st' = prefs (app s)
  end.
Proof.
  intros Hinv HL. simpl. destruct (generateWorkoutPlan_settle answer); simpl; [done|].
  repeat split. apply (inv_workout _ Hinv). rewrite HL. done.
Qed.

(** C8: the wizard never deadlocks except on the result step: from every
    state the user can reach, some control is enabled or a pending call
    can settle, unless the wizard is on the result step and its screen is
    not drawn: a falsy [workout] (line 127 renders nothing) or a value
    whose render throws (React unmounts the application, Crash.v). *)
Theorem reachable_progress s :
  reachable ui_enabled s ->
  (exists s', sys_step ui_enabled s s') \/
  (step (app s) = Result /\ result_drawn (workout (app s)) = false).
Proof.
  intros Hr. pose proof (wizard_inv_reachable _ _ ui_enabled_callable Hr) as Hinv.
  destruct s as [st pend]. destruct (step_name_Some st (inv_range _ Hinv)) as (sn & _ & Hs).
  simpl in *. destruct sn; simpl in Hs.
  - left. eexists. eapply (SysAct _ _ EvNext); [|apply surjective_pairing]. simpl. by rewrite Hs.
  - left. eexists. eapply (SysAct _ _ (EvSelectLevel Iniciante)); [|apply surjective_pairing]. simpl. by rewrite Hs.
  - left. eexists. eapply (SysAct _ _ (EvSelectGoal Hipertrofia)); [|apply surjective_pairing]. simpl. by rewrite Hs.
  - left. eexists. eapply (SysAct _ _ (EvSelectMuscle Peito)); [|apply surjective_pairing]. simpl. by rewrite Hs.
  - left. destruct (inv_loading _ Hinv Hs) as (p & Hp & _). simpl in Hp.
    eexists. eapply (SysSettle _ _ [] p [] (Err "")). simpl. by rewrite Hp.
  - destruct (result_drawn (workout st)) eqn:Hw; [left|right; done].
    eexists. eapply (SysAct _ _ EvBack); [|apply surjective_pairing]. simpl. rewrite Hs, Hw. done.
  - left. eexists. eapply (SysAct _ _ EvRetry); [|apply surjective_pairing]. simpl. by rewrite Hs.
Qed.
End Runs.

Section DeadEnd.
Context `{JsonParse}.

(** The user's run to a result: start, choose each field, confirm. *)
Ltac user_act ev := eapply rtc_l; [eapply (SysAct _ _ ev); reflexivity|]; simpl.

(** C9: the user can reach a state with no way out: if the service
    answers the text [null] (valid JSON), the wizard stores [null] as the
    plan and shows the result step, whose screen renders nothing and
    offers no control, and no call is pending. *)
Theorem result_dead_end :
  json_parse "null" = Some JNull ->
  exists s, reachable ui_enabled s /\ step (app s) = Result /\ pending s = [] /\
            forall ev, ui_enabled (app s) ev = false.
Proof.
  intros Hnull. eexists. split; [|split; [|split]].
  - unfold reachable. user_act EvNext. user_act (EvSelectLevel Iniciante).
    user_act EvNext. user_act (EvSelectGoal Hipertrofia). user_act EvNext.
    user_act (EvSelectMuscle Peito). user_act EvNext.
    eapply rtc_l; [eapply (SysSettle _ _ [] _ [] (Ok (text_response "null"))); reflexivity|].
    apply rtc_refl.
  - unfold generateWorkoutPlan_settle, result_bind.
    rewrite response_text_text_response. simpl. by rewrite Hnull.
  - done.
  - unfold generateWorkoutPlan_settle, result_bind.
    rewrite response_text_text_response. simpl. rewrite Hnull. by intros [].
Qed.
End DeadEnd.

Lemma result_dead_end_witness :
  @json_parse null_only_parser "null" = Some JNull /\
  exists s, @reachable null_only_parser ui_enabled s /\ step (app s) = Result /\
            pending s = [] /\ forall ev, ui_enabled (app s) ev = false.
Proof. split; [reflexivity|]. apply (@result_dead_end null_only_parser). reflexivity. Defined.

(** A state of the loading step with its one pending call. *)
Definition full_prefs : UserPreferences :=
  {| level := Some Iniciante; goal := Some Hipertrofia; muscleGroup := Some Peito |}.

Definition loading_sys : Sys :=
  {| app := {| step := Loading; prefs := full_prefs; workout := JNull; error := None |};
     pending := [full_prefs] |}.

Lemma wizard_inv_loading_sys : wizard_inv loading_sys.
Proof.
  split; simpl; intros; try lia; try done.
  exists full_prefs. split; [done|]. unfold prefs_complete; simpl; eauto.
Qed.

Lemma reachable_wizard_inv_witness :
  @reachable null_only_parser ui_enabled sys_init /\ wizard_inv sys_init.
Proof.
  split; [apply rtc_refl|].
  apply (@reachable_wizard_inv null_only_parser ui_enabled); [apply ui_enabled_callable|].
  apply rtc_refl.
Defined.

Lemma generate_settle_from_loading_witness :
  wizard_inv loading_sys /\ step (app loading_sys) = Loading /\
  (let st' := generate_settle (@generateWorkoutPlan_settle null_only_parser (Err "timeout"))
                (app loading_sys) in
   step st' = Error /\ error st' = Some generation_error_message /\
   workout st' = JNull /\ prefs st' = prefs (app loading_sys)).
Proof.
  split; [apply wizard_inv_loading_sys|]. split; [reflexivity|].
  exact (@generate_settle_from_loading null_only_parser loading_sys (Err "timeout")
           wizard_inv_loading_sys eq_refl).
Defined.

Lemma reachable_progress_witness :
  (exists s', @sys_step null_only_parser ui_enabled sys_init s') \/
  (step (app sys_init) = Result /\ truthy (workout (app sys_init)) = false).
Proof. apply (@reachable_progress null_only_parser). apply rtc_refl. Defined.

(** ** Going back and forth *)

(** C30: on the selection steps, "back" followed by "next" returns to
    exactly the same state and starts no call: going back keeps every
    choice made, and the choice that guards the way forward again is
    still there (the spec's back-navigation scenario). *)
Theorem back_then_next (s : Sys) :
  wizard_inv s -> SelectLevel <= step (app s) <= SelectMuscle ->
  handleNext (handleBack (app s)) = (app s, None).
Proof.
  intros Hinv Hr. pose proof (inv_level _ Hinv) as Hl. pose proof (inv_goal _ Hinv) as Hg.
  destruct s as [st pend]; simpl in *. rewrite handleNext_by_name, handleBack_by_name.
  destruct st as [n pr w e]; simpl in *.
  destruct n as [|[|[|[|n]]]]; try lia; unfold handleBack_named, handleNext_named, step_name;
    simpl; repeat destruct is_Some_dec; naive_solver lia.
Qed.

(** The muscle step with a level and a goal chosen. *)
Definition muscle_sys : Sys :=
  {| app := {| step := SelectMuscle;
               prefs := {| level := Some Avancado; goal := Some Forca; muscleGroup := None |};
               workout := JNull; error := None |};
     pending := [] |}.

Lemma back_then_next_witness :
  wizard_inv muscle_sys /\ handleNext (handleBack (app muscle_sys)) = (app muscle_sys, None).
Proof.
  assert (wizard_inv muscle_sys) as Hinv.
  { split; simpl; intros; try lia; try done; eauto. }
  split; [exact Hinv|]. apply back_then_next; [exact Hinv|]. simpl. lia.
Defined.
