(* ===== verification/WizardSpec.v ===== *)
(** * The wizard's contract: the transition table on named steps

    The spec describes the wizard by a table (§4.1): named states, events,
    guards, targets and side effects.  [table_step] is that table as an
    inductive relation on an abstract state ([AbsState]: the named step,
    the preferences, the plan if any, the error message), labelled with the
    generation request an event issues.  [abs] reads a state of the code
    (whose step is a number) as an abstract state.

    The refinement theorem: every action the code can take from a state
    that satisfies [wizard_inv] (any callable handler, or the settlement
    of the pending call in the loading step) is a row of the table. *)

From S2P Require Import Prelude Types Json Schema Gemini Wizard.
Open Scope fit_scope.

Record AbsState := {
  a_step : AppStep;
  a_prefs : UserPreferences;
  a_plan : option json;
  a_error : option string
}.

Definition a_with (s : AppStep) (a : AbsState) : AbsState :=
  {| a_step := s; a_prefs := a_prefs a; a_plan := a_plan a; a_error := a_error a |}.
Definition a_with_prefs (p : UserPreferences) (a : AbsState) : AbsState :=
  {| a_step := a_step a; a_prefs := p; a_plan := a_plan a; a_error := a_error a |}.

(** [null] is no plan. *)
Definition plan_value (v : json) : option json :=
  match v with JNull => None | _ => Some v end.

Definition abs (st : AppState) : option AbsState :=
  match step_name st with
  | Some s => Some {| a_step := s; a_prefs := prefs st; a_plan := plan_value (workout st);
                      a_error := error st |}
  | None => None
  end.

(** The step a retreat goes back to. *)
Definition previous (s : AppStep) : option AppStep :=
  match s with
  | SelectLevel => Some Intro
  | SelectGoal => Some SelectLevel
  | SelectMuscle => Some SelectGoal
  | _ => None
  end.

(** Whether the advance guard of the current step holds. *)
Definition can_advance (a : AbsState) : Prop :=
  a_step a = Intro \/
  (a_step a = SelectLevel /\ is_Some (level (a_prefs a))) \/
  (a_step a = SelectGoal /\ is_Some (goal (a_prefs a))) \/
  (a_step a = SelectMuscle /\ is_Some (muscleGroup (a_prefs a))).

Inductive table_step : AbsState -> Event -> AbsState -> option UserPreferences -> Prop :=
| T_intro_advance a :
    a_step a = Intro -> table_step a EvNext (a_with SelectLevel a) None
| T_level_advance a :
    a_step a = SelectLevel -> is_Some (level (a_prefs a)) ->
    table_step a EvNext (a_with SelectGoal a) None
| T_goal_advance a :
    a_step a = SelectGoal -> is_Some (goal (a_prefs a)) ->
    table_step a EvNext (a_with SelectMuscle a) None
(** Entering Loading clears the error and issues exactly one request
    with the accumulated preferences. *)
| T_muscle_advance a :
    a_step a = SelectMuscle -> is_Some (muscleGroup (a_prefs a)) ->
    table_step a EvNext {| a_step := Loading; a_prefs := a_prefs a; a_plan := a_plan a;
                           a_error := None |} (Some (a_prefs a))
(** Advancing when the guard fails, and in Loading, Result or Error, is a
    no-op. *)
| T_advance_blocked a :
    ~ can_advance a -> table_step a EvNext a None
| T_retreat a s :
    previous (a_step a) = Some s -> table_step a EvBack (a_with s a) None
(** "New plan": back to Intro with preferences and plan cleared. *)
| T_new_plan a :
    a_step a = Result ->
    table_step a EvBack {| a_step := Intro; a_prefs := emptyPreferences; a_plan := None;
                           a_error := a_error a |} None
| T_retreat_blocked a :
    previous (a_step a) = None -> a_step a <> Result -> table_step a EvBack a None
| T_select_level a v :
    table_step a (EvSelectLevel v)
      (a_with_prefs {| level := Some v; goal := goal (a_prefs a);
                       muscleGroup := muscleGroup (a_prefs a) |} a) None
| T_select_goal a v :
    table_step a (EvSelectGoal v)
      (a_with_prefs {| level := level (a_prefs a); goal := Some v;
                       muscleGroup := muscleGroup (a_prefs a) |} a) None
| T_select_muscle a v :
    table_step a (EvSelectMuscle v)
      (a_with_prefs {| level := level (a_prefs a); goal := goal (a_prefs a);
                       muscleGroup := Some v |} a) None
| T_retry a :
    a_step a = Error -> table_step a EvRetry (a_with SelectMuscle a) None
(** Exit to Result stores the plan; exit to Error stores the message and
    keeps no plan. *)
| T_generation_succeeds a v :
    a_step a = Loading ->
    table_step a (EvSettled (Ok v))
      {| a_step := Result; a_prefs := a_prefs a; a_plan := plan_value v;
         a_error := a_error a |} None
| T_generation_fails a e :
    a_step a = Loading ->
    table_step a (EvSettled (Err e))
      {| a_step := Error; a_prefs := a_prefs a; a_plan := None;
         a_error := Some generation_error_message |} None.

(** The events the code can receive in a state: a callable handler, or
    the settlement of the pending call in the loading step. *)
Definition possible (st : AppState) (ev : Event) : Prop :=
  callable st ev = true \/ (step st = Loading /\ exists o, ev = EvSettled o).

Lemma abs_of_step_name st s :
  step_name st = Some s ->
  abs st = Some {| a_step := s; a_prefs := prefs st; a_plan := plan_value (workout st);
                   a_error := error st |}.
Proof. unfold abs. by intros ->. Qed.

(** Prove a [table_step] goal for a concrete abstract step: the matching
    row, its side conditions by computation, a blocked guard by case
    analysis. *)
Ltac try_row r :=
  solve [ eapply r; simpl;
          first [ done | (unfold can_advance; simpl; intros ?; naive_solver) ] ].
Ltac table_row :=
  first [ try_row T_intro_advance | try_row T_level_advance | try_row T_goal_advance
        | try_row T_muscle_advance | try_row T_retreat | try_row T_new_plan
        | try_row T_retreat_blocked | try_row T_retry | try_row T_advance_blocked ].

(** The abstract states before and after a computed handler, then the
    row of the table that relates them. *)
Ltac abs_row :=
  eexists _, _; split; [by apply abs_of_step_name|];
  split; [first [ unfold abs, step_name; simpl;
                  repeat match goal with
                  | H : step ?x = _ |- context [step ?x] => rewrite H
                  | H : workout ?x = _ |- context [workout ?x] => rewrite H
                  end;
                  reflexivity
                | by apply abs_of_step_name ]|];
  try table_row.

Section Refinement.
Context `{JsonParse}.

Lemma dispatch_table_step s ev st' req :
  wizard_inv s -> possible (app s) ev -> dispatch ev (app s) = (st', req) ->
  exists a a', abs (app s) = Some a /\ abs st' = Some a' /\ table_step a ev a' req.
Proof.
  destruct s as [st pend]. intros Hinv Hposs Hd. simpl in *.
  destruct (step_name_Some st (inv_range _ Hinv)) as (sn & Hsn & Hs).
  destruct ev; simpl in Hd.
  - rewrite handleNext_by_name in Hd. unfold handleNext_named, generate_start in Hd.
    rewrite Hsn in Hd.
    destruct sn; repeat destruct is_Some_dec; injection Hd as <- <-; abs_row.
  - rewrite handleBack_by_name in Hd. unfold handleBack_named in Hd. rewrite Hsn in Hd.
    destruct sn; injection Hd as <- <-; abs_row.
  - injection Hd as <- <-. abs_row. constructor.
  - injection Hd as <- <-. abs_row. constructor.
  - injection Hd as <- <-. abs_row. constructor.
  - injection Hd as <- <-. destruct Hposs as [Hc|[_ (o & ?)]]; [|discriminate].
    apply Nat.eqb_eq in Hc. rewrite Hc in Hs. destruct sn; try discriminate.
    abs_row.
  - injection Hd as <- <-. destruct Hposs as [Hc|[HL _]]; [discriminate|].
    rewrite HL in Hs. destruct sn; try discriminate.
    destruct outcome as [v|e].
    + abs_row. by constructor.
    + assert (workout st = JNull) as Hw
        by (apply (inv_workout _ Hinv); simpl; rewrite HL; done).
      abs_row. by constructor.
Qed.

(** C5: the code refines the spec's transition table: from every state
    that satisfies the wizard invariant, each action the code can take
    (any callable handler, or the settlement of the pending call in the
    loading step) moves the abstract state along a row of the table and
    issues exactly the request that row issues. *)
Theorem code_refines_table s ev st' req :
  wizard_inv s -> possible (app s) ev -> dispatch ev (app s) = (st', req) ->
  exists a a', abs (app s) = Some a /\ abs st' = Some a' /\ table_step a ev a' req.
Proof. apply dispatch_table_step. Qed.

(** The runs of the table from the initial abstract state. *)
Definition table_reachable (a : AbsState) : Prop :=
  rtc (fun a a' => exists ev req, table_step a ev a' req)
      {| a_step := Intro; a_prefs := emptyPreferences; a_plan := None; a_error := None |} a.

(** C6: every state the component reaches, by the user's actions or by
    calls of its handlers interleaved with settlements, reads as a state
    the spec's table reaches. *)
Theorem reachable_refines_table (allowed : AppState -> Event -> bool) s :
  (forall st ev, allowed st ev = true -> callable st ev = true) ->
  reachable allowed s -> exists a, abs (app s) = Some a /\ table_reachable a.
Proof.
  intros Hal Hr. unfold reachable in Hr. revert s Hr.
  apply (rtc_ind_r (fun s => exists a, abs (app s) = Some a /\ table_reachable a)).
  - eexists. split; [reflexivity|]. apply rtc_refl.
  - intros s2 s3 Hr12 Hstep (a & Ha & Hra).
    assert (wizard_inv s2) as Hinv2 by (eapply wizard_inv_reachable; eauto).
    inversion Hstep as [? ev st' req Hallow Hd | ? ps1 p ps2 answer Hpe]; subst.
    + destruct (dispatch_table_step _ _ _ _ Hinv2 (or_introl (Hal _ _ Hallow)) Hd)
        as (a1 & a' & Ha1 & Ha' & Ht).
      rewrite Ha in Ha1. injection Ha1 as <-.
      exists a'. split; [done|]. eapply rtc_r; eauto.
    + assert (step (app s2) = Loading) as HL.
      { destruct (decide (step (app s2) = Loading)) as [|Hn]; [done|].
        rewrite (inv_idle _ Hinv2 Hn) in Hpe. destruct ps1; discriminate. }
      destruct (dispatch_table_step s2 (EvSettled (generateWorkoutPlan_settle answer)) _ None
                  Hinv2 (or_intror (conj HL (ex_intro _ _ eq_refl))) eq_refl)
        as (a1 & a' & Ha1 & Ha' & Ht).
      rewrite Ha in Ha1. injection Ha1 as <-.
      exists a'. split; [done|]. eapply rtc_r; eauto.
Qed.
End Refinement.

Lemma code_refines_table_witness :
  wizard_inv loading_sys /\ possible (app loading_sys) (EvSettled (Err NoResponseText)) /\
  exists a a', abs (app loading_sys) = Some a /\
               abs (generate_settle (Err NoResponseText) (app loading_sys)) = Some a' /\
               table_step a (EvSettled (Err NoResponseText)) a' None.
Proof.
  split; [apply wizard_inv_loading_sys|]. split; [right; split; [reflexivity|eauto]|].
  exact (code_refines_table loading_sys (EvSettled (Err NoResponseText)) _ None
           wizard_inv_loading_sys (or_intror (conj eq_refl (ex_intro _ _ eq_refl))) eq_refl).
Defined.

Lemma reachable_refines_table_witness :
  exists a, abs (app sys_init) = Some a /\ table_reachable a.
Proof.
  apply (@reachable_refines_table null_only_parser ui_enabled sys_init ui_enabled_callable).
  apply rtc_refl.
Defined.
