(* ===== verification/ExerciseCard.v ===== *)
(** * The image loading of [src/components/ExerciseCard.tsx]

    The card keeps two pieces of React state, [imageUrl] and [loading]
    (lines 11-12), and runs an effect (lines 14-34) whenever
    [exercise.name] changes: each run allocates its own [isMounted]
    variable, starts [generateExerciseImage], and returns a clean-up that
    sets that variable to [false].  The continuation of the call (lines
    17-26) reads the variable of the run that started it.

    The model keeps those variables as a store indexed by effect run
    ([flags : gmap nat bool]): a run's continuation and its clean-up share
    the run's entry, and a new run gets a fresh entry, so a continuation of
    an old run cannot see the new run's flag.  [requests] are the
    outstanding image calls, each with the run that issued it.
    [card_view] is the image section the card draws (lines 71-90). *)

From S2P Require Import Prelude Json Gemini.
From stdpp Require Import gmap.
Open Scope fit_scope.

Record CardState := {
  card_name : string;
  card_image : option string;
  card_loading : bool;
  card_alive : bool
}.

Record Card := {
  state : CardState;
  flags : gmap nat bool;
  current : nat;
  next_run : nat;
  requests : list (nat * string)
}.

(** The effect body, lines 15-29: a fresh [isMounted = true] for run
    [next_run], and the call [generateExerciseImage(exercise.name)]. *)
Definition run_effect (c : Card) : Card := {|
  state := state c;
  flags := <[next_run c := true]> (flags c);
  current := next_run c;
  next_run := S (next_run c);
  requests := requests c ++ [(next_run c, card_name (state c))]
|}.

(** The clean-up, lines 31-33: [isMounted = false] for the current run. *)
Definition cleanup (c : Card) : Card := {|
  state := state c;
  flags := <[current c := false]> (flags c);
  current := current c;
  next_run := next_run c;
  requests := requests c
|}.

(** Mounting: the initial state of lines 11-12, then the effect. *)
Definition mount (name : string) : Card :=
  run_effect {| state := {| card_name := name; card_image := None; card_loading := true;
                            card_alive := true |};
                flags := ∅; current := 0; next_run := 0; requests := [] |}.

Definition set_state (s : CardState) (c : Card) : Card :=
  {| state := s; flags := flags c; current := current c; next_run := next_run c;
     requests := requests c |}.

(** A new [exercise.name]: the dependency of line 34 changed, so React runs
    the clean-up of the current run and then the effect again.  The state
    hooks are not reset. *)
Definition rename (name : string) (c : Card) : Card :=
  if String.eqb name (card_name (state c)) then c
  else let c' := cleanup c in
       run_effect (set_state {| card_name := name; card_image := card_image (state c');
                                card_loading := card_loading (state c');
                                card_alive := card_alive (state c') |} c').

(** Unmounting runs the clean-up of the current run. *)
Definition unmount (c : Card) : Card :=
  let c' := cleanup c in
  set_state {| card_name := card_name (state c'); card_image := card_image (state c');
               card_loading := card_loading (state c'); card_alive := false |} c'.

(** The continuation of run [n] when [generateExerciseImage] returned
    [url], lines 19-25: [if (isMounted && url) setImageUrl(url)], then
    [finally { if (isMounted) setLoading(false) }]; the request leaves the
    outstanding list. *)
Definition resolve (n : nat) (url : option string) (c : Card) : Card :=
  let isMounted := default false (flags c !! n) in
  let s := state c in
  {| state := {| card_name := card_name s;
                 card_image := if isMounted && truthy url then url else card_image s;
                 card_loading := if isMounted then false else card_loading s;
                 card_alive := card_alive s |};
     flags := flags c;
     current := current c;
     next_run := next_run c;
     requests := filter (fun r => fst r <> n) (requests c) |}.

(** ** Runs *)

Inductive card_event :=
| CardRename (name : string)
| CardUnmount
| CardResolve (n : nat) (answer : result GenerateContentResponse string).

Inductive card_step : Card -> Card -> Prop :=
| CS_rename c name : card_alive (state c) = true -> card_step c (rename name c)
| CS_unmount c : card_alive (state c) = true -> card_step c (unmount c)
| CS_resolve c n name answer :
    In (n, name) (requests c) ->
    card_step c (resolve n (generateExerciseImage_settle answer) c).

Definition card_reachable (name : string) (c : Card) : Prop := rtc card_step (mount name) c.

(** ** The invariant of the flag store *)

(** Every run has an entry below [next_run]; the current run's flag is
    [true] exactly while the card is mounted; no other run's flag is
    [true]. *)
Record card_inv (c : Card) : Prop := {
  ci_bound : forall n b, flags c !! n = Some b -> n < next_run c;
  ci_current_lt : current c < next_run c;
  ci_current : flags c !! current c = Some (card_alive (state c));
  ci_others : forall n, n <> current c -> flags c !! n <> Some true
}.

(** A run of the effect on a store where every run is switched off
    (nothing mounted yet, or just cleaned up) establishes the invariant. *)
Lemma card_inv_run_effect c :
  (forall n b, flags c !! n = Some b -> n < next_run c) ->
  (forall n, flags c !! n <> Some true) -> card_alive (state c) = true ->
  card_inv (run_effect c).
Proof.
  intros Hb Hoff Halive. split; simpl.
  - intros n b. rewrite lookup_insert. case_decide; [lia|]. intros ?%Hb. lia.
  - lia.
  - rewrite lookup_insert_eq. by rewrite Halive.
  - intros n Hn. rewrite lookup_insert_ne by done. apply Hoff.
Qed.

Lemma card_inv_mount name : card_inv (mount name).
Proof.
  apply card_inv_run_effect; simpl; [|done|done].
  intros n b. by rewrite lookup_empty.
Qed.

(** The clean-up switches every run off and keeps the bound. *)
Lemma cleanup_all_off c n : card_inv c -> flags (cleanup c) !! n <> Some true.
Proof.
  intros [_ _ _ Hoth]. simpl. rewrite lookup_insert.
  case_decide; [congruence|]. by apply Hoth.
Qed.

Lemma cleanup_bound c n b :
  card_inv c -> flags (cleanup c) !! n = Some b -> n < next_run (cleanup c).
Proof.
  intros [Hb Hlt _ _]. simpl. rewrite lookup_insert. case_decide; [lia|]. apply Hb.
Qed.

Lemma card_inv_step c c' : card_inv c -> card_step c c' -> card_inv c'.
Proof.
  intros Hinv Hstep. destruct Hstep as [c name Halive | c Halive | c n name answer Hin].
  - unfold rename. destruct (String.eqb name (card_name (state c))); [done|].
    apply card_inv_run_effect; simpl; [|intros n; exact (cleanup_all_off c n Hinv)|done].
    intros n b. exact (cleanup_bound c n b Hinv).
  - pose proof (cleanup_bound c) as Hb'. pose proof (cleanup_all_off c) as Hoff.
    destruct Hinv as [Hb Hlt Hcur Hoth]. split; simpl.
    + intros n b. apply Hb'. by split.
    + done.
    + by rewrite lookup_insert_eq.
    + intros n _. apply Hoff. by split.
  - destruct Hinv as [Hb Hlt Hcur Hoth]. by split.
Qed.

Lemma card_inv_reachable name c : card_reachable name c -> card_inv c.
Proof.
  intros Hr. eapply (rtc_invariant _ card_inv); [|apply card_inv_mount|exact Hr].
  intros ???. by apply card_inv_step.
Qed.

(** The continuation of a run whose flag is off (not the current run, or
    any run of an unmounted card) leaves the card's state unchanged. *)
Lemma resolve_inactive c n url :
  card_inv c -> n <> current c \/ card_alive (state c) = false ->
  state (resolve n url c) = state c.
Proof.
  intros [_ _ Hcur Hoth] Hn.
  assert (default false (flags c !! n) = false) as Hoff.
  { destruct (decide (n = current c)) as [->|Hne].
    - destruct Hn as [|Hdead]; [done|]. by rewrite Hcur, Hdead.
    - specialize (Hoth n Hne). destruct (flags c !! n) as [[]|]; naive_solver. }
  unfold resolve. rewrite Hoff. by destruct (state c).
Qed.

(** ** What the card shows *)

(** The image section, lines 71-90: a spinner ("Gerando visual...")
    while [loading], else the image when [imageUrl] is truthy, else the
    placeholder ("Sem imagem"). *)
Inductive CardView := ShowSpinner | ShowImage (url : string) | ShowPlaceholder.

Definition card_view (s : CardState) : CardView :=
  if card_loading s then ShowSpinner
  else match card_image s with
       | Some u => if truthy u then ShowImage u else ShowPlaceholder
       | None => ShowPlaceholder
       end.

(** A URI [generateExerciseImage] returns is a non-empty string. *)
Lemma image_settle_truthy answer u :
  generateExerciseImage_settle answer = Some u -> truthy u = true.
Proof.
  destruct answer as [r|]; [|discriminate]. simpl.
  intros (? & ? & ? & b & _ & _ & _ & ->)%first_inline_image_Some.
  apply string_truthy_true, append_nonempty_l. discriminate.
Qed.

(** The two phases of a card whose exercise never changes: loading with
    the single request of its current run outstanding and no image yet;
    or settled, with nothing outstanding. *)
Definition card_phase (c : Card) : Prop :=
  (card_loading (state c) = true /\ card_image (state c) = None /\
   requests c = [(current c, card_name (state c))]) \/
  (card_loading (state c) = false /\ requests c = []).

Lemma card_phase_mount name : card_phase (mount name).
Proof. left. done. Qed.

(** The continuation of the outstanding request of a mounted card in the
    loading phase settles it, and shows the image or the placeholder. *)
Lemma card_phase_resolve c n nm answer :
  card_inv c -> card_alive (state c) = true -> card_phase c -> In (n, nm) (requests c) ->
  let c' := resolve n (generateExerciseImage_settle answer) c in
  card_phase c' /\
  card_view (state c') = match generateExerciseImage_settle answer with
                         | Some u => ShowImage u
                         | None => ShowPlaceholder
                         end.
Proof.
  intros [_ _ Hcur _] Ha [(Hl & Hi & Hr)|(_ & Hr)] Hin; rewrite Hr in Hin;
    [|destruct Hin].
  destruct Hin as [Heq|[]]. injection Heq as <- _.
  unfold resolve, card_phase, card_view; simpl. rewrite Hcur, Ha, Hr; simpl.
  rewrite Hi. split.
  - right. split; [done|]. rewrite filter_cons_False; [done|]. simpl. by intros ?.
  - destruct (generateExerciseImage_settle answer) as [u|] eqn:Hs; [|done].
    pose proof (image_settle_truthy _ _ Hs) as Ht. rewrite truthy_Some, Ht. cbv beta iota. by rewrite Ht.
Qed.

(** ** Theorems *)

(** C16: the liveness guard: the continuation of a run that is not the
    current one, or of any run after the card unmounted, changes nothing
    the card shows: a late image for an old name or for a torn-down card
    is dropped. *)
Theorem stale_resolution_ignored name c n url :
  card_reachable name c -> n <> current c \/ card_alive (state c) = false ->
  state (resolve n url c) = state c.
Proof. intros Hr. apply resolve_inactive. by apply (card_inv_reachable name). Qed.

(** C17: the continuation of the current run of a mounted card shows the
    image when the call returned a (non-empty) URI, keeps the previous one
    when it returned [null], and always ends the loading indicator. *)
Theorem current_resolution_applies name c url :
  card_reachable name c -> card_alive (state c) = true ->
  state (resolve (current c) url c) =
  {| card_name := card_name (state c);
     card_image := if truthy url then url else card_image (state c);
     card_loading := false; card_alive := true |}.
Proof.
  intros Hr Halive. destruct (card_inv_reachable _ _ Hr) as [_ _ Hcur _].
  unfold resolve. rewrite Hcur, Halive. simpl. destruct (state c); simpl in *; by subst.
Qed.

(** C18: when the exercise name changes while the card stays mounted, the
    state hooks are not reset: from the moment of the rename, while the
    image call for the new name is outstanding, the card shows the image
    of the old exercise (never the loading indicator), and if that call
    fails it keeps showing it for good, now under the new name. *)
Theorem rename_keeps_stale_image a b d :
  a <> b ->
  let u := data_uri {| data := Some d; mimeType := Some "image/png" |} in
  let c1 := resolve 0 (generateExerciseImage_settle (Ok (image_response d))) (mount a) in
  let c2 := rename b c1 in
  let c := resolve 1 (generateExerciseImage_settle (Err "quota exceeded")) c2 in
  card_reachable a c /\ In (1, b) (requests c2) /\
  card_view (state c1) = ShowImage u /\ card_view (state c2) = ShowImage u /\
  card_name (state c) = b /\ card_view (state c) = ShowImage u /\ requests c = [].
Proof.
  intros Hab u c1 c2 c. assert (String.eqb b a = false) as Hba by (apply String.eqb_neq; congruence).
  assert (c2 = run_effect (set_state {| card_name := b; card_image := card_image (state c1);
                                        card_loading := card_loading (state c1);
                                        card_alive := card_alive (state c1) |} (cleanup c1)))
    as Hc2 by (unfold c2, rename; change (card_name (state c1)) with a; by rewrite Hba).
  split; [|unfold c; rewrite Hc2; split_and!; try reflexivity; simpl; auto].
  unfold card_reachable, c.
  eapply rtc_l; [eapply (CS_resolve _ 0 a); simpl; auto|].
  eapply rtc_l; [apply CS_rename; done|].
  eapply rtc_l; [eapply (CS_resolve _ 1 b)|apply rtc_refl].
  unfold rename; simpl; rewrite Hba; simpl. auto.
Qed.

(** ** Witnesses *)

Lemma stale_resolution_ignored_witness :
  card_reachable "Supino" (rename "Remada" (mount "Supino")) /\
  state (resolve 0 (Some "data:image/png;base64,AAAA") (rename "Remada" (mount "Supino")))
  = state (rename "Remada" (mount "Supino")).
Proof.
  assert (card_reachable "Supino" (rename "Remada" (mount "Supino"))) as Hr.
  { eapply rtc_l; [apply CS_rename; reflexivity|apply rtc_refl]. }
  split; [exact Hr|]. apply (stale_resolution_ignored "Supino"); [exact Hr|].
  left. vm_compute. discriminate.
Defined.

Lemma current_resolution_applies_witness :
  state (resolve (current (mount "Supino")) (Some "data:image/png;base64,AAAA") (mount "Supino")) =
  {| card_name := "Supino"; card_image := Some "data:image/png;base64,AAAA";
     card_loading := false; card_alive := true |}.
Proof. apply (current_resolution_applies "Supino"); [apply rtc_refl|reflexivity]. Defined.

Lemma rename_keeps_stale_image_witness :
  let c := resolve 1 (generateExerciseImage_settle (Err "quota exceeded"))
             (rename "Remada" (resolve 0 (generateExerciseImage_settle
                                           (Ok (image_response "AAAA"))) (mount "Supino"))) in
  card_reachable "Supino" c /\ card_name (state c) = "Remada" /\
  card_view (state c) = ShowImage "data:image/png;base64,AAAA".
Proof.
  destruct (rename_keeps_stale_image "Supino" "Remada" "AAAA") as (Hr & _ & _ & _ & Hn & Hv & _);
    [discriminate|].
  split; [exact Hr|]. split; [exact Hn|exact Hv].
Defined.
