(* ===== verification/ProgressBar.v ===== *)
(** * The progress bar, [src/components/ProgressBar.tsx]

    [percentage = Math.min(100, Math.max(0, ((currentStep - 1) /
    (totalSteps - 1)) * 100))] (line 11) on JavaScript numbers.  A number
    is a rational, [+Infinity], [-Infinity] or [NaN]: division by zero
    gives an infinity or [NaN], and [Math.max]/[Math.min] return [NaN] when
    an argument is [NaN].  Rationals stand for doubles without rounding
    (the steps and totals are small integers; the clamp bounds the result
    whatever the rounding).

    Theorems: the result is [NaN] exactly for the one-step bar at its first
    step and lies in [[0, 100]] otherwise; the wizard's three selection
    steps give 0, 50 and 100 percent. *)

From S2P Require Import Prelude Types Json Wizard.
From Stdlib Require Import QArith Qminmax.

Inductive jsnum := Fin (q : Q) | PosInf | NegInf | NaN.

Definition js_sub (x y : jsnum) : jsnum :=
  match x, y with
  | Fin a, Fin b => Fin (a - b)
  | NaN, _ | _, NaN => NaN
  | PosInf, PosInf | NegInf, NegInf => NaN
  | PosInf, _ | _, NegInf => PosInf
  | NegInf, _ | _, PosInf => NegInf
  end.

(** The infinity of the sign of a non-zero rational. *)
Definition inf_of_sign (a : Q) : jsnum := if Qle_bool 0 a then PosInf else NegInf.

Definition js_neg_inf (x : jsnum) : jsnum :=
  match x with PosInf => NegInf | NegInf => PosInf | v => v end.

(** Division; a zero divisor is [+0] here (it is [n - 1] for an integer
    [n]), so an infinite quotient has the sign of the dividend. *)
Definition js_div (x y : jsnum) : jsnum :=
  match x, y with
  | Fin a, Fin b =>
      if Qeq_bool b 0 then (if Qeq_bool a 0 then NaN else inf_of_sign a)
      else Fin (a / b)
  | Fin _, (PosInf | NegInf) => Fin 0
  | (PosInf | NegInf), Fin b =>
      if Qeq_bool b 0 then x else if Qle_bool 0 b then x else js_neg_inf x
  | _, _ => NaN
  end.

(** Multiplication by a positive constant. *)
Definition js_mul_pos (x : jsnum) (k : Q) : jsnum :=
  match x with Fin a => Fin (a * k) | v => v end.

Definition js_max (x y : jsnum) : jsnum :=
  match x, y with
  | NaN, _ | _, NaN => NaN
  | Fin a, Fin b => Fin (Qmax a b)
  | PosInf, _ | _, PosInf => PosInf
  | NegInf, v | v, NegInf => v
  end.

Definition js_min (x y : jsnum) : jsnum :=
  match x, y with
  | NaN, _ | _, NaN => NaN
  | Fin a, Fin b => Fin (Qmin a b)
  | NegInf, _ | _, NegInf => NegInf
  | PosInf, v | v, PosInf => v
  end.

Definition of_nat (n : nat) : jsnum := Fin (inject_Z (Z.of_nat n)).

(** [ProgressBar]'s props (line 8) and its percentage, line 11. *)
Definition percentage (currentStep totalSteps : nat) : jsnum :=
  js_min (Fin 100)
    (js_max (Fin 0)
       (js_mul_pos (js_div (js_sub (of_nat currentStep) (Fin 1))
                           (js_sub (of_nat totalSteps) (Fin 1))) 100)).

(** ** Lemmas *)

(** [Math.min(100, Math.max(0, x))]. *)
Definition clamp (x : jsnum) : jsnum := js_min (Fin 100) (js_max (Fin 0) x).

Lemma clamp_fin a : clamp (Fin a) = Fin (Qmin 100 (Qmax 0 a)).
Proof. reflexivity. Qed.

Lemma clamp_range a : 0 <= Qmin 100 (Qmax 0 a) <= 100.
Proof.
  split.
  - apply Q.min_glb; [discriminate|apply Q.le_max_l].
  - apply Q.le_min_l.
Qed.

(** [n - 1] is zero exactly for [n = 1]. *)
Lemma pred_zero_bool n : Qeq_bool (inject_Z (Z.of_nat n) - 1) 0 = Nat.eqb n 1.
Proof.
  unfold Qeq_bool, Qminus, Qplus, inject_Z. simpl.
  destruct (Z.eqb_spec ((Z.of_nat n * 1 + - (1) * 1) * 1) (0 * Z.pos (1 * 1)));
    destruct (Nat.eqb_spec n 1); lia.
Qed.

Lemma clamp_cases x :
  (x = NaN /\ clamp x = NaN) \/
  (x <> NaN /\ exists q, clamp x = Fin q /\ 0 <= q <= 100).
Proof.
  destruct x as [a| | |]; [right|right|right|left]; split; try done.
  - exists (Qmin 100 (Qmax 0 a)). split; [done|apply clamp_range].
  - exists 100. split; [done|]. split; discriminate.
  - exists 0. split; [done|]. split; discriminate.
Qed.

(** ** Theorems *)

(** C19: the bar's percentage is [NaN] exactly when [currentStep] and
    [totalSteps] are both 1 (the [0 / 0] of a one-step bar), and otherwise
    a number between 0 and 100: the clamp absorbs the infinities of a zero
    denominator and every out-of-range step. *)
Theorem percentage_range c t :
  (percentage c t = NaN <-> c = 1%nat /\ t = 1%nat) /\
  (percentage c t <> NaN -> exists q, percentage c t = Fin q /\ 0 <= q <= 100).
Proof.
  change (percentage c t) with
    (clamp (js_mul_pos (js_div (Fin (inject_Z (Z.of_nat c) - 1))
                               (Fin (inject_Z (Z.of_nat t) - 1))) 100)).
  unfold js_div. rewrite !pred_zero_bool.
  match goal with |- context [clamp ?x] =>
    destruct (clamp_cases x) as [[Hx Hc]|[Hx (q & Hc & Hq)]] end;
  rewrite Hc; (split; [|eauto]).
  - split; [|done]. intros _.
    destruct (Nat.eqb_spec t 1), (Nat.eqb_spec c 1); try done;
      unfold inf_of_sign in Hx; try destruct (Qle_bool _ _); discriminate.
  - by intros ?.
  - split; [done|]. intros [Hc1 Ht1]. subst c t. exfalso. apply Hx. reflexivity.
Qed.

(** The bar as [App] renders it (App.tsx, lines 191-193): only strictly
    between Intro and Loading, with [currentStep = step] and
    [totalSteps = 3]. *)
Definition progress_bar (st : AppState) : option jsnum :=
  if Nat.ltb Intro (step st) && Nat.ltb (step st) Loading
  then Some (percentage (step st) 3) else None.

(** Wherever the wizard shows the bar, it is a finite percentage that
    grows by 50 points per selection step: 0 on the level step, 50 on the
    goal step, 100 on the muscle step. *)
Theorem progress_bar_steps st p :
  progress_bar st = Some p ->
  exists q, p = Fin q /\ (q == inject_Z (50 * (Z.of_nat (step st) - 1)))%Q.
Proof.
  unfold progress_bar. destruct st as [n pr w e]; simpl.
  destruct n as [|[|[|[|n]]]]; simpl; intros H; try discriminate; injection H as <-;
    eexists; (split; [reflexivity|]); vm_compute; reflexivity.
Qed.

Lemma progress_bar_steps_witness :
  let st := {| step := SelectGoal; prefs := {| level := Some Iniciante; goal := None;
                                               muscleGroup := None |};
               workout := JNull; error := None |} in
  progress_bar st = Some (percentage 2 3) /\
  exists q, percentage 2 3 = Fin q /\ (q == inject_Z (50 * (Z.of_nat (step st) - 1)))%Q.
Proof. intros st. split; [reflexivity|]. apply (progress_bar_steps st). reflexivity. Defined.

Lemma percentage_range_witness :
  percentage 2 3 <> NaN /\ exists q, percentage 2 3 = Fin q /\ 0 <= q <= 100.
Proof.
  split; [discriminate|]. apply (proj2 (percentage_range 2 3)). discriminate.
Defined.
