(* ===== verification/Selection.v ===== *)
(** * The selection screens: [renderSelection] and [SelectionCard]

    [renderSelection] (App.tsx, lines 77-104) shows a title, one
    [SelectionCard] per option with [selected={selected === opt}] and
    [onClick={() => onSelect(opt)}], a back button, and a next button
    disabled while [!selected] and labelled "Gerar Treino" on the muscle
    step.  [App] calls it on the three selection steps (lines 199-218) with
    [Object.values] of the step's enum, the preference of that step, and a
    closure storing the clicked string in it.  [SelectionCard]
    (src/components/SelectionCard.tsx) only draws its props and forwards
    the click; its styling is not modelled.

    The preferences of [Wizard.v] hold enum members; the string a card
    passes to [onSelect] is read back as the member with that value
    ([enum_of_value]).  Theorems: exactly the chosen option is
    highlighted, exactly when the next button is enabled; and a click on
    any card highlights that card and nothing else. *)

From S2P Require Import Prelude Types Json Gemini Wizard.
Open Scope fit_scope.

(** What [renderSelection] draws: the title, the cards (label, selected),
    whether the next button is enabled, and its label. *)
Record SelectionView := {
  sv_title : string;
  sv_cards : list (string * bool);
  sv_next_enabled : bool;
  sv_next_label : string
}.

(** [selected === opt] with [selected : string | null]. *)
Definition strict_eq_opt (selected : option string) (opt : string) : bool :=
  match selected with Some s => String.eqb s opt | None => false end.

(** Lines 77-104. *)
Definition renderSelection (st : AppState) (title : string) (options : list string)
    (selected : option string) : SelectionView := {|
  sv_title := title;
  sv_cards := (fun opt => (opt, strict_eq_opt selected opt)) <$> options;
  sv_next_enabled := truthy selected;
  sv_next_label := if Nat.eqb (step st) SelectMuscle then "Gerar Treino" else "Próximo"
|}.

(** Lines 199-218: the screen of each selection step. *)
Definition selection_screen (st : AppState) : option SelectionView :=
  if Nat.eqb (step st) SelectLevel then
    Some (renderSelection st "Qual seu nível de experiência?"
            (enum_values ExperienceLevel) (enum_value <$> level (prefs st)))
  else if Nat.eqb (step st) SelectGoal then
    Some (renderSelection st "Qual seu objetivo principal?"
            (enum_values FitnessGoal) (enum_value <$> goal (prefs st)))
  else if Nat.eqb (step st) SelectMuscle then
    Some (renderSelection st "Qual grupo muscular vamos treinar hoje?"
            (enum_values MuscleGroup) (enum_value <$> muscleGroup (prefs st)))
  else None.

(** The string of the member stored for the current selection step, if
    one was chosen: what the spec says the screen highlights. *)
Definition step_choice (st : AppState) : option string :=
  if Nat.eqb (step st) SelectLevel then ExperienceLevel_value <$> level (prefs st)
  else if Nat.eqb (step st) SelectGoal then FitnessGoal_value <$> goal (prefs st)
  else if Nat.eqb (step st) SelectMuscle then MuscleGroup_value <$> muscleGroup (prefs st)
  else None.

(** The click on the card labelled [opt] (line 91) calls the step's
    [onSelect] closure (lines 203, 210, 217) with [opt]: the event that
    stores the member whose value is [opt]. *)
Definition click (st : AppState) (opt : string) : option Event :=
  if Nat.eqb (step st) SelectLevel then EvSelectLevel <$> enum_of_value opt
  else if Nat.eqb (step st) SelectGoal then EvSelectGoal <$> enum_of_value opt
  else if Nat.eqb (step st) SelectMuscle then EvSelectMuscle <$> enum_of_value opt
  else None.

(** [SelectionCard] (src/components/SelectionCard.tsx, lines 10-26): the
    label, the [className] of lines 14-20 (a template literal whose
    variable part is chosen by [selected]), and the icon's wrapper class
    when an icon is given (line 22). *)
Record SelectionCardView := {
  scv_label : string;
  scv_class : string;
  scv_icon : option string
}.

Definition selection_card_class (selected : bool) : string :=
  nl ++ "        cursor-pointer p-4 rounded-xl border-2 transition-all duration-200 flex flex-col items-center justify-center gap-3 text-center h-full min-h-[120px]" ++
  nl ++ "        " ++
  (if selected then "border-primary bg-primary/10 text-white shadow-[0_0_15px_rgba(16,185,129,0.3)]"
   else "border-slate-700 bg-surface text-slate-400 hover:border-slate-500 hover:text-white") ++
  nl ++ "      ".

Definition SelectionCard (label : string) (selected : bool) (icon : option string)
    : SelectionCardView := {|
  scv_label := label;
  scv_class := selection_card_class selected;
  scv_icon := (fun _ => "text-2xl " ++ (if selected then "text-primary" else "text-slate-500")) <$> icon
|}.

(** The cards [renderSelection] draws (App.tsx lines 88-93): label and
    [selected] from [sv_cards], no icon. *)
Definition selection_cards (v : SelectionView) : list SelectionCardView :=
  (fun c => SelectionCard c.1 c.2 None) <$> sv_cards v.

(** ** Lemmas *)

Lemma filter_snd_pairs (f : string -> bool) (l : list string) :
  List.filter snd ((fun o => (o, f o)) <$> l) = (fun o => (o, true)) <$> List.filter f l.
Proof.
  induction l as [|a l IH]; [done|]. simpl. destruct (f a); simpl; [f_equal|]; apply IH.
Qed.

Lemma filter_false (l : list string) : List.filter (fun _ => false) l = [].
Proof. by induction l. Qed.

Lemma fst_pairs {B} (g : string -> B) (l : list string) :
  fst <$> ((fun o => (o, g o)) <$> l) = l.
Proof. induction l as [|a l IH]; [done|]. simpl. by f_equal. Qed.

(** The two class names differ: the highlighted one is recognised. *)
Lemma selection_card_class_eqb b :
  String.eqb (selection_card_class b) (selection_card_class true) = b.
Proof. by destruct b; vm_compute. Qed.

Lemma highlighted_drawn (l : list (string * bool)) :
  length (List.filter (fun c => String.eqb (scv_class c) (selection_card_class true))
            ((fun c => SelectionCard c.1 c.2 None) <$> l)) =
  length (List.filter snd l).
Proof.
  assert (forall o b, String.eqb (scv_class (SelectionCard o b None)) (selection_card_class true)
                      = b) as Hc by (intros o b; apply selection_card_class_eqb).
  induction l as [|[o b] l IH]; [done|]. cbn [fmap list_fmap List.filter fst snd].
  rewrite Hc. destruct b; cbn [length]; by rewrite IH.
Qed.

Lemma labels_drawn (l : list (string * bool)) :
  scv_label <$> ((fun c => SelectionCard c.1 c.2 None) <$> l) = fst <$> l.
Proof. induction l as [|[o b] l IH]; [done|]. simpl. by f_equal. Qed.

Lemma no_icon_drawn (l : list (string * bool)) :
  Forall (fun c => scv_icon c = None) ((fun c => SelectionCard c.1 c.2 None) <$> l).
Proof. apply Forall_fmap, Forall_forall. by intros [o b] _. Qed.

Section Screen.
Context `{StringEnum A}.
Hypothesis values_NoDup : NoDup (enum_values A).
Hypothesis members_complete : forall x : A, x ∈ enum_members A.

(** The cards of an enum's screen: only the chosen member's card is
    highlighted. *)
Lemma highlighted_cards (sel : option A) :
  List.filter snd ((fun o => (o, strict_eq_opt (enum_value <$> sel) o)) <$> enum_values A) =
  (fun o => (o, true)) <$> option_list (enum_value <$> sel).
Proof.
  rewrite (filter_snd_pairs (strict_eq_opt (enum_value <$> sel))).
  destruct sel as [x|]; [|simpl; by rewrite filter_false].
  change (strict_eq_opt (enum_value <$> Some x)) with (String.eqb (enum_value x)).
  rewrite filter_eqb_NoDup; [done..|]. unfold enum_values.
  apply list_elem_of_fmap. eauto.
Qed.

(** Every label of an enum's screen reads back as a member. *)
Lemma label_member (opt : string) :
  opt ∈ enum_values A -> exists x : A, enum_of_value opt = Some x /\ enum_value x = opt.
Proof.
  intros Hin. destruct (enum_of_value opt) as [x|] eqn:E.
  - exists x. split; [done|]. by apply enum_of_value_Some.
  - by apply enum_of_value_None in E.
Qed.
(** A card of an enum's screen carries the value of a member. *)
Lemma click_label (sel : option A) opt b :
  In (opt, b) ((fun o => (o, strict_eq_opt (enum_value <$> sel) o)) <$> enum_values A) ->
  exists x : A, enum_of_value opt = Some x /\ enum_value x = opt.
Proof.
  intros Hin. apply label_member. apply list_elem_of_In, list_elem_of_fmap in Hin.
  destruct Hin as (o & Heq & Ho). by injection Heq as -> _.
Qed.

(** After a member is chosen, the highlighted labels are its value. *)
Lemma highlighted_labels (x : A) :
  fst <$> List.filter snd
        ((fun o => (o, strict_eq_opt (enum_value <$> Some x) o)) <$> enum_values A) =
  [enum_value x].
Proof. by rewrite highlighted_cards. Qed.
End Screen.

#[export] Hint Resolve ExperienceLevel_values_NoDup FitnessGoal_values_NoDup
  MuscleGroup_values_NoDup ExperienceLevel_listed FitnessGoal_listed MuscleGroup_listed : fit.

(** Split a state on the selection steps; the other steps show no
    selection screen. *)
Ltac selection_step st :=
  let n := fresh "n" in
  destruct st as [n [? ? ?] ? ?]; unfold selection_screen, click, ui_enabled;
  destruct n as [|[|[|[|n]]]]; cbn [step prefs level goal muscleGroup Nat.eqb];
  intros H; try discriminate H; injection H as <-.

(** Rewrite the highlighted cards of the screen of any of the three
    enums. *)
Ltac rewrite_highlighted :=
  first [ rewrite (highlighted_cards ExperienceLevel_values_NoDup ExperienceLevel_listed)
        | rewrite (highlighted_cards FitnessGoal_values_NoDup FitnessGoal_listed)
        | rewrite (highlighted_cards MuscleGroup_values_NoDup MuscleGroup_listed) ].

(** Case analysis on the enum members the goal mentions. *)
Ltac destruct_member :=
  repeat match goal with
  | x : ExperienceLevel |- _ => match goal with |- context [x] => destruct x end
  | x : FitnessGoal |- _ => match goal with |- context [x] => destruct x end
  | x : MuscleGroup |- _ => match goal with |- context [x] => destruct x end
  end.

(** The count of highlighted cards of a selection screen, and the next
    button's guard. *)
Lemma selection_highlight_count st view :
  selection_screen st = Some view ->
  length (List.filter snd (sv_cards view)) = (if sv_next_enabled view then 1 else 0) /\
  sv_next_enabled view = ui_enabled st EvNext.
Proof.
  selection_step st; unfold renderSelection, sv_cards, sv_next_enabled;
    rewrite_highlighted;
    repeat match goal with x : option _ |- _ => destruct x as [x|] end;
    destruct_member; split; reflexivity.
Qed.

(** ** Theorems *)

(** C25: on each selection screen the highlighted cards are exactly the
    card of the member stored for the step (the one whose label is that
    member's string), and none before a choice; the next button is enabled
    exactly when a member is stored, which is [handleNext]'s guard for the
    step (the [ui_enabled] of [Wizard.v]). *)
Theorem selection_highlight st view :
  selection_screen st = Some view ->
  List.filter snd (sv_cards view) = (fun o => (o, true)) <$> option_list (step_choice st) /\
  sv_next_enabled view = bool_decide (is_Some (step_choice st)) /\
  sv_next_enabled view = ui_enabled st EvNext.
Proof.
  intros Hs. pose proof (selection_highlight_count st view Hs) as [_ He].
  split_and!; [| |exact He]; revert Hs; selection_step st;
    unfold renderSelection, sv_cards, sv_next_enabled, step_choice; cbn [step prefs Nat.eqb];
    try rewrite_highlighted;
    repeat match goal with x : option _ |- _ => destruct x as [x|] end; destruct_member; reflexivity.
Qed.

(** C26: a click on any card of a selection screen is an enabled action
    that stores the member the card shows (its label read back as a
    member), starts no call, stays on the screen, and leaves exactly that
    card highlighted. *)
Theorem selection_click st view opt b :
  selection_screen st = Some view -> In (opt, b) (sv_cards view) ->
  exists ev, click st opt = Some ev /\ ui_enabled st ev = true /\
    snd (dispatch ev st) = None /\ step (fst (dispatch ev st)) = step st /\
    exists view', selection_screen (fst (dispatch ev st)) = Some view' /\
      sv_title view' = sv_title view /\ fst <$> List.filter snd (sv_cards view') = [opt].
Proof.
  selection_step st; intros Hin; unfold renderSelection, sv_cards in Hin;
    first [ destruct (@click_label ExperienceLevel ExperienceLevel_enum _ _ _ Hin) as (x & Hx & <-)
          | destruct (@click_label FitnessGoal FitnessGoal_enum _ _ _ Hin) as (x & Hx & <-)
          | destruct (@click_label MuscleGroup MuscleGroup_enum _ _ _ Hin) as (x & Hx & <-) ];
    rewrite Hx;
    eexists; (split; [reflexivity|]); (split; [reflexivity|]);
    (split; [reflexivity|]); (split; [reflexivity|]);
    eexists; (split; [reflexivity|]); (split; [reflexivity|]);
    first [ apply (highlighted_labels ExperienceLevel_values_NoDup ExperienceLevel_listed)
          | apply (highlighted_labels FitnessGoal_values_NoDup FitnessGoal_listed)
          | apply (highlighted_labels MuscleGroup_values_NoDup MuscleGroup_listed) ].
Qed.

(** C34: the cards a selection screen draws through [SelectionCard]
    show each option of the step's enum once, none with an icon, and carry
    the highlighted class name on exactly one card once a choice is made
    (none before), which is exactly when the next button is enabled and
    [handleNext]'s guard holds. *)
Theorem selection_cards_drawn st v :
  selection_screen st = Some v ->
  NoDup (scv_label <$> selection_cards v) /\
  Forall (fun c => scv_icon c = None) (selection_cards v) /\
  length (List.filter (fun c => String.eqb (scv_class c) (selection_card_class true))
            (selection_cards v)) = (if sv_next_enabled v then 1 else 0) /\
  sv_next_enabled v = ui_enabled st EvNext.
Proof.
  intros Hs. unfold selection_cards. rewrite labels_drawn, highlighted_drawn.
  destruct (selection_highlight_count st v Hs) as [Hn He].
  split_and!; [|apply no_icon_drawn|done|done].
  revert Hs. unfold selection_screen. repeat case_match; intros [= <-];
    unfold renderSelection; cbn [sv_cards]; rewrite fst_pairs; auto with fit.
Qed.

(** ** Witnesses *)

(** The goal screen after a level and the goal [Forca] were chosen. *)
Definition goal_screen_state : AppState :=
  {| step := SelectGoal;
     prefs := {| level := Some Iniciante; goal := Some Forca; muscleGroup := None |};
     workout := JNull; error := None |}.

Definition goal_screen_view : SelectionView :=
  renderSelection goal_screen_state "Qual seu objetivo principal?" (enum_values FitnessGoal)
    (Some (FitnessGoal_value Forca)).

Lemma selection_highlight_witness :
  selection_screen goal_screen_state = Some goal_screen_view /\
  List.filter snd (sv_cards goal_screen_view) =
    (fun o => (o, true)) <$> option_list (step_choice goal_screen_state) /\
  sv_next_enabled goal_screen_view = bool_decide (is_Some (step_choice goal_screen_state)) /\
  sv_next_enabled goal_screen_view = ui_enabled goal_screen_state EvNext.
Proof. split; [reflexivity|]. apply selection_highlight. reflexivity. Defined.

Lemma selection_click_witness :
  selection_screen goal_screen_state = Some goal_screen_view /\
  In (FitnessGoal_value Hipertrofia, false) (sv_cards goal_screen_view) /\
  exists ev, click goal_screen_state (FitnessGoal_value Hipertrofia) = Some ev /\
    ui_enabled goal_screen_state ev = true /\
    snd (dispatch ev goal_screen_state) = None /\
    step (fst (dispatch ev goal_screen_state)) = step goal_screen_state /\
    exists view', selection_screen (fst (dispatch ev goal_screen_state)) = Some view' /\
      sv_title view' = sv_title goal_screen_view /\
      fst <$> List.filter snd (sv_cards view') = [FitnessGoal_value Hipertrofia].
Proof.
  assert (In (FitnessGoal_value Hipertrofia, false) (sv_cards goal_screen_view)) as Hin
    by (simpl; auto).
  split; [reflexivity|]. split; [exact Hin|].
  exact (selection_click goal_screen_state goal_screen_view _ false eq_refl Hin).
Defined.

Lemma selection_cards_drawn_witness :
  selection_screen goal_screen_state = Some goal_screen_view /\
  NoDup (scv_label <$> selection_cards goal_screen_view) /\
  Forall (fun c => scv_icon c = None) (selection_cards goal_screen_view) /\
  length (List.filter (fun c => String.eqb (scv_class c) (selection_card_class true))
            (selection_cards goal_screen_view)) =
    (if sv_next_enabled goal_screen_view then 1 else 0) /\
  sv_next_enabled goal_screen_view = ui_enabled goal_screen_state EvNext.
Proof. split; [reflexivity|]. apply selection_cards_drawn. reflexivity. Defined.
