(* ===== verification/System.v ===== *)
(** * The application composed: the wizard, its exercise cards, the gateway

    [App] (src/App.tsx) renders one [ExerciseCard] per exercise of the plan
    on the result screen (lines 164-166, [key={idx}]); each card mounts,
    runs its image effect and calls [generateExerciseImage].  Leaving the
    result screen unmounts the cards, but their outstanding image calls
    still settle, and their continuations still run.

    A [World] is the wizard with its outstanding plan call ([Sys] of
    [Wizard.v]), the cards on screen, and the cards already unmounted whose
    calls may still settle.  [world_step] is a step of the wizard followed
    by React's re-render ([rerender]: mount the cards when the result
    screen appears, unmount them when it goes), or the settlement of one
    outstanding image call of a card, on any answer of the service.
    [card_phase] (of [ExerciseCard.v]) holds of every card on screen: its
    one request outstanding with the spinner shown, or settled.

    The cards the result screen mounts are those of its render on the
    stored value, whatever [JSON.parse] returned ([renderResult_js] of
    ResultRender.v): none for a falsy [workout] (line 127), one per element
    of [exercises] otherwise, requesting the image of [String(exercise.name)].
    Where that render throws ([result_cards] answers [None]) React
    unmounts the application: no world step enters the result screen with
    such a value, and Crash.v adds the unmount. *)

From S2P Require Import Prelude Types Json Schema ResultRender Gemini Wizard ExerciseCard.
Open Scope fit_scope.

(** [renderResult], lines 126-176 and 164-166: the names of the cards the
    result screen mounts, in order, or [None] where the render throws. *)
Definition result_cards (v : json) : option (list string) :=
  match renderResult_js v with
  | Ok None => Some []
  | Ok (Some t) => Some (ct_request <$> rt_cards t)
  | Err _ => None
  end.

(** The cards a state shows: those of [renderResult] on the result screen
    (line 222), none elsewhere. *)
Definition result_view (st : AppState) : option (list string) :=
  if Nat.eqb (step st) Result then result_cards (workout st) else Some [].

(** React's reconciliation after the state moved from [st] to [st']: the
    cards on screen and the unmounted ones.  Within the result screen the
    cards stay (the plan cannot change there, see [result_keeps_workout]). *)
Definition rerender (st st' : AppState) (cs ds : list Card) : option (list Card * list Card) :=
  if Nat.eqb (step st') Result then
    if Nat.eqb (step st) Result then Some (cs, ds)
    else match result_cards (workout st') with
         | Some names => Some (mount <$> names, ds)
         | None => None
         end
  else if Nat.eqb (step st) Result then Some ([], (ds ++ (unmount <$> cs))%list)
  else Some (cs, ds).

Lemma result_cards_plan v p :
  plan_of_json v = Some p -> result_cards v = Some (name <$> exercises p).
Proof.
  intros Hp. unfold result_cards. rewrite (renderResult_js_plan v p Hp). simpl.
  rewrite fmap_imap, <-(imap_const name). f_equal.
Qed.

Record World := {
  sys : Sys;
  cards : list Card;
  detached : list Card
}.

Definition world_init : World := {| sys := sys_init; cards := []; detached := [] |}.

Section WorldRuns.
Context `{JsonParse}.
Variable allowed : AppState -> Event -> bool.

Inductive world_step : World -> World -> Prop :=
  | W_sys w s' cs ds :
    sys_step allowed (sys w) s' ->
    rerender (app (sys w)) (app s') (cards w) (detached w) = Some (cs, ds) ->
    world_step w {| sys := s'; cards := cs; detached := ds |}
  | W_card w i c n nm answer :
    cards w !! i = Some c -> In (n, nm) (requests c) ->
    world_step w {| sys := sys w;
                    cards := <[i := resolve n (generateExerciseImage_settle answer) c]> (cards w);
                    detached := detached w |}
  | W_detached w i c n nm answer :
    detached w !! i = Some c -> In (n, nm) (requests c) ->
    world_step w {| sys := sys w; cards := cards w;
                    detached := <[i := resolve n (generateExerciseImage_settle answer) c]>
                                  (detached w) |}.

Definition world_reachable (w : World) : Prop := rtc world_step world_init w.
End WorldRuns.

(** ** The invariant of the composed system *)

Definition card_name_of (c : Card) : string := card_name (state c).

(** The wizard invariant; the cards on screen are those the state renders,
    in order, each mounted and sound; the unmounted ones are sound and
    switched off. *)
Record world_inv (w : World) : Prop := {
  wi_sys : wizard_inv (sys w);
  wi_cards : result_view (app (sys w)) = Some (card_name_of <$> cards w);
  wi_mounted : Forall (fun c => card_inv c /\ card_alive (state c) = true) (cards w);
  wi_detached : Forall (fun c => card_inv c /\ card_alive (state c) = false) (detached w)
}.

Definition mounted_ok (c : Card) : Prop := card_inv c /\ card_alive (state c) = true.
Definition detached_ok (c : Card) : Prop := card_inv c /\ card_alive (state c) = false.

(** A resolution keeps a card's name, liveness and soundness. *)
Lemma resolve_ok c n nm answer :
  card_inv c -> In (n, nm) (requests c) ->
  card_inv (resolve n (generateExerciseImage_settle answer) c) /\
  card_name_of (resolve n (generateExerciseImage_settle answer) c) = card_name_of c /\
  card_alive (state (resolve n (generateExerciseImage_settle answer) c)) = card_alive (state c).
Proof. intros Hc Hin. split; [|done]. eapply card_inv_step; [done|by econstructor]. Qed.

Lemma card_names_mount (names : list string) : card_name_of <$> (mount <$> names) = names.
Proof. induction names as [|a names IH]; [done|]. simpl. by f_equal. Qed.

(** The effect of a re-render on the cards, given that the plan does not
    change within the result screen. *)
Lemma rerender_inv st st' cs ds cs' ds' :
  (step st = Result -> step st' = Result -> workout st' = workout st) ->
  result_view st = Some (card_name_of <$> cs) ->
  Forall mounted_ok cs -> Forall detached_ok ds ->
  rerender st st' cs ds = Some (cs', ds') ->
  result_view st' = Some (card_name_of <$> cs') /\ Forall mounted_ok cs' /\
  Forall detached_ok ds'.
Proof.
  unfold rerender, result_view.
  destruct (Nat.eqb_spec (step st') Result) as [HR'|HR'],
           (Nat.eqb_spec (step st) Result) as [HR|HR]; intros Hkeep Hv Hm Hd Hr.
  - injection Hr as <- <-. rewrite Hkeep by done. auto.
  - destruct (result_cards (workout st')) as [names|]; [|discriminate].
    injection Hr as <- <-. rewrite card_names_mount. split; [done|split; [|done]].
    apply Forall_fmap, Forall_forall. intros x _. split; [apply card_inv_mount|done].
  - injection Hr as <- <-. split; [done|split; [constructor|]].
    apply Forall_app; split; [done|]. apply Forall_fmap.
    eapply Forall_impl; [exact Hm|]. intros c [Hc Ha]. split; [|done].
    eapply card_inv_step; [done|by constructor].
  - injection Hr as <- <-. auto.
Qed.

(** A card resolution on the list at [i] keeps the names and the
    soundness of the list. *)
Lemma resolve_in_list (P : Card -> Prop) cs i c n nm answer :
  (forall c', P c' -> card_inv c') ->
  (forall c', card_inv c' -> card_inv (resolve n (generateExerciseImage_settle answer) c') ->
              P c' -> P (resolve n (generateExerciseImage_settle answer) c')) ->
  Forall P cs -> cs !! i = Some c -> In (n, nm) (requests c) ->
  card_name_of <$> <[i := resolve n (generateExerciseImage_settle answer) c]> cs =
  card_name_of <$> cs /\
  Forall P (<[i := resolve n (generateExerciseImage_settle answer) c]> cs).
Proof.
  intros Hinv HP Hall Hi Hin. pose proof (Forall_lookup_1 _ _ _ _ Hall Hi) as Hc.
  destruct (resolve_ok c n nm answer (Hinv _ Hc) Hin) as (Hc' & Hn & _). split.
  - rewrite list_fmap_insert, Hn. apply list_insert_id. by rewrite list_lookup_fmap, Hi.
  - apply Forall_insert; [done|]. apply HP; auto.
Qed.

Section Preservation.
Context `{JsonParse}.
Variable allowed : AppState -> Event -> bool.
Hypothesis allowed_callable : forall st ev, allowed st ev = true -> callable st ev = true.

(** Within the result screen no action and no settlement changes the
    plan: the screen's handlers are "next" (a no-op), "back" (which
    leaves), the selection closures (which touch the preferences), and no
    call is outstanding there. *)
Lemma result_keeps_workout s s' :
  wizard_inv s -> sys_step allowed s s' -> step (app s) = Result ->
  step (app s') = Result -> workout (app s') = workout (app s).
Proof.
  intros Hinv Hs HR HR'.
  inversion Hs as [? ev st' req Ha Hd | ? ps1 p ps2 answer Hpe]; subst; simpl in *.
  - assert (step_name (app s) = Some Result) as Hsn by (unfold step_name; by rewrite HR).
    specialize (allowed_callable _ _ Ha). destruct ev; simpl in Hd, allowed_callable.
    + rewrite handleNext_by_name in Hd. unfold handleNext_named in Hd. rewrite Hsn in Hd.
      by injection Hd as <- _.
    + rewrite handleBack_by_name in Hd. unfold handleBack_named in Hd. rewrite Hsn in Hd.
      injection Hd as <- _. discriminate.
    + by injection Hd as <- _.
    + by injection Hd as <- _.
    + by injection Hd as <- _.
    + rewrite HR in allowed_callable. discriminate.
    + discriminate.
  - rewrite (inv_idle _ Hinv) in Hpe by (rewrite HR; discriminate). destruct ps1; discriminate.
Qed.

Lemma world_inv_init : world_inv world_init.
Proof. split; simpl; [apply wizard_inv_init|reflexivity|constructor|constructor]. Qed.

Lemma world_inv_step w w' : world_inv w -> world_step allowed w w' -> world_inv w'.
Proof.
  intros [Hs Hc Hm Hd] Hstep.
  inversion Hstep as [? s' cs ds Hss Hr | ? i c n nm answer Hi Hin | ? i c n nm answer Hi Hin];
    subst; simpl.
  - destruct (rerender_inv (app (sys w)) (app s') (cards w) (detached w) cs ds)
      as (? & ? & ?); [|done..|]; [intros; eapply result_keeps_workout; eauto|].
    split; simpl; auto. eapply wizard_inv_step; eauto.
  - destruct (resolve_in_list mounted_ok (cards w) i c n nm answer) as [Hn Hall]; auto.
    + by intros ? [].
    + intros c' _ ? []. by split.
    + split; simpl; [done|by rewrite Hn|done|done].
  - destruct (resolve_in_list detached_ok (detached w) i c n nm answer) as [_ Hall]; auto.
    + by intros ? [].
    + intros c' _ ? []. by split.
    + by split.
Qed.

Lemma world_inv_reachable w : world_reachable allowed w -> world_inv w.
Proof.
  intros Hr. eapply (rtc_invariant _ world_inv); [|apply world_inv_init|exact Hr].
  intros ???. by apply world_inv_step.
Qed.
End Preservation.

(** One user action in a run of the world: the action is enabled, its
    handler computed on named steps, and the re-render computed. *)
Ltac world_act e :=
  eapply rtc_l;
  [eapply W_sys;
   [eapply SysAct with (ev := e);
    [|cbv beta iota delta [dispatch]; rewrite ?handleNext_by_name;
      unfold handleNext_named, step_name; simpl; reflexivity]
   |reflexivity];
   simpl; autorewrite with fit_rw; reflexivity|].

(** ** The phases of the mounted cards *)

Lemma rerender_phases st st' cs ds cs' ds' :
  Forall card_phase cs -> rerender st st' cs ds = Some (cs', ds') -> Forall card_phase cs'.
Proof.
  unfold rerender. intros Hp.
  destruct (Nat.eqb (step st') Result), (Nat.eqb (step st) Result);
    try (intros [= <- _]; done).
  destruct (result_cards (workout st')); [|discriminate]. intros [= <- _].
  apply Forall_fmap, Forall_forall. intros ? _. apply card_phase_mount.
Qed.

Section Phases.
Context `{JsonParse}.
Variable allowed : AppState -> Event -> bool.
Hypothesis allowed_callable : forall st ev, allowed st ev = true -> callable st ev = true.

Lemma world_phases_step w w' :
  world_inv w -> Forall card_phase (cards w) -> world_step allowed w w' ->
  Forall card_phase (cards w').
Proof.
  intros [_ _ Hm _] Hp Hstep.
  inversion Hstep as [? s' cs ds Hss Hr | ? i c n nm answer Hi Hin | ]; subst; simpl; [| |done].
  - by eapply rerender_phases.
  - destruct (Forall_lookup_1 _ _ _ _ Hm Hi) as [Hc Ha].
    apply Forall_insert; [done|].
    apply (card_phase_resolve c n nm answer Hc Ha); [|done].
    exact (Forall_lookup_1 _ _ _ _ Hp Hi).
Qed.

Lemma world_phases_reachable w :
  world_reachable allowed w -> world_inv w /\ Forall card_phase (cards w).
Proof.
  intros Hr. eapply (rtc_invariant _ (fun w => world_inv w /\ Forall card_phase (cards w)));
    [|split; [apply world_inv_init|constructor]|exact Hr].
  intros w1 w2 [Hinv Hp] Hs. split.
  - by eapply world_inv_step.
  - by eapply world_phases_step.
Qed.
End Phases.

(** ** Theorems *)

Section Composition.
Context `{JsonParse}.

(** C22: image requests are issued only on the result screen, for the
    exercises of the value it shows: in every reached world, no card is
    mounted outside the result step; on the result step the mounted cards
    are those its render draws, one per element of [exercises], in order,
    with [String(exercise.name)] (none when the value is falsy); and every
    mounted card is alive. *)
Theorem world_cards_follow_plan (allowed : AppState -> Event -> bool) w :
  (forall st ev, allowed st ev = true -> callable st ev = true) ->
  world_reachable allowed w ->
  (step (app (sys w)) <> Result -> cards w = []) /\
  (step (app (sys w)) = Result ->
   result_cards (workout (app (sys w))) = Some (card_name_of <$> cards w)) /\
  Forall (fun c => card_alive (state c) = true) (cards w).
Proof.
  intros Hal Hr. destruct (world_inv_reachable allowed Hal w Hr) as [_ Hc Hm _].
  unfold result_view in Hc. split; [|split].
  - intros Hn. apply Nat.eqb_neq in Hn. rewrite Hn in Hc.
    injection Hc as Hc. by apply fmap_nil_inv with (f := card_name_of).
  - intros HR. by rewrite HR, Nat.eqb_refl in Hc.
  - eapply Forall_impl; [exact Hm|]. by intros ? [].
Qed.

(** C23: once the result screen is left (by "new plan"), the image calls
    its cards started may still settle, but their continuations change
    nothing any unmounted card shows. *)
Theorem detached_resolution_ignored (allowed : AppState -> Event -> bool) w i c n url :
  (forall st ev, allowed st ev = true -> callable st ev = true) ->
  world_reachable allowed w -> detached w !! i = Some c ->
  state (resolve n url c) = state c.
Proof.
  intros Hal Hr Hi. destruct (world_inv_reachable allowed Hal w Hr) as [_ _ _ Hd].
  destruct (Forall_lookup_1 _ _ _ _ Hd Hi) as [Hc Ha].
  apply resolve_inactive; auto.
Qed.

(** The loading screen after the user's choices, with the one call
    outstanding. *)
Definition loading_world (p : UserPreferences) : World :=
  {| sys := {| app := {| step := Loading; prefs := p; workout := JNull; error := None |};
               pending := [p] |};
     cards := []; detached := [] |}.

(** The user's clicks: start, a level, next, a goal, next, a muscle group
    and generate. *)
Lemma loading_run l g m :
  world_reachable ui_enabled
    (loading_world {| level := Some l; goal := Some g; muscleGroup := Some m |}).
Proof.
  unfold world_reachable.
  world_act EvNext. world_act (EvSelectLevel l). world_act EvNext.
  world_act (EvSelectGoal g). world_act EvNext. world_act (EvSelectMuscle m).
  world_act EvNext. apply rtc_refl.
Qed.

(** The settlement of the loading world's call, on [answer]. *)
Lemma loading_settle p answer cs ds :
  rerender (app (sys (loading_world p)))
    (generate_settle (generateWorkoutPlan_settle answer) (app (sys (loading_world p))))
    [] [] = Some (cs, ds) ->
  world_step ui_enabled (loading_world p)
    {| sys := {| app := generate_settle (generateWorkoutPlan_settle answer)
                          (app (sys (loading_world p))); pending := [] |};
       cards := cs; detached := ds |}.
Proof.
  intros Hr. apply W_sys; [|exact Hr].
  by apply (SysSettle ui_enabled (sys (loading_world p)) [] p [] answer).
Qed.

(** The main scenario's run, shared by the scenario theorems. *)
Lemma main_scenario_run l g m answer v plan :
  generateWorkoutPlan_settle answer = Ok v -> plan_of_json v = Some plan ->
  exists w, world_reachable ui_enabled w /\ step (app (sys w)) = Result /\
    prefs (app (sys w)) = {| level := Some l; goal := Some g; muscleGroup := Some m |} /\
    workout (app (sys w)) = v /\ pending (sys w) = [] /\
    cards w = mount <$> (name <$> exercises plan) /\ detached w = [].
Proof.
  intros Hs Hp. eexists. split.
  { eapply rtc_r; [apply loading_run|]. apply loading_settle.
    simpl. rewrite Hs. unfold rerender. simpl.
    rewrite (result_cards_plan _ _ Hp). reflexivity. }
  simpl. rewrite Hs. repeat split; reflexivity.
Qed.

(** C24: the main scenario, end to end: from the start screen, the user
    clicks "start", picks a level, "next", a goal, "next", a muscle group
    and "generate"; when the service answers with a value that reads as a
    plan, the world reaches the result screen with the chosen preferences
    and that plan, no call outstanding, and one freshly mounted card per
    exercise, in order, each with its single image request for the
    exercise's name. *)
Theorem generation_mounts_cards l g m answer v plan :
  generateWorkoutPlan_settle answer = Ok v -> plan_of_json v = Some plan ->
  exists w, world_reachable ui_enabled w /\ step (app (sys w)) = Result /\
    prefs (app (sys w)) = {| level := Some l; goal := Some g; muscleGroup := Some m |} /\
    workout (app (sys w)) = v /\ pending (sys w) = [] /\
    cards w = mount <$> (name <$> exercises plan) /\ detached w = [].
Proof. apply main_scenario_run. Qed.
(** C27: the failure scenario, end to end: when the service call fails
    (on any error of the gateway), the world reaches the error screen with
    the fixed message, no plan and no card; from there "retry" and
    "generate" reach the loading screen again with the error cleared and
    exactly one new call outstanding, with the same preferences. *)
Theorem failure_retry_regenerates l g m answer e :
  generateWorkoutPlan_settle answer = Err e ->
  let p := {| level := Some l; goal := Some g; muscleGroup := Some m |} in
  exists w1 w2, world_reachable ui_enabled w1 /\
    step (app (sys w1)) = Error /\ error (app (sys w1)) = Some generation_error_message /\
    workout (app (sys w1)) = JNull /\ pending (sys w1) = [] /\ cards w1 = [] /\
    rtc (world_step ui_enabled) w1 w2 /\
    step (app (sys w2)) = Loading /\ error (app (sys w2)) = None /\ pending (sys w2) = [p] /\
    prefs (app (sys w2)) = p.
Proof.
  intros Hs p. eexists _, _. split.
  { eapply rtc_r; [apply loading_run|]. apply loading_settle.
    simpl. rewrite Hs. reflexivity. }
  simpl. rewrite Hs. do 5 (split; [reflexivity|]). split.
  { world_act EvRetry. world_act EvNext. apply rtc_refl. }
  repeat split; reflexivity.
Qed.
(** C28: the life of every card on the result screen: it shows the
    spinner ("Gerando visual...") exactly while the single image request
    of its run is outstanding, for its own exercise's name; once that
    request settled it has nothing outstanding and shows the image or the
    placeholder ("Sem imagem") for good. *)
Theorem card_lifecycle (allowed : AppState -> Event -> bool) w :
  (forall st ev, allowed st ev = true -> callable st ev = true) ->
  world_reachable allowed w ->
  Forall (fun c => (card_view (state c) = ShowSpinner /\
                    requests c = [(current c, card_name_of c)]) \/
                   (card_view (state c) <> ShowSpinner /\ requests c = [])) (cards w).
Proof.
  intros Hal Hr. destruct (world_phases_reachable allowed Hal w Hr) as [_ Hp].
  eapply Forall_impl; [exact Hp|]. intros c [(Hl & _ & Hq)|(Hl & Hq)].
  - left. unfold card_view. by rewrite Hl.
  - right. split; [|done]. unfold card_view. rewrite Hl.
    destruct (card_image (state c)) as [u|]; [destruct (truthy u)|]; discriminate.
Qed.

(** C29: an image call that fails (or returns no image) for one exercise
    affects that exercise's card only: the settlement is a step of the
    world that leaves the wizard (plan, preferences, step) and every other
    card as they were, and the card then shows the placeholder; a call
    that returns an image shows it. *)
Theorem image_settlement_isolated (allowed : AppState -> Event -> bool) w i c n nm answer :
  (forall st ev, allowed st ev = true -> callable st ev = true) ->
  world_reachable allowed w -> cards w !! i = Some c -> In (n, nm) (requests c) ->
  let c' := resolve n (generateExerciseImage_settle answer) c in
  let w' := {| sys := sys w; cards := <[i := c']> (cards w); detached := detached w |} in
  world_step allowed w w' /\ sys w' = sys w /\
  (forall j, j <> i -> cards w' !! j = cards w !! j) /\ cards w' !! i = Some c' /\
  card_view (state c') = match generateExerciseImage_settle answer with
                         | Some u => ShowImage u
                         | None => ShowPlaceholder
                         end.
Proof.
  intros Hal Hr Hi Hin c' w'.
  destruct (world_phases_reachable allowed Hal w Hr) as [[_ _ Hm _] Hp].
  destruct (Forall_lookup_1 _ _ _ _ Hm Hi) as [Hc Ha].
  split; [by eapply W_card|]. split; [done|]. split; [|split].
  - intros j Hj. simpl. by rewrite list_lookup_insert_ne.
  - simpl. apply list_lookup_insert_eq. by eapply lookup_lt_Some.
  - apply (card_phase_resolve c n nm answer Hc Ha); [|done].
    exact (Forall_lookup_1 _ _ _ _ Hp Hi).
Qed.
End Composition.

(** ** Witnesses *)

(** A service whose every text parses as the sample plan of [Schema.v]. *)
Definition plan_parser : JsonParse := fun _ => Some (plan_to_json sample_plan).

(** The world after the main scenario on the sample plan: the result
    screen with the sample plan's card mounted. *)
Definition sample_result_world : World :=
  {| sys := {| app := {| step := Result;
                         prefs := {| level := Some Iniciante; goal := Some Hipertrofia;
                                     muscleGroup := Some Peito |};
                         workout := plan_to_json sample_plan; error := None |};
               pending := [] |};
     cards := mount <$> (name <$> exercises sample_plan); detached := [] |}.

Lemma sample_result_world_reachable :
  @world_reachable plan_parser ui_enabled sample_result_world.
Proof.
  unfold world_reachable.
  world_act EvNext. world_act (EvSelectLevel Iniciante). world_act EvNext.
  world_act (EvSelectGoal Hipertrofia). world_act EvNext. world_act (EvSelectMuscle Peito).
  world_act EvNext.
  eapply rtc_l.
  { eapply W_sys; [eapply SysSettle with (ps1 := []) (ps2 := [])
                     (answer := Ok (text_response "{}")); reflexivity|reflexivity]. }
  apply rtc_refl.
Qed.

(** The same world after "new plan": back at the start, the sample plan's
    card unmounted. *)
Definition sample_after_new_plan : World :=
  {| sys := sys_init; cards := [];
     detached := unmount <$> (mount <$> (name <$> exercises sample_plan)) |}.

Lemma sample_after_new_plan_reachable :
  @world_reachable plan_parser ui_enabled sample_after_new_plan.
Proof.
  eapply rtc_trans; [apply sample_result_world_reachable|].
  world_act EvBack. apply rtc_refl.
Qed.

Lemma world_cards_follow_plan_witness :
  (step (app (sys world_init)) <> Result -> cards world_init = []) /\
  (step (app (sys world_init)) = Result ->
   result_cards (workout (app (sys world_init))) = Some (card_name_of <$> cards world_init)) /\
  Forall (fun c => card_alive (state c) = true) (cards world_init).
Proof.
  apply (@world_cards_follow_plan null_only_parser ui_enabled world_init ui_enabled_callable).
  apply rtc_refl.
Defined.

Lemma detached_resolution_ignored_witness :
  detached sample_after_new_plan !! 0 = Some (unmount (mount (name sample_exercise))) /\
  state (resolve 0 (Some "data:image/png;base64,AAAA") (unmount (mount (name sample_exercise))))
  = state (unmount (mount (name sample_exercise))).
Proof.
  split; [reflexivity|].
  apply (@detached_resolution_ignored plan_parser ui_enabled sample_after_new_plan 0);
    [apply ui_enabled_callable|apply sample_after_new_plan_reachable|reflexivity].
Defined.

Lemma generation_mounts_cards_witness :
  exists w, @world_reachable plan_parser ui_enabled w /\ step (app (sys w)) = Result /\
    prefs (app (sys w)) = {| level := Some Iniciante; goal := Some Hipertrofia;
                             muscleGroup := Some Peito |} /\
    workout (app (sys w)) = plan_to_json sample_plan /\ pending (sys w) = [] /\
    cards w = mount <$> (name <$> exercises sample_plan) /\ detached w = [].
Proof.
  apply (@generation_mounts_cards plan_parser Iniciante Hipertrofia Peito
           (Ok (text_response "{}")) (plan_to_json sample_plan) sample_plan);
    reflexivity.
Defined.

Lemma failure_retry_regenerates_witness :
  let p := {| level := Some Avancado; goal := Some Resistencia; muscleGroup := Some Costas |} in
  exists w1 w2, @world_reachable null_only_parser ui_enabled w1 /\
    step (app (sys w1)) = Error /\ error (app (sys w1)) = Some generation_error_message /\
    workout (app (sys w1)) = JNull /\ pending (sys w1) = [] /\ cards w1 = [] /\
    rtc (@world_step null_only_parser ui_enabled) w1 w2 /\
    step (app (sys w2)) = Loading /\ error (app (sys w2)) = None /\ pending (sys w2) = [p] /\
    prefs (app (sys w2)) = p.
Proof.
  exact (@failure_retry_regenerates null_only_parser Avancado Resistencia Costas
           (Err "quota exceeded") (ServiceError "quota exceeded") eq_refl).
Defined.

Lemma card_lifecycle_witness :
  Forall (fun c => (card_view (state c) = ShowSpinner /\
                    requests c = [(current c, card_name_of c)]) \/
                   (card_view (state c) <> ShowSpinner /\ requests c = []))
         (cards sample_result_world).
Proof.
  apply (@card_lifecycle plan_parser ui_enabled sample_result_world ui_enabled_callable).
  apply sample_result_world_reachable.
Defined.

Lemma image_settlement_isolated_witness :
  let c := mount (name sample_exercise) in
  let c' := resolve 0 (generateExerciseImage_settle (Err "quota exceeded")) c in
  let w' := {| sys := sys sample_result_world; cards := <[0 := c']> (cards sample_result_world);
               detached := detached sample_result_world |} in
  cards sample_result_world !! 0 = Some c /\ In (0, name sample_exercise) (requests c) /\
  @world_step plan_parser ui_enabled sample_result_world w' /\ sys w' = sys sample_result_world /\
  (forall j, j <> 0 -> cards w' !! j = cards sample_result_world !! j) /\
  cards w' !! 0 = Some c' /\
  card_view (state c') = match generateExerciseImage_settle (Err "quota exceeded") with
                         | Some u => ShowImage u
                         | None => ShowPlaceholder
                         end.
Proof.
  intros c c' w'.
  assert (In (0, name sample_exercise) (requests c)) as Hin by (simpl; auto).
  split; [reflexivity|]. split; [exact Hin|].
  exact (@image_settlement_isolated plan_parser ui_enabled sample_result_world 0 c 0
           (name sample_exercise) (Err "quota exceeded") ui_enabled_callable
           sample_result_world_reachable eq_refl Hin).
Defined.
