(* ===== verification/Settlement.v ===== *)
(** * Settlement without user input: termination and quiescence

    With no user action, the application still moves: the outstanding
    [generateWorkoutPlan] call settles (moving the wizard to Result or
    Error, and mounting the result screen's cards), and the image calls of
    the cards, mounted or already unmounted, settle.  These are the steps
    of [world_step] (System.v) with no action allowed: [settle_step].

    Theorems: every sequence of settlements is finite ([sn], strong
    normalisation, in stdpp's sense), whatever the service answers; a world
    admits no further settlement exactly when no call is outstanding; and
    from every world some sequence of settlements reaches such a world.
    The measure is lexicographic: a plan settlement removes an outstanding
    plan call (and may mount any number of cards, each with one image
    request); an image settlement removes one image request. *)

From stdpp Require Import list_numbers.
From S2P Require Import Prelude Types Json Schema Gemini Wizard ExerciseCard System.
Open Scope fit_scope.

(** No user action is enabled. *)
Definition no_action : AppState -> Event -> bool := fun _ _ => false.

(** The image requests outstanding in a world, on and off screen. *)
Definition outstanding (w : World) : nat :=
  sum_list_with (fun c => length (requests c)) (cards w ++ detached w).

(** No call of either kind is outstanding. *)
Definition idle (w : World) : Prop :=
  pending (sys w) = [] /\ Forall (fun c => requests c = []) (cards w ++ detached w).

Section Settle.
Context `{JsonParse}.

Definition settle_step : World -> World -> Prop := world_step no_action.

(** ** The measure *)

Lemma sum_list_with_insert_lt {A} (f : A -> nat) (l : list A) i x y :
  l !! i = Some x -> f y < f x -> sum_list_with f (<[i := y]> l) < sum_list_with f l.
Proof.
  revert i. induction l as [|z l IH]; intros [|i]; simpl; try discriminate.
  - intros [= ->]. lia.
  - intros Hi Hlt. specialize (IH i Hi Hlt). lia.
Qed.

(** A continuation removes the request it settles. *)
Lemma resolve_requests_lt c n nm url :
  In (n, nm) (requests c) -> length (requests (resolve n url c)) < length (requests c).
Proof.
  intros Hin. simpl. apply (length_filter_lt _ _ (n, nm)); [|simpl; by intros ?].
  by apply list_elem_of_In.
Qed.

Lemma settle_step_measure w w' :
  settle_step w w' ->
  length (pending (sys w')) < length (pending (sys w)) \/
  (length (pending (sys w')) = length (pending (sys w)) /\ outstanding w' < outstanding w).
Proof.
  intros Hs. inversion Hs as [? s' cs ds Hss Hr | ? i c n nm answer Hi Hin
                             | ? i c n nm answer Hi Hin]; subst.
  - left. inversion Hss as [? ev st' req Ha | ? ps1 p ps2 answer Hpe]; subst; [discriminate|].
    simpl. rewrite Hpe, !length_app. simpl. lia.
  - right. split; [done|]. unfold outstanding; simpl. rewrite !sum_list_with_app.
    pose proof (sum_list_with_insert_lt (fun c => length (requests c)) (cards w) i c _ Hi
                  (resolve_requests_lt c n nm (generateExerciseImage_settle answer) Hin)).
    lia.
  - right. split; [done|]. unfold outstanding; simpl. rewrite !sum_list_with_app.
    pose proof (sum_list_with_insert_lt (fun c => length (requests c)) (detached w) i c _ Hi
                  (resolve_requests_lt c n nm (generateExerciseImage_settle answer) Hin)).
    lia.
Qed.

Lemma settle_sn w : sn settle_step w.
Proof.
  remember (length (pending (sys w))) as k eqn:Hk. revert w Hk.
  induction k as [k IHk] using (well_founded_induction lt_wf). intros w Hk.
  revert Hk. induction w as [w IHw] using (well_founded_induction (Nat.lt_wf_0_projected outstanding)).
  intros Hk. constructor. intros w' Hs.
  destruct (settle_step_measure w w' Hs) as [Hlt|[Heq Hlt]].
  - apply (IHk (length (pending (sys w')))); [lia|done].
  - apply IHw; [done|lia].
Qed.

(** ** Idle worlds *)

(** An outstanding plan call can always settle (with an error answer,
    which leads to the error screen, where no card is mounted). *)
Lemma settle_pending w p ps :
  pending (sys w) = p :: ps -> exists w', settle_step w w'.
Proof.
  intros Hp.
  set (st' := generate_settle (generateWorkoutPlan_settle (Err "")) (app (sys w))).
  assert (exists cs ds, rerender (app (sys w)) st' (cards w) (detached w) = Some (cs, ds))
    as (cs & ds & Hr).
  { unfold rerender, st'. simpl.
    case_match; do 2 eexists; reflexivity. }
  eexists. apply (W_sys no_action w {| app := st'; pending := ([] ++ ps)%list |} cs ds);
    [|exact Hr].
  by apply (SysSettle no_action (sys w) [] p ps (Err "")).
Qed.

(** An outstanding image request of a card can always settle. *)
Lemma settle_request w :
  ~ Forall (fun c => requests c = []) (cards w ++ detached w) -> exists w', settle_step w w'.
Proof.
  intros Hnot. apply not_Forall_Exists in Hnot; [|intros ?; apply _].
  apply Exists_exists in Hnot as (c & Hc & Hne). apply elem_of_app in Hc.
  destruct (requests c) as [|[n nm] rs] eqn:Hreq; [done|].
  assert (In (n, nm) (requests c)) as Hin by (rewrite Hreq; left; done).
  destruct Hc as [Hc|Hc]; apply list_elem_of_lookup in Hc as [i Hi].
  - eexists. by eapply (W_card no_action w i c n nm (Err "")).
  - eexists. by eapply (W_detached no_action w i c n nm (Err "")).
Qed.

Lemma idle_dec w : Decision (idle w).
Proof. unfold idle. apply _. Qed.

Lemma nf_idle w : nf settle_step w <-> idle w.
Proof.
  split.
  - intros Hnf. split.
    + destruct (pending (sys w)) as [|p ps] eqn:Hp; [done|].
      destruct (settle_pending w p ps Hp). destruct Hnf. eauto.
    + destruct (decide (Forall (fun c => requests c = []) (cards w ++ detached w)))
        as [|Hnot]; [done|].
      destruct (settle_request w Hnot). destruct Hnf. eauto.
  - intros [Hp Hreq] [w' Hs].
    inversion Hs as [? s' cs ds Hss Hr | ? i c n nm answer Hi Hin
                    | ? i c n nm answer Hi Hin]; subst.
    + inversion Hss as [? ev st' req Ha | ? ps1 p ps2 answer Hpe]; subst; [discriminate|].
      rewrite Hp in Hpe. by destruct ps1.
    + rewrite Forall_app in Hreq. destruct Hreq as [Hreq _].
      rewrite (Forall_lookup_1 _ _ _ _ Hreq Hi) in Hin. done.
    + rewrite Forall_app in Hreq. destruct Hreq as [_ Hreq].
      rewrite (Forall_lookup_1 _ _ _ _ Hreq Hi) in Hin. done.
Qed.

Lemma settle_wn w : exists w', rtc settle_step w w' /\ idle w'.
Proof.
  induction (settle_sn w) as [w _ IH].
  destruct (idle_dec w) as [Hi|Hni]; [exists w; split; [apply rtc_refl|done]|].
  assert (red settle_step w) as [w1 Hs1].
  { destruct (pending (sys w)) as [|p ps] eqn:Hp.
    - apply settle_request. intros Hreq. by apply Hni.
    - by apply (settle_pending w p ps). }
  destruct (IH w1 Hs1) as (w' & Hr & Hid). exists w'. split; [|done]. by eapply rtc_l.
Qed.
End Settle.

(** ** Theorems *)

Section SettleTheorems.
Context `{JsonParse}.

(** C31: settlement terminates: from any world, whatever the service
    answers to each call, every sequence of settlements (of the plan call
    and of the image calls, on screen or unmounted) is finite, even though
    a plan settlement mounts one new image request per exercise. *)
Theorem settlements_terminate w : sn settle_step w.
Proof. apply settle_sn. Qed.

(** Quiescence: a world admits no further settlement exactly when no
    plan call and no image request is outstanding, and from every world
    some sequence of settlements reaches such an idle world. *)
Theorem settlements_quiesce w :
  (nf settle_step w <-> idle w) /\ exists w', rtc settle_step w w' /\ idle w'.
Proof. split; [apply nf_idle|apply settle_wn]. Qed.
End SettleTheorems.
