(* ===== verification/Render.v ===== *)
(** * What the application draws: [App]'s render and the exercise details

    [App]'s render (App.tsx, lines 178-226) draws the header (unless on
    Intro, lines 182-188), the progress bar (on the selection steps, lines
    190-193, with the width string of ProgressBar.tsx line 17), and one
    section per [step === AppStep.X && renderX()] conjunct (lines 197-223):
    the intro (lines 58-75), a selection screen (Selection.v), the loading
    screen (lines 106-115), the error screen (lines 117-124) and the result
    screen (lines 126-176, with one [ExerciseCard] per exercise whose
    details are drawn by ExerciseCard.tsx lines 36-70).

    A [ButtonView] is a [Button] of the render with its label, the event
    its [onClick] fires and whether it is enabled ([Button] itself is not
    in [src/]; a disabled button is taken not to fire).  The result screen
    is followed for a falsy [workout] (it renders nothing) and for a value
    that reads as a [WorkoutPlan]; on any other value [app_view] answers
    [None], and ResultRender.v follows the result screen there.  The
    typed result screen refines that render wherever it is defined
    ([renderResult_js_refines]).

    Theorems: the controls the render shows are exactly the actions
    [ui_enabled] (Wizard.v) allows, so the runs of [Wizard.v] and
    [System.v] are the runs of the rendered page; in every reached state
    exactly one section is drawn, the header and the progress bar appear on
    the steps the spec names, with the widths "0%", "50%", "100%". *)

From stdpp Require Import pretty.
From S2P Require Import Prelude Types Json Schema ResultRender Gemini Wizard ProgressBar Selection ExerciseCard System Settlement.
From Stdlib Require Import QArith.
Open Scope fit_scope.

Record ButtonView := {
  b_label : string;
  b_event : Event;
  b_enabled : bool
}.

(** One exercise card's details: the badge [index + 1] (line 42), the
    name (line 44), sets, reps and rest (lines 47-60), the notes (line 64). *)
Record ExerciseDetails := {
  ed_badge : nat;
  ed_name : string;
  ed_sets : string;
  ed_reps : string;
  ed_rest : string;
  ed_notes : string
}.

Definition exercise_details (x : Exercise) (index : nat) : ExerciseDetails := {|
  ed_badge := index + 1; ed_name := name x; ed_sets := sets x; ed_reps := reps x;
  ed_rest := rest x; ed_notes := notes x
|}.

Record ResultView := {
  rv_title : string;
  rv_duration : string;
  rv_frequency : string;
  rv_description : string;
  rv_warmup : list string;
  rv_cooldown : list string;
  rv_exercises : list ExerciseDetails;
  rv_button : ButtonView
}.

Inductive MainView :=
| VIntro (b : ButtonView)
| VSelection (v : SelectionView) (clicks : list Event) (back next : ButtonView)
| VLoading (title : string)
| VError (message : option string) (b : ButtonView)
| VResult (r : option ResultView).

Record AppView := {
  av_header : bool;
  av_progress_width : option string;
  av_main : list MainView
}.

(** [String(x)] for the numbers the bar can show: integers in decimal,
    and [NaN]; other numbers (fractions, infinities) are not followed. *)
Definition js_number_string (x : jsnum) : option string :=
  match x with
  | Fin q => let r := Qred q in
             if Pos.eqb (Qden r) 1 then Some (pretty (Qnum r)) else None
  | NaN => Some "NaN"
  | _ => None
  end.

(** ProgressBar.tsx line 17: [style={{ width: `${percentage}%` }}]. *)
Definition progress_width (x : jsnum) : option string :=
  (fun s => s ++ "%") <$> js_number_string x.

(** Lines 58-75. *)
Definition renderIntro : MainView :=
  VIntro {| b_label := "Começar Agora"; b_event := EvNext; b_enabled := true |}.

(** The selection screen with its controls, lines 87-101: a click per
    card, "Voltar" ([handleBack]) and the next button ([handleNext],
    disabled while nothing is selected). *)
Definition selection_section (st : AppState) (v : SelectionView) : MainView :=
  VSelection v (omap (click st) (fst <$> sv_cards v))
    {| b_label := "Voltar"; b_event := EvBack; b_enabled := true |}
    {| b_label := sv_next_label v; b_event := EvNext; b_enabled := sv_next_enabled v |}.

(** Lines 106-115. *)
Definition renderLoading : MainView := VLoading "Criando seu treino...".

(** Lines 117-124: the message, and the retry button. *)
Definition renderError (st : AppState) : MainView :=
  VError (error st)
    {| b_label := "Tentar Novamente"; b_event := EvRetry; b_enabled := true |}.

(** Lines 126-176 on a plan, with the cards' details (lines 164-166). *)
Definition result_of_plan (p : WorkoutPlan) : ResultView := {|
  rv_title := title p; rv_duration := estimatedDuration p;
  rv_frequency := frequencyRecommendation p; rv_description := description p;
  rv_warmup := warmup p; rv_cooldown := cooldown p;
  rv_exercises := imap (fun idx x => exercise_details x idx) (exercises p);
  rv_button := {| b_label := "Criar Novo Treino"; b_event := EvBack; b_enabled := true |}
|}.

(** Line 127: [if (!workout) return null]. *)
Definition renderResult (v : json) : option MainView :=
  if negb (truthy v) then Some (VResult None)
  else (fun p => VResult (Some (result_of_plan p))) <$> plan_of_json v.

(** Lines 178-226. *)
Definition app_view (st : AppState) : option AppView :=
  let when (b : bool) (m : MainView) : list MainView := if b then [m] else [] in
  let result := if Nat.eqb (step st) Result then (fun m => [m]) <$> renderResult (workout st)
                else Some [] in
  match result with
  | None => None
  | Some r =>
      Some {| av_header := Nat.ltb Intro (step st);
              av_progress_width := progress_bar st ≫= progress_width;
              av_main := (when (Nat.eqb (step st) Intro) renderIntro ++
                          option_list (selection_section st <$> selection_screen st) ++
                          when (Nat.eqb (step st) Loading) renderLoading ++
                          when (Nat.eqb (step st) Error) (renderError st) ++ r)%list |}
  end.

(** The events the controls of a section fire. *)
Definition button_events (b : ButtonView) : list Event :=
  if b_enabled b then [b_event b] else [].

Definition section_controls (m : MainView) : list Event :=
  match m with
  | VIntro b => button_events b
  | VSelection _ clicks back next => (clicks ++ button_events back ++ button_events next)%list
  | VLoading _ => []
  | VError _ b => button_events b
  | VResult None => []
  | VResult (Some rv) => button_events (rv_button rv)
  end.

Definition view_controls (av : AppView) : list Event :=
  av_main av ≫= section_controls.

(** The typed result screen read as the text it puts on screen (a string
    child draws itself), for comparison with ResultRender.v. *)
Definition card_of_details (d : ExerciseDetails) : CardText := {|
  ct_request := ed_name d; ct_badge := ed_badge d; ct_name := [ed_name d];
  ct_sets := [ed_sets d]; ct_reps := [ed_reps d]; ct_rest := [ed_rest d];
  ct_notes := [ed_notes d] |}.

Definition text_of_view (r : ResultView) : ResultText := {|
  rt_title := [rv_title r]; rt_duration := [rv_duration r];
  rt_frequency := [rv_frequency r]; rt_description := [rv_description r];
  rt_warmup := (fun s => [s]) <$> rv_warmup r; rt_cooldown := (fun s => [s]) <$> rv_cooldown r;
  rt_cards := card_of_details <$> rv_exercises r |}.

(** ** Lemmas *)

Section Clicks.
Context `{StringEnum A}.
Hypothesis values_NoDup : NoDup (enum_values A).
Hypothesis members_complete : forall x : A, x ∈ enum_members A.

(** The clicks of an enum's cards are one event per member. *)
Lemma omap_enum_of_value {B} (f : A -> B) :
  omap (fun opt => f <$> enum_of_value opt) (enum_values A) = f <$> enum_members A.
Proof.
  pose proof (enum_of_value_value values_NoDup members_complete) as Hv.
  unfold enum_values. clear members_complete values_NoDup.
  induction (enum_members A) as [|x xs IH]; [done|]. simpl. rewrite Hv. simpl. by f_equal.
Qed.

Lemma elem_of_members_fmap {B} (f : A -> B) y :
  y ∈ f <$> enum_members A <-> exists x, y = f x.
Proof.
  rewrite list_elem_of_fmap. split; [naive_solver|]. intros [x ->]. eauto.
Qed.
End Clicks.

Lemma selection_clicks st :
  (step st = SelectLevel ->
   omap (click st) (enum_values ExperienceLevel) = EvSelectLevel <$> enum_members ExperienceLevel) /\
  (step st = SelectGoal ->
   omap (click st) (enum_values FitnessGoal) = EvSelectGoal <$> enum_members FitnessGoal) /\
  (step st = SelectMuscle ->
   omap (click st) (enum_values MuscleGroup) = EvSelectMuscle <$> enum_members MuscleGroup).
Proof.
  unfold click. split_and!; intros Hs; rewrite Hs.
  - apply (omap_enum_of_value ExperienceLevel_values_NoDup ExperienceLevel_listed EvSelectLevel).
  - apply (omap_enum_of_value FitnessGoal_values_NoDup FitnessGoal_listed EvSelectGoal).
  - apply (omap_enum_of_value MuscleGroup_values_NoDup MuscleGroup_listed EvSelectMuscle).
Qed.

Lemma selection_controls_elem {A} (f : A -> Event) (ms : list A) (b : bool) ev :
  ev ∈ ((f <$> ms) ++ [EvBack] ++ (if b then [EvNext] else []))%list <->
  ev ∈ f <$> ms \/ ev = EvBack \/ (b = true /\ ev = EvNext).
Proof. destruct b; set_solver. Qed.

Lemma truthy_value_fmap :
  (forall sel : option ExperienceLevel, truthy (ExperienceLevel_value <$> sel) = truthy sel) /\
  (forall sel : option FitnessGoal, truthy (FitnessGoal_value <$> sel) = truthy sel) /\
  (forall sel : option MuscleGroup, truthy (MuscleGroup_value <$> sel) = truthy sel).
Proof. split_and!; intros []; reflexivity. Qed.

Lemma selection_section_controls st v ev : selection_screen st = Some v ->
  ev ∈ section_controls (selection_section st v) <-> ui_enabled st ev = true.
Proof.
  pose proof (selection_clicks st) as (Hl & Hg & Hm).
  selection_step st;
  unfold selection_section, section_controls, renderSelection, button_events;
  cbn [sv_cards sv_next_enabled sv_next_label b_enabled b_event]; rewrite fst_pairs;
  [rewrite Hl by reflexivity|rewrite Hg by reflexivity|rewrite Hm by reflexivity];
  rewrite selection_controls_elem, elem_of_members_fmap by eauto with fit;
  rewrite ?(proj1 truthy_value_fmap), ?(proj1 (proj2 truthy_value_fmap)),
    ?(proj2 (proj2 truthy_value_fmap));
  clear Hl Hg Hm; destruct ev; simpl;
  repeat match goal with |- context [truthy ?x] => destruct (truthy x) end; naive_solver.
Qed.

Lemma selection_screen_step st v :
  selection_screen st = Some v -> step st = SelectLevel \/ step st = SelectGoal \/ step st = SelectMuscle.
Proof.
  unfold selection_screen.
  destruct (Nat.eqb_spec (step st) SelectLevel); [auto|].
  destruct (Nat.eqb_spec (step st) SelectGoal); [auto|].
  destruct (Nat.eqb_spec (step st) SelectMuscle); [auto|done].
Qed.

(** ** Theorems *)

(** The page offers exactly the actions the model lets the user
    take: in every state whose render the model follows, an event is fired
    by one of the drawn, enabled controls (a button or a selection card)
    exactly when [ui_enabled] allows it.  So [ui_enabled], which the runs of
    [Wizard.v] and [System.v] use as the user's possible actions, is the
    render's set of controls and not an assumption. *)
Theorem view_controls_ui_enabled st av ev :
  app_view st = Some av -> ev ∈ view_controls av <-> ui_enabled st ev = true.
Proof.
  intros Hv. destruct (selection_screen st) as [v|] eqn:Hs.
  - pose proof (selection_screen_step st v Hs) as Hstep.
    unfold app_view in Hv. rewrite Hs in Hv.
    assert (av_main av = [selection_section st v]) as Hm.
    { destruct Hstep as [Hn|[Hn|Hn]]; rewrite Hn in Hv; simpl in Hv; by injection Hv as <-. }
    unfold view_controls. rewrite Hm. simpl. rewrite app_nil_r.
    by apply selection_section_controls.
  - destruct st as [n pr w e]. unfold app_view in Hv. rewrite Hs in Hv.
    destruct n as [|[|[|[|[|[|[|n]]]]]]]; simpl in Hs; try discriminate Hs;
      unfold renderResult in Hv; simpl in Hv.
    3: destruct (truthy w) eqn:Ht; simpl in Hv;
         [destruct (plan_of_json w) eqn:Hp; simpl in Hv|].
    all: try discriminate Hv; injection Hv as <-; unfold view_controls; simpl.
    all: try (pose proof (result_drawn_plan _ _ Hp) as Hd);
         try (pose proof (result_drawn_falsy _ Ht) as Hd).
    all: destruct ev; cbn -[result_drawn]; rewrite ?Hd; set_solver.
Qed.

(** The width the progress bar shows on each step. *)
Definition expected_width (st : AppState) : option string :=
  match step_name st with
  | Some SelectLevel => Some "0%"
  | Some SelectGoal => Some "50%"
  | Some SelectMuscle => Some "100%"
  | _ => None
  end.

(** C32: in every state satisfying the wizard invariant (so in every
    reached state) whose render the model follows, exactly one section is
    drawn; the header is shown on every step but Intro; the progress bar
    is shown on the three selection steps only, with widths "0%", "50%"
    and "100%"; and the error screen shows the fixed message with its
    retry button. *)
Theorem app_view_layout (s : Sys) av :
  wizard_inv s -> app_view (app s) = Some av ->
  length (av_main av) = 1%nat /\ av_header av = negb (Nat.eqb (step (app s)) Intro) /\
  av_progress_width av = expected_width (app s) /\
  (step (app s) = Error ->
   av_main av = [VError (Some generation_error_message)
                   {| b_label := "Tentar Novamente"; b_event := EvRetry; b_enabled := true |}]).
Proof.
  intros Hinv Hv. pose proof (inv_range _ Hinv) as Hr. pose proof (inv_error _ Hinv) as He.
  destruct s as [[n pr w e] pend]; simpl in *.
  destruct n as [|[|[|[|[|[|[|n]]]]]]]; try lia; unfold app_view, renderResult in Hv;
    simpl in Hv.
  6: destruct (truthy w); simpl in Hv; [destruct (plan_of_json w); simpl in Hv|].
  all: try discriminate Hv; injection Hv as <-; simpl.
  all: split_and!; try reflexivity; try (intros; discriminate).
  intros _. by rewrite He.
Qed.

Lemma badges_imap (l : list Exercise) k :
  ed_badge <$> imap (fun idx x => exercise_details x (k + idx)) l = seq (k + 1) (length l).
Proof.
  revert k. induction l as [|x l IH]; intros k; [done|]. simpl.
  f_equal; try lia.
  transitivity (ed_badge <$> imap (fun idx x => exercise_details x (S k + idx)) l).
  - f_equal. apply imap_ext. intros i y _. simpl. by rewrite Nat.add_succ_r.
  - by rewrite IH.
Qed.

Lemma names_imap (l : list Exercise) :
  ed_name <$> imap (fun idx x => exercise_details x idx) l = name <$> l.
Proof.
  rewrite fmap_imap, <-(imap_const name). by apply imap_ext.
Qed.

(** The details card [d] shows the fields of the JSON exercise [x]. *)
Definition shows_exercise (x : json) (d : ExerciseDetails) : Prop :=
  js_get x "name" = Some (JStr (ed_name d)) /\ js_get x "sets" = Some (JStr (ed_sets d)) /\
  js_get x "reps" = Some (JStr (ed_reps d)) /\ js_get x "rest" = Some (JStr (ed_rest d)) /\
  js_get x "notes" = Some (JStr (ed_notes d)).

Lemma as_string_JStr o s : o ≫= as_string = Some s -> o = Some (JStr s).
Proof. destruct o as [[]|]; simpl; congruence. Qed.

Lemma as_strings_JStr o ws : o ≫= as_array as_string = Some ws -> o = Some (JArr (JStr <$> ws)).
Proof.
  destruct o as [[| | | |xs|]|]; simpl; try discriminate. intros H. do 2 f_equal.
  apply mapM_Some_1 in H. induction H as [|x w xs ws Hx _ IH]; [done|].
  destruct x; try discriminate. injection Hx as ->. simpl. by rewrite IH.
Qed.

Lemma exercise_of_json_shows x e k : exercise_of_json x = Some e -> shows_exercise x (exercise_details e k).
Proof.
  unfold exercise_of_json. intros H. repeat (apply bind_Some in H as (? & ? & H)).
  injection H as <-. unfold shows_exercise; simpl.
  repeat match goal with Hs : _ ≫= as_string = Some _ |- _ => apply as_string_JStr in Hs end.
  naive_solver.
Qed.

Lemma exercises_shown xs es k :
  mapM exercise_of_json xs = Some es ->
  Forall2 shows_exercise xs (imap (fun idx x => exercise_details x (k + idx)) es).
Proof.
  intros H. apply mapM_Some_1 in H. revert k.
  induction H as [|x e xs es Hx _ IH]; intros k; [constructor|].
  rewrite imap_cons. constructor; [by apply exercise_of_json_shows|].
  match goal with |- Forall2 _ _ (imap ?f es) =>
    assert (imap f es = imap (fun idx x => exercise_details x (S k + idx)) es) as ->
  end; [|apply IH].
  apply imap_ext. intros. simpl. by rewrite Nat.add_succ_r.
Qed.

(** C33: the result screen shows the JSON value it stores, in its order:
    the title, the warm-up and cool-down arrays element by element, and
    one details card per element of the [exercises] array, in the array's
    order, showing that element's name, sets, reps, rest and notes,
    numbered 1 to n by the badges; and the details card at each position
    names the same exercise as the image card mounted there, so the image
    each card loads is that of the exercise it describes. *)
Theorem result_screen_content v rv :
  renderResult v = Some (VResult (Some rv)) ->
  js_get v "title" = Some (JStr (rv_title rv)) /\
  js_get v "warmup" = Some (JArr (JStr <$> rv_warmup rv)) /\
  js_get v "cooldown" = Some (JArr (JStr <$> rv_cooldown rv)) /\
  (exists xs, js_get v "exercises" = Some (JArr xs) /\ Forall2 shows_exercise xs (rv_exercises rv)) /\
  ed_badge <$> rv_exercises rv = seq 1 (length (rv_exercises rv)) /\
  result_cards v = Some (ed_name <$> rv_exercises rv).
Proof.
  unfold renderResult. destruct (truthy v); simpl; [|discriminate].
  destruct (plan_of_json v) as [p|] eqn:Hp; simpl; [|discriminate]. intros [= <-].
  rewrite (result_cards_plan _ _ Hp). pose proof Hp as Hp'.
  unfold plan_of_json in Hp'. repeat (apply bind_Some in Hp' as (? & ? & Hp')).
  injection Hp' as <-. simpl. split_and!.
  - by apply as_string_JStr.
  - by apply as_strings_JStr.
  - by apply as_strings_JStr.
  - match goal with Ha : js_get v "exercises" ≫= _ = Some _ |- _ =>
      destruct (js_get v "exercises") as [[| | | |xs|]|]; simpl in Ha; try discriminate end.
    exists xs. split; [done|]. by apply (exercises_shown xs _ 0).
  - rewrite length_imap. apply (badges_imap _ 0).
  - by rewrite names_imap.
Qed.

Lemma text_of_view_plan p : text_of_view (result_of_plan p) = plan_text p.
Proof. unfold text_of_view, plan_text. simpl. by rewrite fmap_imap. Qed.

(** Refinement of the typed render: wherever [renderResult] is
    defined (a falsy [workout], or a value that reads as a [WorkoutPlan]),
    the render on JavaScript values (ResultRender.v) draws the same
    screen: nothing, or the plan's title, duration, frequency, description,
    warm-up and cool-down items, and one card per exercise with its badge,
    its details and the image request for its name. *)
Theorem renderResult_js_refines v m :
  renderResult v = Some (VResult m) -> renderResult_js v = Ok (text_of_view <$> m).
Proof.
  unfold renderResult. destruct (truthy v) eqn:Ht; simpl.
  - destruct (plan_of_json v) as [p|] eqn:Hp; simpl; [|discriminate].
    intros [= <-]. rewrite (renderResult_js_plan v p Hp), <- text_of_view_plan. reflexivity.
  - intros [= <-]. unfold renderResult_js. by rewrite Ht.
Qed.

(** The page on the result step with a stored plan. *)
Lemma app_view_result st p :
  step st = Result -> plan_of_json (workout st) = Some p ->
  app_view st = Some {| av_header := true; av_progress_width := None;
                        av_main := [VResult (Some (result_of_plan p))] |}.
Proof.
  destruct st as [n pr w e]; simpl. intros -> Hp. unfold app_view, renderResult; simpl.
  by rewrite (plan_of_json_truthy _ _ Hp), Hp.
Qed.

Section Boundary.
Context `{JsonParse}.

(** C35: the empty plan is accepted.  The spec requires a successful
    generation to carry at least one exercise, but neither the schema
    nor [generateWorkoutPlan] rejects an empty list: when the service's
    answer reads as a plan with no exercise, the user's run reaches the
    result screen, which shows the plan with no exercise at all, mounts no
    card and issues no image request, and the world is idle. *)
Theorem empty_plan_accepted (l : ExperienceLevel) (g : FitnessGoal) (m : MuscleGroup) answer v p :
  generateWorkoutPlan_settle answer = Ok v -> plan_of_json v = Some p -> exercises p = [] ->
  exists w, world_reachable ui_enabled w /\ step (app (sys w)) = Result /\
    workout (app (sys w)) = v /\ cards w = [] /\ idle w /\
    app_view (app (sys w)) = Some {| av_header := true; av_progress_width := None;
                                     av_main := [VResult (Some (result_of_plan p))] |} /\
    rv_exercises (result_of_plan p) = [].
Proof.
  intros Hs Hp He.
  destruct (main_scenario_run l g m answer v p Hs Hp) as (w & Hr & HR & _ & Hw & Hpe & Hc & Hd).
  rewrite He in Hc. exists w. split_and!; try done.
  - split; [done|]. rewrite Hc, Hd. constructor.
  - apply app_view_result; [done|]. by rewrite Hw.
  - simpl. by rewrite He.
Qed.
End Boundary.

(** ** Witnesses *)

Lemma renderResult_js_refines_witness :
  renderResult (plan_to_json sample_plan) = Some (VResult (Some (result_of_plan sample_plan))) /\
  renderResult_js (plan_to_json sample_plan) = Ok (Some (text_of_view (result_of_plan sample_plan))).
Proof. split; [reflexivity|]. apply (renderResult_js_refines _ (Some _)). reflexivity. Defined.

Lemma view_controls_ui_enabled_witness :
  exists av, app_view goal_screen_state = Some av /\
    (EvSelectGoal Resistencia ∈ view_controls av <->
     ui_enabled goal_screen_state (EvSelectGoal Resistencia) = true).
Proof.
  eexists. split; [reflexivity|].
  apply (view_controls_ui_enabled goal_screen_state). reflexivity.
Defined.

Lemma app_view_layout_witness :
  wizard_inv muscle_sys /\
  exists av, app_view (app muscle_sys) = Some av /\
    length (av_main av) = 1%nat /\ av_header av = negb (Nat.eqb (step (app muscle_sys)) Intro) /\
    av_progress_width av = expected_width (app muscle_sys) /\
    (step (app muscle_sys) = Error ->
     av_main av = [VError (Some generation_error_message)
                     {| b_label := "Tentar Novamente"; b_event := EvRetry; b_enabled := true |}]).
Proof.
  assert (wizard_inv muscle_sys) as Hinv.
  { split; simpl; intros; try lia; try done; eauto. }
  split; [exact Hinv|]. eexists. split; [reflexivity|].
  apply (app_view_layout muscle_sys); [exact Hinv|reflexivity].
Defined.

Lemma result_screen_content_witness :
  renderResult (plan_to_json sample_plan) = Some (VResult (Some (result_of_plan sample_plan))) /\
  js_get (plan_to_json sample_plan) "title" = Some (JStr (rv_title (result_of_plan sample_plan))) /\
  result_cards (plan_to_json sample_plan) =
    Some (ed_name <$> rv_exercises (result_of_plan sample_plan)).
Proof.
  split; [reflexivity|].
  destruct (result_screen_content (plan_to_json sample_plan) (result_of_plan sample_plan))
    as (Ht & _ & _ & _ & _ & Hc); [reflexivity|].
  split; [exact Ht|exact Hc].
Defined.

(** A plan like the sample one, with no exercise, and a service whose
    every text parses as it. *)
Definition empty_plan : WorkoutPlan := {|
  title := title sample_plan; description := description sample_plan;
  estimatedDuration := estimatedDuration sample_plan;
  frequencyRecommendation := frequencyRecommendation sample_plan;
  warmup := warmup sample_plan; exercises := []; cooldown := cooldown sample_plan |}.

Definition empty_plan_parser : JsonParse := fun _ => Some (plan_to_json empty_plan).

Lemma empty_plan_accepted_witness :
  exists w, @world_reachable empty_plan_parser ui_enabled w /\ step (app (sys w)) = Result /\
    workout (app (sys w)) = plan_to_json empty_plan /\ cards w = [] /\ idle w /\
    app_view (app (sys w)) = Some {| av_header := true; av_progress_width := None;
                                     av_main := [VResult (Some (result_of_plan empty_plan))] |} /\
    rv_exercises (result_of_plan empty_plan) = [].
Proof.
  apply (@empty_plan_accepted empty_plan_parser Iniciante Hipertrofia Peito
           (Ok (text_response "{}")) (plan_to_json empty_plan) empty_plan);
    reflexivity.
Defined.
