(* ===== verification/Crash.v ===== *)
(** * A throwing render unmounts the application

    [App] has no error boundary.  When the render of the result screen
    throws (ResultRender.v: a truthy value without the shape the code
    assumes), React unmounts the whole tree: the page is blank, no control
    is left, and the wizard's state is gone.  The cards already unmounted
    keep their outstanding image calls, whose continuations still run and
    change nothing on screen.

    A [Screen] is a live [World] of System.v or the unmounted application
    with its detached cards.  [screen_step] is a [world_step], the wizard
    step whose re-render throws (the only wizard step [world_step] does
    not follow), or the settlement of a detached card's image call.

    Theorems: the application unmounts exactly on a wizard step into the
    result screen whose render throws; it never comes back; and from the
    start screen, any answer of the service that [generateWorkoutPlan]
    accepts and the result screen cannot render unmounts it, where the
    spec expects the error screen with its retry button. *)

From S2P Require Import Prelude Types Json Schema ResultRender Gemini Wizard ExerciseCard System.
Open Scope fit_scope.

Inductive Screen :=
| Live (w : World)
| Unmounted (detached_cards : list Card).

Section ScreenRuns.
Context `{JsonParse}.
Variable allowed : AppState -> Event -> bool.

Inductive screen_step : Screen -> Screen -> Prop :=
  | S_live w w' :
    world_step allowed w w' -> screen_step (Live w) (Live w')
  | S_throw w s' :
    sys_step allowed (sys w) s' ->
    rerender (app (sys w)) (app s') (cards w) (detached w) = None ->
    screen_step (Live w) (Unmounted (detached w ++ (unmount <$> cards w))%list)
  | S_unmounted ds i c n nm answer :
    ds !! i = Some c -> In (n, nm) (requests c) ->
    screen_step (Unmounted ds)
      (Unmounted (<[i := resolve n (generateExerciseImage_settle answer) c]> ds)).

Definition screen_reachable (s : Screen) : Prop := rtc screen_step (Live world_init) s.
End ScreenRuns.

(** ** Lemmas *)

Lemma result_cards_None v : result_cards v = None <-> exists e, renderResult_js v = Err e.
Proof. unfold result_cards. destruct (renderResult_js v) as [[]|]; naive_solver. Qed.

(** [rerender] fails exactly when the result screen appears with a value
    whose render throws. *)
Lemma rerender_None st st' cs ds :
  rerender st st' cs ds = None <->
  step st' = Result /\ step st <> Result /\ exists e, renderResult_js (workout st') = Err e.
Proof.
  rewrite <- result_cards_None. unfold rerender.
  destruct (Nat.eqb_spec (step st') Result), (Nat.eqb_spec (step st) Result);
    try naive_solver.
  destruct (result_cards (workout st')); naive_solver.
Qed.

Section Unmounted.
Context `{JsonParse}.
Variable allowed : AppState -> Event -> bool.

Lemma unmounted_stays ds s :
  rtc (screen_step allowed) (Unmounted ds) s -> exists ds', s = Unmounted ds'.
Proof.
  intros Hr. remember (Unmounted ds) as s0 eqn:E. revert ds E.
  induction Hr as [|s1 s2 s3 Hs _ IH]; intros ds ->; [eauto|].
  inversion Hs; subst. eauto.
Qed.

(** The application unmounts exactly on a wizard step into the result
    screen whose render throws. *)
Lemma screen_throw_iff w ds :
  screen_step allowed (Live w) (Unmounted ds) <->
  exists s', sys_step allowed (sys w) s' /\ step (app s') = Result /\
    step (app (sys w)) <> Result /\ (exists e, renderResult_js (workout (app s')) = Err e) /\
    ds = (detached w ++ (unmount <$> cards w))%list.
Proof.
  split.
  - inversion 1 as [|? s' Hs Hr|]; subst. apply rerender_None in Hr. naive_solver.
  - intros (s' & Hs & HR & HnR & He & ->). apply (S_throw allowed w s'); [done|].
    by apply rerender_None.
Qed.
End Unmounted.

Lemma live_rtc `{JsonParse} allowed w w' :
  rtc (world_step allowed) w w' -> rtc (screen_step allowed) (Live w) (Live w').
Proof. apply rtc_congruence. intros. by constructor. Qed.

(** ** Theorems *)

Section Scenario.
Context `{JsonParse}.

(** C15: an answer that [generateWorkoutPlan] accepts and the result
    screen cannot render unmounts the application: from the start screen,
    the user's clicks through level, goal and muscle group, followed by
    that answer, reach the unmounted application (blank page, no card),
    and nothing brings the application back; the spec's exit to the error
    screen with a retry button never happens. *)
Theorem throwing_answer_unmounts (l : ExperienceLevel) (g : FitnessGoal) (m : MuscleGroup)
    answer v e :
  generateWorkoutPlan_settle answer = Ok v -> renderResult_js v = Err e ->
  screen_reachable ui_enabled (Unmounted []) /\
  forall s, rtc (screen_step ui_enabled) (Unmounted []) s -> exists ds, s = Unmounted ds.
Proof.
  intros Hs He. split; [|apply unmounted_stays].
  eapply rtc_r; [apply live_rtc, (loading_run l g m)|].
  set (w := loading_world {| level := Some l; goal := Some g; muscleGroup := Some m |}).
  apply (S_throw ui_enabled w {| app := generate_settle (generateWorkoutPlan_settle answer)
                                          (app (sys w)); pending := [] |}).
  - by apply (SysSettle ui_enabled (sys w) [] (prefs (app (sys w))) [] answer).
  - apply rerender_None. rewrite Hs. simpl. split_and!; [done|discriminate|eauto].
Qed.
End Scenario.

(** ** Concrete runs *)

(** A parser that reads every text as the empty object. *)
Definition empty_object_parser : JsonParse := fun _ => Some (JObj []).

Lemma throwing_answer_unmounts_witness :
  @generateWorkoutPlan_settle empty_object_parser (Ok (text_response "{}")) = Ok (JObj []) /\
  renderResult_js (JObj []) = Err (ReadOfUndefined "map") /\
  @screen_reachable empty_object_parser ui_enabled (Unmounted []).
Proof.
  split; [reflexivity|]. split; [reflexivity|].
  apply (@throwing_answer_unmounts empty_object_parser Intermediario Forca Pernas
           (Ok (text_response "{}")) (JObj []) (ReadOfUndefined "map")); reflexivity.
Defined.
